(** * openApiGo: the Markdown renderer of [pkg/markdown], embedded in Rocq

    The Go package turns a Swagger 2.0 or an OpenAPI 3.x document into one
    Markdown text.  This development embeds the rendering pipeline
    ([ToMarkdown], [swagger2ToMarkdown], [openAPI3ToMarkdown], the two
    operation writers and the helpers of [helpers.go]) and proves properties
    of it.

    Conventions of the embedding:
    - a Go [string] or [[]byte] is a [string] (a sequence of bytes);
    - a Go pointer is an [option]; dereferencing [None] panics;
    - a Go [map[string]V] is an association list [gomap V]; [for k := range m]
      visits the entries in the order of the list, which stands for the order
      the Go runtime happens to pick on that run;
    - [bytes.Buffer] is append-only: a writer returns the chunks it appended,
      or panics;
    - an [interface{}] value decoded from JSON is an [option Any], [None]
      being [nil]. *)

From Stdlib Require Import List String Ascii ZArith Bool Lia Arith.
From Stdlib Require Import Permutation Sorted.
From Stdlib Require Import DecimalString.
Import ListNotations.
Open Scope string_scope.
Set Warnings "-register-all".

(** ** Strings *)

Definition nl : string := String (ascii_of_nat 10) EmptyString.
Definition tick : string := String (ascii_of_nat 96) EmptyString.
Definition emdash : string :=
  String (ascii_of_nat 226) (String (ascii_of_nat 128) (String (ascii_of_nat 148) EmptyString)).

Definition isEmpty (s : string) : bool :=
  match s with EmptyString => true | String _ _ => false end.

(** [strings.Join] *)
Definition Join (l : list string) (sep : string) : string := String.concat sep l.

(** [strings.HasPrefix s p] *)
Definition HasPrefix (s p : string) : bool := String.prefix p s.

(** [strings.LastIndex ref "/"]: the index of the last slash, if any. *)
Fixpoint LastIndexSlash (s : string) : option nat :=
  match s with
  | EmptyString => None
  | String c s' =>
      match LastIndexSlash s' with
      | Some i => Some (S i)
      | None => if Ascii.eqb c "/" then Some 0%nat else None
      end
  end.

(** [s[i:]] *)
Definition sliceFrom (i : nat) (s : string) : string :=
  String.substring i (String.length s - i) s.

(** [%d] of an [int] *)
Definition itoa (z : Z) : string := NilZero.string_of_int (Z.to_int z).

(** ** Slices and maps *)

Fixpoint insertBy {A} (le : A -> A -> bool) (x : A) (l : list A) : list A :=
  match l with
  | [] => [x]
  | y :: l' => if le x y then x :: l else y :: insertBy le x l'
  end.

Definition sortBy {A} (le : A -> A -> bool) (l : list A) : list A :=
  fold_right (insertBy le) [] l.

(** [sort.Strings]: ascending byte-wise order. *)
Definition sort_Strings : list string -> list string := sortBy String.leb.

(** [sort.Ints] *)
Definition sort_Ints : list Z -> list Z := sortBy Z.leb.

Definition gomap (V : Type) : Type := list (string * V).

(** the keys in the order one [range] over the map yields them *)
Definition keys {K V} (m : list (K * V)) : list K := map fst m.

Fixpoint mapGet {V} (m : gomap V) (k : string) : option V :=
  match m with
  | [] => None
  | (k', v) :: m' => if String.eqb k k' then Some v else mapGet m' k
  end.

(** [m[k]]: the zero value when the key is absent *)
Definition mapIndex {V} (zero : V) (m : gomap V) (k : string) : V :=
  match mapGet m k with Some v => v | None => zero end.

(** [m[k] = v] *)
Fixpoint mapSet {V} (m : gomap V) (k : string) (v : V) : gomap V :=
  match m with
  | [] => [(k, v)]
  | (k', v') :: m' =>
      if String.eqb k k' then (k, v) :: m' else (k', v') :: mapSet m' k v
  end.

Fixpoint intMapGet {V} (m : list (Z * V)) (k : Z) : option V :=
  match m with
  | [] => None
  | (k', v) :: m' => if Z.eqb k k' then Some v else intMapGet m' k
  end.

(** [contains] of helpers.go *)
Fixpoint contains (list : list string) (v : string) : bool :=
  match list with
  | [] => false
  | x :: rest => if String.eqb x v then true else contains rest v
  end.

(** [nonEmpty] of helpers.go *)
Definition nonEmpty (s fallback : string) : string :=
  if isEmpty s then fallback else s.

(** ** Decoded JSON values ([interface{}]) *)

(** The renderer never inspects such a value: it only hands it to [fmt] and to
    the example fence.  A number is kept as its literal. *)
Inductive Any : Type :=
| ABool (b : bool)
| ANumber (literal : string)
| AString (s : string)
| AArray (items : list Any)
| AObject (fields : list (string * Any)).

(** ** The output buffer *)

(** One chunk per write: [Raw] for an [fmt.Fprintf]/[fmt.Fprintln] on the
    buffer, [Fence] for a call of [writeExampleFence], whose three arguments are
    recorded. *)
Inductive Chunk : Type :=
| Raw (s : string)
| Fence (label mediaType : string) (v : option Any).

Definition Buffer : Type := list Chunk.

(** A writer either returns normally with the chunks it appended, or panics
    with the value [recover] would see. *)
Inductive M (A : Type) : Type :=
| Done (a : A) (out : Buffer)
| Panic (r : string).
Arguments Done {A} a out.
Arguments Panic {A} r.

Definition ret {A} (a : A) : M A := Done a [].

Definition bind {A B} (m : M A) (f : A -> M B) : M B :=
  match m with
  | Done a o =>
      match f a with
      | Done b o' => Done b (o ++ o')%list
      | Panic r => Panic r
      end
  | Panic r => Panic r
  end.

Notation "x <- m ;; k" := (bind m (fun x => k))
  (at level 61, m at next level, right associativity).
Notation "m ;; k" := (bind m (fun _ => k))
  (at level 61, right associativity).

Definition skip : M unit := ret tt.
Definition Fprintf (s : string) : M unit := Done tt [Raw s].
Definition Fprintln (s : string) : M unit := Done tt [Raw (s ++ nl)].
Definition writeExampleFence (label mediaType : string) (v : option Any) : M unit :=
  Done tt [Fence label mediaType v].

Definition nilDeref : string := "runtime error: invalid memory address or nil pointer dereference".

(** [*p], [p.f] on a pointer *)
Definition deref {A} (p : option A) : M A :=
  match p with Some a => ret a | None => Panic nilDeref end.

Definition when (c : bool) (m : M unit) : M unit := if c then m else skip.

(** [for _, x := range l { body x }] *)
Fixpoint forEach {A} (l : list A) (body : A -> M unit) : M unit :=
  match l with
  | [] => skip
  | x :: l' => body x ;; forEach l' body
  end.

(** a loop that updates local variables [acc] *)
Fixpoint foldM {A S} (l : list A) (f : S -> A -> M S) (acc : S) : M S :=
  match l with
  | [] => ret acc
  | x :: l' => acc' <- f acc x ;; foldM l' f acc'
  end.

(** ** Swagger 2.0 documents (go-openapi/spec), as far as the renderer reads them

    The field types are those of the library: [Info], [Paths], the
    operations of a path item, the schemas of parameters and responses and
    the entries of [SecurityDefinitions] are pointers; path items, definitions,
    properties, parameters, tags and status-code responses are values. *)

Module spec.

Record ContactInfo := { contact_Name : string; contact_Email : string }.
Record License := { license_Name : string }.
Record Info := {
  info_Title : string;
  info_Version : string;
  info_Description : string;
  info_Contact : option ContactInfo;
  info_License : option License }.

Record SecurityScheme := {
  sec_Type : string;
  sec_Name : string;
  sec_In : string;
  sec_AuthorizationURL : string;
  sec_TokenURL : string;
  sec_Scopes : gomap string }.

Record Tag := { tag_Name : string; tag_Description : string }.

Inductive Schema : Type := Build_Schema {
  Ref : string;                       (* s.Ref.String() *)
  Type_ : list string;
  Items : option SchemaOrArray;
  Format : string;
  Description : string;
  Properties : gomap Schema;
  Required : list string;
  Default : option Any;
  Enum : list (option Any);
  Example : option Any;
  Extensions : gomap (option Any) }
with SchemaOrArray : Type := Build_SchemaOrArray {
  soa_Schema : option Schema }.

Record Parameter_ := {
  prm_In : string;
  prm_Name : string;
  prm_Required : bool;
  prm_Type : string;
  prm_Schema : option Schema;
  prm_Description : string;
  prm_Default : option Any;
  prm_Enum : list (option Any) }.

Record Header := { hdr_Type : string }.

Record Response := {
  resp_Description : string;
  resp_Schema : option Schema;
  resp_Headers : gomap Header;
  resp_Examples : gomap (option Any) }.

Record Responses := {
  StatusCodeResponses : list (Z * Response);
  Default_ : option Response }.

Record Operation := {
  op_Tags : list string;
  op_Summary : string;
  op_Description : string;
  op_ID : string;
  op_Produces : list string;
  op_Consumes : list string;
  op_Parameters : list Parameter_;
  op_Responses : option Responses }.

Record PathItem := {
  Get : option Operation;
  Post : option Operation;
  Put : option Operation;
  Delete : option Operation;
  Patch : option Operation;
  Options : option Operation;
  Head : option Operation }.

Record Paths := { paths_Paths : gomap PathItem }.

Record Swagger := {
  sw_Info : option Info;
  sw_SecurityDefinitions : gomap (option SecurityScheme);
  sw_Schemes : list string;
  sw_Host : string;
  sw_BasePath : string;
  sw_Tags : list Tag;
  sw_Paths : option Paths;
  sw_Definitions : gomap Schema;
  sw_Produces : list string;
  sw_Consumes : list string }.

Definition zeroPathItem : PathItem :=
  {| Get := None; Post := None; Put := None; Delete := None;
     Patch := None; Options := None; Head := None |}.

Definition zeroSchema : Schema :=
  {| Ref := EmptyString; Type_ := []; Items := None; Format := EmptyString;
     Description := EmptyString; Properties := []; Required := [];
     Default := None; Enum := []; Example := None; Extensions := [] |}.

Definition zeroResponse : Response :=
  {| resp_Description := EmptyString; resp_Schema := None;
     resp_Headers := []; resp_Examples := [] |}.

End spec.

(** ** OpenAPI 3.x documents (kin-openapi/openapi3), as far as the renderer reads them

    The field types are those of the library release the package compiles
    against (the one with [Paths.Map], [Responses.Map] and [*Types]): [Info],
    [Components] and [Paths] are pointers, and so are the entries of [Servers],
    [Tags], [Parameters] and of every map. *)

Module openapi3.

Record Contact := { contact_Name : string; contact_Email : string }.
Record License := { license_Name : string }.
Record Info := {
  info_Title : string;
  info_Description : string;
  info_Version : string;
  info_Contact : option Contact;
  info_License : option License }.

Record SecurityScheme := {
  sec_Type : string;
  sec_Scheme : string;
  sec_Name : string;
  sec_In : string }.
Record SecuritySchemeRef := { secref_Value : option SecurityScheme }.

Record ServerVariable := { var_Default : string }.
Record Server := { srv_URL : string; srv_Variables : gomap (option ServerVariable) }.
Record Tag := { tag_Name : string; tag_Description : string }.

Inductive SchemaRef : Type := Build_SchemaRef {
  Ref : string;
  Value : option Schema }
with Schema : Type := Build_Schema {
  Type_ : option (list string);
  Items : option SchemaRef;
  Description : string;
  Default : option Any;
  Enum : list (option Any);
  Properties : gomap (option SchemaRef);
  Required : list string;
  Example : option Any }.

Record Parameter_ := {
  prm_Name : string;
  prm_In : string;
  prm_Description : string;
  prm_Required : bool;
  prm_Schema : option SchemaRef }.
Record ParameterRef := { prmref_Value : option Parameter_ }.

Record Example_ := { ex_Value : option Any }.
Record ExampleRef := { exref_Value : option Example_ }.

Record MediaType := {
  media_Schema : option SchemaRef;
  media_Example : option Any;
  media_Examples : gomap (option ExampleRef) }.

Definition Content : Type := gomap (option MediaType).

Record RequestBody := { body_Content : Content }.
Record RequestBodyRef := { bodyref_Value : option RequestBody }.

Record Response := {
  resp_Description : option string;
  resp_Content : Content }.
Record ResponseRef := { respref_Value : option Response }.

(** [Responses], seen through [Responses.Map()] *)
Record Responses := { responses_Map : gomap (option ResponseRef) }.

Record Operation := {
  op_Tags : list string;
  op_Summary : string;
  op_Description : string;
  op_Parameters : list (option ParameterRef);
  op_RequestBody : option RequestBodyRef;
  op_Responses : option Responses }.

Record PathItem := {
  Get : option Operation;
  Post : option Operation;
  Put : option Operation;
  Delete : option Operation;
  Patch : option Operation;
  Options : option Operation;
  Head : option Operation;
  Trace : option Operation;
  pi_Parameters : list (option ParameterRef) }.

(** [Paths], seen through [Paths.Map()] *)
Record Paths := { paths_Map : gomap (option PathItem) }.

Record Components := {
  comp_SecuritySchemes : gomap (option SecuritySchemeRef);
  comp_Schemas : gomap (option SchemaRef) }.

Record T := {
  t_OpenAPI : string;
  t_Info : option Info;
  t_Components : option Components;
  t_Servers : list (option Server);
  t_Tags : list (option Tag);
  t_Paths : option Paths }.

End openapi3.

Module O := openapi3.

(** ** helpers.go *)

(** [refName] *)
Definition refName (ref : string) : string :=
  if isEmpty ref then EmptyString
  else
    match LastIndexSlash ref with
    | Some i => if (i + 1 <? String.length ref)%nat then sliceFrom (i + 1) ref else ref
    | None => ref
    end.

(** [len(t) == 1 && t[0] == "array"] *)
Definition isArrayType (t : list string) : bool :=
  match t with
  | [x] => String.eqb x "array"
  | _ => false
  end.

(** [schemaSummarySwagger2] *)
Definition schemaSummarySwagger2 (s : option spec.Schema) : string :=
  match s with
  | None => EmptyString
  | Some s =>
      if negb (isEmpty (spec.Ref s)) && negb (isEmpty (refName (spec.Ref s)))
      then refName (spec.Ref s)
      else
        match isArrayType (spec.Type_ s), spec.Items s with
        | true, Some items =>
            match spec.soa_Schema items with
            | Some it =>
                if negb (isEmpty (spec.Ref it)) && negb (isEmpty (refName (spec.Ref it)))
                then refName (spec.Ref it) ++ "[]"
                else if (0 <? List.length (spec.Type_ it))%nat
                then "array<" ++ Join (spec.Type_ it) "," ++ ">"
                else "array"
            | None => "array"
            end
        | _, _ =>
            if (0 <? List.length (spec.Type_ s))%nat then
              if negb (isEmpty (spec.Format s))
              then Join (spec.Type_ s) "," ++ " (" ++ spec.Format s ++ ")"
              else Join (spec.Type_ s) ","
            else EmptyString
        end
  end.

(** [hostURL] *)
Definition hostURL (schemes : list string) (host basePath : string) : string :=
  let s := match schemes with x :: _ => x | [] => "http" end in
  if isEmpty host then EmptyString
  else if isEmpty basePath then s ++ "://" ++ host
  else s ++ "://" ++ host ++ basePath.

(** [typeOfSchemaRef] *)
Definition typeOfSchemaRef (ref : option openapi3.SchemaRef) : string :=
  match ref with
  | None => "-"
  | Some ref =>
      match openapi3.Value ref with
      | None => "-"
      | Some value =>
          if negb (isEmpty (openapi3.Ref ref)) then
            match LastIndexSlash (openapi3.Ref ref) with
            | Some i =>
                if (i + 1 <? String.length (openapi3.Ref ref))%nat
                then "$ref:" ++ sliceFrom (i + 1) (openapi3.Ref ref)
                else "$ref:" ++ openapi3.Ref ref
            | None => "$ref:" ++ openapi3.Ref ref
            end
          else
            match (match openapi3.Type_ value with
                   | Some t => isArrayType t
                   | None => false
                   end), openapi3.Items value with
            | true, Some items =>
                if negb (isEmpty (openapi3.Ref items))
                   && negb (isEmpty (refName (openapi3.Ref items)))
                then refName (openapi3.Ref items) ++ "[]"
                else
                  match openapi3.Value items with
                  | Some iv =>
                      match openapi3.Type_ iv with
                      | Some t =>
                          if (0 <? List.length t)%nat
                          then "array<" ++ Join t "," ++ ">"
                          else "array"
                      | None => "array"
                      end
                  | None => "array"
                  end
            | _, _ =>
                match openapi3.Type_ value with
                | Some t => if (0 <? List.length t)%nat then Join t "," else "object"
                | None => "object"
                end
            end
      end
  end.

(** ** Grouping operations by tag

    Both adapters run the same two loops over the sorted paths: an operation
    without tags is appended to [untagged], an operation with tags is appended
    to [tagged[tag]] once per entry of its tag list.  [R] is the adapter's
    [opRef], [O] its operation and [PI] its path item. *)

Section Grouping.

Variables (R O PI : Type).
Variable tagsOf : O -> list string.
Variable opsOf : PI -> list (string * option O).
Variable mkRef : string -> string -> PI -> O -> R.

(** [for _, tag := range op.Tags { tagged[tag] = append(tagged[tag], ref) }] *)
Definition appendTagged (tagged : gomap (list R)) (tags : list string) (ref : R) : gomap (list R) :=
  fold_left (fun tg tag => mapSet tg tag (mapIndex [] tg tag ++ [ref])%list) tags tagged.

Definition addRef (acc : gomap (list R) * list R) (tags : list string) (ref : R)
  : gomap (list R) * list R :=
  let '(tagged, untagged) := acc in
  if (List.length tags =? 0)%nat
  then (tagged, (untagged ++ [ref])%list)
  else (appendTagged tagged tags ref, untagged).

(** the body of [for _, p := range paths] *)
Definition groupPath (acc : gomap (list R) * list R) (p : string) (pi : PI)
  : gomap (list R) * list R :=
  fold_left
    (fun acc it =>
       match snd it with
       | None => acc                                       (* continue *)
       | Some op => addRef acc (tagsOf op) (mkRef (fst it) p pi op)
       end)
    (opsOf pi) acc.

(** [lookup p] is [pathMap[p]] followed by the first access to a field of the
    path item, which panics on a nil entry. *)
Definition groupOps (lookup : string -> M PI) (paths : list string)
  : M (gomap (list R) * list R) :=
  foldM paths (fun acc p => pi <- lookup p ;; ret (groupPath acc p pi)) ([], []).

End Grouping.

Arguments appendTagged {R} tagged tags ref.
Arguments addRef {R} acc tags ref.
Arguments groupPath {R O PI} tagsOf opsOf mkRef acc p pi.
Arguments groupOps {R O PI} tagsOf opsOf mkRef lookup paths.

(** *** Counting an operation in the buckets *)

Section Shares.

Variable Oper : Type.
Variable tagsOf : Oper -> list string.
Variables method path : string.

(** [m p] is the operation [method path] *)
Definition hit (m p : string) : bool := String.eqb m method && String.eqb p path.

(** what one operation adds to the count of [method path] *)
Definition untaggedShare (m p : string) (op : Oper) : nat :=
  if hit m p && (List.length (tagsOf op) =? 0)%nat then 1 else 0.

Definition taggedShare (t m p : string) (op : Oper) : nat :=
  if hit m p then count_occ string_dec (tagsOf op) t else 0.

(** the shares of the operations of one path item *)
Fixpoint untaggedShares (p : string) (ops : list (string * option Oper)) : nat :=
  match ops with
  | [] => 0
  | (m, Some op) :: rest => untaggedShare m p op + untaggedShares p rest
  | (_, None) :: rest => untaggedShares p rest
  end.

Fixpoint taggedShares (t p : string) (ops : list (string * option Oper)) : nat :=
  match ops with
  | [] => 0
  | (m, Some op) :: rest => taggedShare t m p op + taggedShares t p rest
  | (_, None) :: rest => taggedShares t p rest
  end.

End Shares.

Arguments untaggedShare {Oper} tagsOf method path m p op.
Arguments taggedShare {Oper} tagsOf method path t m p op.
Arguments untaggedShares {Oper} tagsOf method path p ops.
Arguments taggedShares {Oper} tagsOf method path t p ops.

(** ** Errors *)

Inductive error : Type :=
| LibError (msg : string)                      (* an error value of a library *)
| ErrorfW (context : string) (cause : error)   (* fmt.Errorf("<context>: %w", err) *)
| ErrorfPanic (context : string) (r : string)  (* fmt.Errorf("<context>: %v", r) *)
| ErrorfMsg (msg : string)                     (* fmt.Errorf("<msg>") *)
| ErrorfDetect (swagger openapi : string).
  (* "could not detect or parse OpenAPI version (swagger=%q, openapi=%q)" *)

Section Renderer.

(** The library functions the renderer calls on values. *)
Variable Sprint : Any -> string.          (* fmt.Sprintf("%v", v), v not nil *)
Variable TrimSpace : string -> string.    (* strings.TrimSpace *)

Definition sprintV (v : option Any) : string :=
  match v with Some a => Sprint a | None => "<nil>" end.

(** [defaultAsString] *)
Definition defaultAsString (v : option Any) : string :=
  match v with None => EmptyString | Some a => Sprint a end.

(** [enumAsString] *)
Definition enumAsString (list : list (option Any)) : string :=
  match list with
  | [] => EmptyString
  | _ => Join (map sprintV list) ", "
  end.

(** the three optional suffixes of a parameter or property line *)
Definition lineSuffix (desc def enum : string) : string :=
  (if isEmpty desc then EmptyString else " " ++ emdash ++ " " ++ desc) ++
  (if isEmpty def then EmptyString else " [default: " ++ def ++ "]") ++
  (if isEmpty enum then EmptyString else " [enum: " ++ enum ++ "]").

(** *** swagger2.go *)

Import spec.

Record opRef2 := { Method2 : string; Path2 : string; Op2 : Operation }.

Definition opsOf2 (pi : PathItem) : list (string * option Operation) :=
  [("GET", Get pi); ("POST", Post pi); ("PUT", Put pi); ("DELETE", Delete pi);
   ("PATCH", Patch pi); ("OPTIONS", Options pi); ("HEAD", Head pi)].

(** one iteration of [for _, prm := range op.Parameters] *)
Definition swagger2ParamLine (prm : Parameter_) : string :=
  let loc := prm_In prm in
  let name := prm_Name prm in
  let req := if prm_Required prm then " (required)" else EmptyString in
  let typ :=
    match prm_Schema prm with
    | Some sc =>
        if isEmpty (prm_Type prm) && (0 <? List.length (Type_ sc))%nat
        then Join (Type_ sc) "," else prm_Type prm
    | None => prm_Type prm
    end in
  let desc := TrimSpace (prm_Description prm) in
  let def := defaultAsString (prm_Default prm) in
  let enum := enumAsString (prm_Enum prm) in
  "- " ++ loc ++ " " ++ tick ++ name ++ tick ++ " (" ++ nonEmpty typ "-" ++ ")" ++ req
    ++ lineSuffix desc def enum.

(** the first parameter with [In == "body"] and a schema *)
Fixpoint findBodySchema (params : list Parameter_) : option Schema :=
  match params with
  | [] => None
  | prm :: rest =>
      match prm_Schema prm with
      | Some sc => if String.eqb (prm_In prm) "body" then Some sc else findBodySchema rest
      | None => findBodySchema rest
      end
  end.

(** the example [ex] the request-example block shows *)
Definition bodyExample (bodySchema : Schema) : option Any :=
  let ex :=
    match Example bodySchema with
    | Some e => Some e
    | None =>
        match Items bodySchema with
        | Some items =>
            match soa_Schema items with
            | Some it => Example it
            | None => None
            end
        | None => None
        end
    end in
  match ex with
  | Some e => Some e
  | None =>
      match mapGet (Extensions bodySchema) "x-example" with
      | Some v => v
      | None => None
      end
  end.

Definition swagger2ResponseLine (code desc0 : string) (schema : option Schema) : string :=
  let desc := if isEmpty (TrimSpace desc0) then "No description" else TrimSpace desc0 in
  let line := "- " ++ code ++ " " ++ emdash ++ " " ++ desc in
  match schema with
  | Some _ =>
      let summary := schemaSummarySwagger2 schema in
      if isEmpty summary then line else line ++ " (schema: " ++ summary ++ ")"
  | None => line
  end.

(** one iteration of [for _, code := range codes] *)
Definition writeSwagger2StatusResponse (rs : Responses) (code : Z) : M unit :=
  let r := match intMapGet (StatusCodeResponses rs) code with
           | Some r => r | None => zeroResponse end in
  Fprintln (swagger2ResponseLine (itoa code) (resp_Description r) (resp_Schema r)) ;;
  when (0 <? List.length (resp_Examples r))%nat
    (forEach (sort_Strings (keys (resp_Examples r)))
       (fun mt =>
          writeExampleFence ("Response example (" ++ itoa code ++ ", " ++ mt ++ ")") mt
            (mapIndex None (resp_Examples r) mt))).

Definition writeSwagger2Operation (method path : string) (op : Operation)
    (globalProduces globalConsumes : list string) : M unit :=
  Fprintf (nl ++ "#### " ++ method ++ " " ++ path ++ nl) ;;
  when (negb (isEmpty (op_Summary op))) (Fprintf (op_Summary op ++ nl ++ nl)) ;;
  when (negb (isEmpty (op_Description op))) (Fprintf (op_Description op ++ nl ++ nl)) ;;
  (* Operation ID *)
  when (negb (isEmpty (op_ID op)))
    (Fprintf ("_Operation ID_: " ++ tick ++ op_ID op ++ tick ++ nl ++ nl)) ;;
  (* Media types *)
  let produces := if (List.length (op_Produces op) =? 0)%nat then globalProduces else op_Produces op in
  let consumes := if (List.length (op_Consumes op) =? 0)%nat then globalConsumes else op_Consumes op in
  when (0 <? List.length produces)%nat
    (Fprintf ("**Produces**" ++ nl) ;;
     forEach produces (fun mt => Fprintf ("- " ++ mt ++ nl)) ;;
     Fprintln EmptyString) ;;
  when (0 <? List.length consumes)%nat
    (Fprintf ("**Consumes**" ++ nl) ;;
     forEach consumes (fun mt => Fprintf ("- " ++ mt ++ nl)) ;;
     Fprintln EmptyString) ;;
  (* Parameters *)
  when (0 <? List.length (op_Parameters op))%nat
    (Fprintf ("**Parameters**" ++ nl) ;;
     forEach (op_Parameters op) (fun prm => Fprintln (swagger2ParamLine prm))) ;;
  (* Request example *)
  match findBodySchema (op_Parameters op) with
  | Some bodySchema =>
      match bodyExample bodySchema with
      | Some ex =>
          if (0 <? List.length consumes)%nat
          then forEach consumes
                 (fun mt => writeExampleFence ("Request example (" ++ mt ++ ")") mt (Some ex))
          else writeExampleFence "Request example" EmptyString (Some ex)
      | None => skip
      end
  | None => skip
  end ;;
  (* Responses *)
  match op_Responses op with
  | Some rs =>
      when ((0 <? List.length (StatusCodeResponses rs))%nat
            || match Default_ rs with Some _ => true | None => false end)
        (Fprintf (nl ++ "**Responses**" ++ nl) ;;
         forEach (sort_Ints (keys (StatusCodeResponses rs))) (writeSwagger2StatusResponse rs) ;;
         match Default_ rs with
         | Some d => Fprintln (swagger2ResponseLine "default" (resp_Description d) (resp_Schema d))
         | None => skip
         end)
  | None => skip
  end.

Definition noneDefined : M unit := Fprintf ("- None defined" ++ nl).

(** one entry of [sec.Scopes] *)
Definition scopeString (kv : string * string) : string :=
  if isEmpty (snd kv) then fst kv else fst kv ++ " (" ++ snd kv ++ ")".

(** one iteration of [for name, sec := range s.SecurityDefinitions] *)
Definition writeSwagger2Security (entry : string * option SecurityScheme) : M unit :=
  let name := fst entry in
  sec <- deref (snd entry) ;;
  let line := "- " ++ name ++ " " ++ emdash ++ " type=" ++ sec_Type sec in
  let line := if isEmpty (sec_Name sec) then line else line ++ ", name=" ++ sec_Name sec in
  let line := if isEmpty (sec_In sec) then line else line ++ ", in=" ++ sec_In sec in
  let line := if isEmpty (sec_AuthorizationURL sec) then line
              else line ++ ", authUrl=" ++ sec_AuthorizationURL sec in
  let line := if isEmpty (sec_TokenURL sec) then line
              else line ++ ", tokenUrl=" ++ sec_TokenURL sec in
  let line := if (0 <? List.length (sec_Scopes sec))%nat
              then line ++ ", scopes=[" ++ Join (sort_Strings (map scopeString (sec_Scopes sec))) ", " ++ "]"
              else line in
  Fprintln line.

Definition writeTagLine (name description : string) : M unit :=
  if isEmpty description
  then Fprintf ("- " ++ name ++ nl)
  else Fprintf ("- " ++ name ++ " " ++ emdash ++ " " ++ description ++ nl).

(** one iteration of [for _, pn := range propNames] *)
Definition swagger2PropertyLine (sch : Schema) (pn : string) : string :=
  let ps := mapIndex zeroSchema (Properties sch) pn in
  let typ := nonEmpty (schemaSummarySwagger2 (Some ps)) "-" in
  let desc := TrimSpace (Description ps) in
  let req := if contains (Required sch) pn then " (required)" else EmptyString in
  let def := defaultAsString (Default ps) in
  let enum := enumAsString (Enum ps) in
  "- " ++ tick ++ pn ++ tick ++ " (" ++ typ ++ ")" ++ req ++ lineSuffix desc def enum.

(** one iteration of [for _, name := range names] of the Schemas section *)
Definition writeSwagger2Definition (defs : gomap Schema) (name : string) : M unit :=
  let sch := mapIndex zeroSchema defs name in
  Fprintf (nl ++ "### " ++ name ++ nl) ;;
  when (negb (isEmpty (Description sch))) (Fprintf (Description sch ++ nl ++ nl)) ;;
  when (0 <? List.length (Properties sch))%nat
    (Fprintf ("**Properties**" ++ nl) ;;
     forEach (sort_Strings (keys (Properties sch)))
       (fun pn => Fprintln (swagger2PropertyLine sch pn))) ;;
  match Example sch with
  | Some e => writeExampleFence "Example" "application/json" (Some e)
  | None =>
      match mapGet (Extensions sch) "x-example" with
      | Some v => writeExampleFence "Example" "application/json" v
      | None => skip
      end
  end.

(** one iteration of [for code, r := range it.op.Responses.StatusCodeResponses]
    of the Examples section *)
Definition writeSwagger2ExampleNote (method p : string) (entry : Z * Response) : M unit :=
  let code := fst entry in
  let r := snd entry in
  if (List.length (resp_Headers r) =? 0)%nat
     && match resp_Schema r with None => true | Some _ => false end
     && (List.length (resp_Examples r) =? 0)%nat
  then skip                                                  (* continue *)
  else when (0 <? List.length (resp_Examples r))%nat
         (Fprintf ("- " ++ method ++ " " ++ p ++ " " ++ itoa code ++ " " ++ emdash
                   ++ " has inline examples" ++ nl)).

Definition writeSwagger2Refs (s : Swagger) (refs : list opRef2) : M unit :=
  forEach refs
    (fun ref => writeSwagger2Operation (Method2 ref) (Path2 ref) (Op2 ref)
                  (sw_Produces s) (sw_Consumes s)).

(** the two loops that fill [tagged] and [untagged] *)
Definition swagger2Buckets (P : Paths) : M (gomap (list opRef2) * list opRef2) :=
  groupOps op_Tags opsOf2 (fun m p _ op => {| Method2 := m; Path2 := p; Op2 := op |})
    (fun p => ret (mapIndex zeroPathItem (paths_Paths P) p))
    (sort_Strings (keys (paths_Paths P))).

(** the body of [swagger2ToMarkdown] after the document has been decoded *)
Definition swagger2Render (s : Swagger) : M unit :=
  (* Overview *)
  let title := match sw_Info s with
               | Some i => if isEmpty (info_Title i) then "-" else info_Title i
               | None => "-" end in
  let version := match sw_Info s with
                 | Some i => if isEmpty (info_Version i) then "-" else info_Version i
                 | None => "-" end in
  Fprintf ("# " ++ title ++ nl ++ nl) ;;
  Fprintf ("## Overview" ++ nl) ;;
  Fprintf ("- Version: " ++ version ++ nl) ;;
  match sw_Info s with
  | Some i =>
      when (negb (isEmpty (info_Description i)))
        (Fprintf ("- Description: " ++ TrimSpace (info_Description i) ++ nl)) ;;
      match info_Contact i with
      | Some c =>
          when (negb (isEmpty (contact_Name c))) (Fprintf ("- Contact: " ++ contact_Name c ++ nl)) ;;
          when (negb (isEmpty (contact_Email c)))
            (Fprintf ("- Contact Email: " ++ contact_Email c ++ nl))
      | None => skip
      end ;;
      match info_License i with
      | Some l => when (negb (isEmpty (license_Name l))) (Fprintf ("- License: " ++ license_Name l ++ nl))
      | None => skip
      end
  | None => skip
  end ;;
  (* Authentication *)
  Fprintf (nl ++ "## Authentication" ++ nl) ;;
  (if (List.length (sw_SecurityDefinitions s) =? 0)%nat
   then noneDefined
   else forEach (sw_SecurityDefinitions s) writeSwagger2Security) ;;
  (* Servers *)
  Fprintf (nl ++ "## Servers" ++ nl) ;;
  (let hostLine := hostURL (sw_Schemes s) (sw_Host s) (sw_BasePath s) in
   if negb (isEmpty hostLine) then Fprintf ("- " ++ hostLine ++ nl) else noneDefined) ;;
  (* Tags *)
  Fprintf (nl ++ "## Tags" ++ nl) ;;
  (if (List.length (sw_Tags s) =? 0)%nat
   then noneDefined
   else forEach (sw_Tags s) (fun t => writeTagLine (tag_Name t) (tag_Description t))) ;;
  (* Endpoints by Tag *)
  Fprintf (nl ++ "## Endpoints by Tag" ++ nl) ;;
  P <- deref (sw_Paths s) ;;                                  (* s.Paths.Paths *)
  let paths := sort_Strings (keys (paths_Paths P)) in
  buckets <- swagger2Buckets P ;;
  let '(tagged, untagged) := buckets in
  forEach (sort_Strings (keys tagged))
    (fun name =>
       Fprintf (nl ++ "### " ++ name ++ nl) ;;
       writeSwagger2Refs s (mapIndex [] tagged name)) ;;
  when (0 <? List.length untagged)%nat
    (Fprintf (nl ++ "### Untagged" ++ nl) ;;
     writeSwagger2Refs s untagged) ;;
  (* Schemas (Definitions) *)
  when (0 <? List.length (sw_Definitions s))%nat
    (Fprintf (nl ++ "## Schemas" ++ nl) ;;
     forEach (sort_Strings (keys (sw_Definitions s))) (writeSwagger2Definition (sw_Definitions s))) ;;
  (* Examples (basic) *)
  Fprintf (nl ++ "## Examples" ++ nl) ;;
  forEach paths
    (fun p =>
       let pi := mapIndex zeroPathItem (paths_Paths P) p in
       forEach (opsOf2 pi)
         (fun it =>
            match snd it with
            | None => skip                                   (* continue *)
            | Some op =>
                match op_Responses op with
                | None => skip                               (* continue *)
                | Some rs =>
                    forEach (StatusCodeResponses rs) (writeSwagger2ExampleNote (fst it) p)
                end
            end)).

(** [writeExampleFence] is not part of the sources at hand: the text it appends
    for its three arguments is a parameter. *)
Variable fenceText : string -> string -> option Any -> string.

Definition chunkText (c : Chunk) : string :=
  match c with
  | Raw s => s
  | Fence label mt v => fenceText label mt v
  end.

(** [b.String()] *)
Definition bufferString (b : Buffer) : string := String.concat EmptyString (map chunkText b).

(** the decoders of encoding/json for [spec.Swagger] *)
Variable json_Unmarshal_Swagger : string -> Swagger + string.

(** [swagger2ToMarkdown]: the deferred [recover] turns a panic of the body
    into an error and resets the text. *)
Definition swagger2ToMarkdown (data : string) : string * option error :=
  match json_Unmarshal_Swagger data with
  | inr e => (EmptyString, Some (ErrorfW "parse swagger 2.0" (LibError e)))
  | inl s =>
      match swagger2Render s with
      | Done _ b => (bufferString b, None)
      | Panic r => (EmptyString, Some (ErrorfPanic "swagger2 conversion panic" r))
      end
  end.


(** *** The OpenAPI 3.x adapter *)


Record opRef3 := {
  Method3 : string;
  Path3 : string;
  PathItem3 : O.PathItem;
  Op3 : O.Operation }.

Definition opsOf3 (pi : O.PathItem) : list (string * option O.Operation) :=
  [("GET", O.Get pi); ("POST", O.Post pi); ("PUT", O.Put pi); ("DELETE", O.Delete pi);
   ("PATCH", O.Patch pi); ("OPTIONS", O.Options pi); ("HEAD", O.Head pi);
   ("TRACE", O.Trace pi)].

(** [typ := "-"; if ref != nil && ref.Value != nil { typ = typeOfSchemaRef(ref) }] *)
Definition schemaTyp (ref : option O.SchemaRef) : string :=
  match ref with
  | Some r =>
      match O.Value r with
      | Some _ => typeOfSchemaRef ref
      | None => "-"
      end
  | None => "-"
  end.

Definition openAPI3ParamLine (par : O.Parameter_) : string :=
  let req := if O.prm_Required par then " (required)" else EmptyString in
  let typ := schemaTyp (O.prm_Schema par) in
  let desc := TrimSpace (O.prm_Description par) in
  let def :=
    match O.prm_Schema par with
    | Some r =>
        match O.Value r with
        | Some v => match O.Default v with Some d => Sprint d | None => EmptyString end
        | None => EmptyString
        end
    | None => EmptyString
    end in
  "- " ++ O.prm_In par ++ " " ++ tick ++ O.prm_Name par ++ tick ++ " (" ++ typ ++ ")" ++ req
    ++ lineSuffix desc def EmptyString.

(** one iteration of [for _, pr := range params] *)
Definition writeOpenAPI3Param (pr : option O.ParameterRef) : M unit :=
  match pr with
  | None => skip                                             (* continue *)
  | Some pr =>
      match O.prmref_Value pr with
      | None => skip                                         (* continue *)
      | Some par => Fprintln (openAPI3ParamLine par)
      end
  end.

(** [exRef != nil && exRef.Value != nil && exRef.Value.Value != nil] *)
Definition exampleValue (exRef : option O.ExampleRef) : option Any :=
  match exRef with
  | Some r =>
      match O.exref_Value r with
      | Some e => O.ex_Value e
      | None => None
      end
  | None => None
  end.

(** the examples of one media type: the inline one, then the named ones in
    the order of their names; [anon] and [named] build the labels *)
Definition writeMediaExamples (anon : string) (named : string -> string) (mt : string)
    (media : O.MediaType) : M unit :=
  match O.media_Example media with
  | Some e => writeExampleFence anon mt (Some e)
  | None => skip
  end ;;
  when (0 <? List.length (O.media_Examples media))%nat
    (forEach (sort_Strings (keys (O.media_Examples media)))
       (fun name =>
          match exampleValue (mapIndex None (O.media_Examples media) name) with
          | Some v => writeExampleFence (named name) mt (Some v)
          | None => skip
          end)).

(** one iteration of [for _, mt := range mts] of the request body *)
Definition writeRequestMedia (content : O.Content) (mt : string) : M unit :=
  media <- deref (mapIndex None content mt) ;;
  Fprintf ("- " ++ mt ++ " " ++ emdash ++ " schema: " ++ schemaTyp (O.media_Schema media) ++ nl) ;;
  writeMediaExamples ("Request example (" ++ mt ++ ")")
    (fun name => "Request example (" ++ name ++ ", " ++ mt ++ ")") mt media.

(** one iteration of [for _, mt := range mts] of a response *)
Definition writeResponseMedia (code : string) (content : O.Content) (mt : string) : M unit :=
  media <- deref (mapIndex None content mt) ;;
  Fprintf ("  - " ++ mt ++ " " ++ emdash ++ " schema: " ++ schemaTyp (O.media_Schema media) ++ nl) ;;
  writeMediaExamples ("Response example (" ++ code ++ ", " ++ mt ++ ")")
    (fun name => "Response example (" ++ name ++ ", " ++ code ++ ", " ++ mt ++ ")") mt media.

(** [r != nil && r.Value != nil] *)
Definition responseValue (r : option O.ResponseRef) : option O.Response :=
  match r with
  | Some r => O.respref_Value r
  | None => None
  end.

(** one iteration of [for _, code := range codes] *)
Definition writeOpenAPI3Response (respMap : gomap (option O.ResponseRef)) (code : string) : M unit :=
  match responseValue (mapIndex None respMap code) with
  | None => skip                                             (* continue *)
  | Some r =>
      let desc := match O.resp_Description r with
                  | Some d => TrimSpace d
                  | None => "No description" end in
      let desc := if isEmpty desc then "No description" else desc in
      Fprintf ("- " ++ code ++ " " ++ emdash ++ " " ++ desc ++ nl) ;;
      when (0 <? List.length (O.resp_Content r))%nat
        (forEach (sort_Strings (keys (O.resp_Content r))) (writeResponseMedia code (O.resp_Content r)))
  end.

Definition writeOpenAPI3Operation (method path : string) (pi : O.PathItem) (op : O.Operation)
  : M unit :=
  Fprintf (nl ++ "#### " ++ method ++ " " ++ path ++ nl) ;;
  when (negb (isEmpty (O.op_Summary op))) (Fprintf (O.op_Summary op ++ nl ++ nl)) ;;
  when (negb (isEmpty (O.op_Description op))) (Fprintf (O.op_Description op ++ nl ++ nl)) ;;
  (* Parameters (PathItem + Operation) *)
  let params := (([] ++ O.pi_Parameters pi) ++ O.op_Parameters op)%list in
  when (0 <? List.length params)%nat
    (Fprintf ("**Parameters**" ++ nl) ;;
     forEach params writeOpenAPI3Param) ;;
  (* Request Body *)
  match O.op_RequestBody op with
  | Some rb =>
      match O.bodyref_Value rb with
      | Some body =>
          when (0 <? List.length (O.body_Content body))%nat
            (Fprintf (nl ++ "**Request Body**" ++ nl) ;;
             forEach (sort_Strings (keys (O.body_Content body)))
               (writeRequestMedia (O.body_Content body)))
      | None => skip
      end
  | None => skip
  end ;;
  (* Responses *)
  match O.op_Responses op with
  | Some rs =>
      let respMap := O.responses_Map rs in
      when (0 <? List.length respMap)%nat
        (Fprintf (nl ++ "**Responses**" ++ nl) ;;
         forEach (sort_Strings (keys respMap)) (writeOpenAPI3Response respMap))
  | None => skip
  end.

(** one iteration of [for _, name := range names] of the Authentication section *)
Definition writeOpenAPI3Security (schemes : gomap (option O.SecuritySchemeRef)) (name : string)
  : M unit :=
  match mapIndex None schemes name with
  | None => skip                                             (* continue *)
  | Some ref =>
      match O.secref_Value ref with
      | None => skip                                         (* continue *)
      | Some ss =>
          let line := "- " ++ name ++ " " ++ emdash ++ " type=" ++ O.sec_Type ss in
          let line := if isEmpty (O.sec_Scheme ss) then line
                      else line ++ ", scheme=" ++ O.sec_Scheme ss in
          let line := if isEmpty (O.sec_Name ss) then line else line ++ ", name=" ++ O.sec_Name ss in
          let line := if isEmpty (O.sec_In ss) then line else line ++ ", in=" ++ O.sec_In ss in
          Fprintln line
      end
  end.

(** one iteration of [for _, s := range doc.Servers] *)
Definition writeOpenAPI3Server (s : option O.Server) : M unit :=
  s <- deref s ;;
  let u := if (0 <? List.length (O.srv_Variables s))%nat
           then O.srv_URL s ++ " {vars}" else O.srv_URL s in
  Fprintf ("- " ++ u ++ nl).

(** one iteration of [for _, pn := range propNames] *)
Definition writeOpenAPI3Property (value : O.Schema) (pn : string) : M unit :=
  let ps := mapIndex None (O.Properties value) pn in
  let typ := typeOfSchemaRef ps in
  ps <- deref ps ;;                                          (* ps.Value *)
  let desc := match O.Value ps with Some v => TrimSpace (O.Description v) | None => EmptyString end in
  let def := match O.Value ps with
             | Some v => match O.Default v with Some d => Sprint d | None => EmptyString end
             | None => EmptyString end in
  let enum := match O.Value ps with
              | Some v => if (0 <? List.length (O.Enum v))%nat
                          then Join (map sprintV (O.Enum v)) ", " else EmptyString
              | None => EmptyString end in
  let req := if contains (O.Required value) pn then " (required)" else EmptyString in
  Fprintln ("- " ++ tick ++ pn ++ tick ++ " (" ++ typ ++ ")" ++ req ++ lineSuffix desc def enum).

(** one iteration of [for _, name := range names] of the Schemas section *)
Definition writeOpenAPI3Schema (schemas : gomap (option O.SchemaRef)) (name : string) : M unit :=
  let ref := mapIndex None schemas name in
  Fprintf (nl ++ "### " ++ name ++ nl) ;;
  ref <- deref ref ;;                                        (* ref.Value *)
  match O.Value ref with
  | Some value =>
      when (negb (isEmpty (O.Description value))) (Fprintf (O.Description value ++ nl ++ nl)) ;;
      when (0 <? List.length (O.Properties value))%nat
        (Fprintf ("**Properties**" ++ nl) ;;
         forEach (sort_Strings (keys (O.Properties value))) (writeOpenAPI3Property value)) ;;
      match O.Example value with
      | Some e => writeExampleFence "Example" "application/json" (Some e)
      | None => skip
      end
  | None => skip
  end.

(** [for _, media := range r.Value.Content { if ... { hasExample = true; break } }] *)
Fixpoint hasExampleLoop (content : list (string * option O.MediaType)) : M bool :=
  match content with
  | [] => ret false
  | (_, m) :: rest =>
      media <- deref m ;;                                    (* media.Example *)
      if match O.media_Example media with Some _ => true | None => false end
         || (0 <? List.length (O.media_Examples media))%nat
      then ret true                                          (* break *)
      else hasExampleLoop rest
  end.

(** one iteration of [for code, r := range respMap] of the Examples section *)
Definition writeOpenAPI3ExampleNote (method p : string) (entry : string * option O.ResponseRef)
  : M unit :=
  match responseValue (snd entry) with
  | None => skip                                             (* continue *)
  | Some r =>
      if (List.length (O.resp_Content r) =? 0)%nat then skip  (* continue *)
      else
        hasExample <- hasExampleLoop (O.resp_Content r) ;;
        when hasExample
          (Fprintf ("- " ++ method ++ " " ++ p ++ " " ++ fst entry ++ " " ++ emdash
                    ++ " has inline examples" ++ nl))
  end.

Definition writeOpenAPI3Refs (refs : list opRef3) : M unit :=
  forEach refs
    (fun ref => writeOpenAPI3Operation (Method3 ref) (Path3 ref) (PathItem3 ref) (Op3 ref)).

(** the two loops that fill [tagged] and [untagged] *)
Definition openAPI3Buckets (pathMap : gomap (option O.PathItem))
  : M (gomap (list opRef3) * list opRef3) :=
  groupOps O.op_Tags opsOf3
    (fun m p pi op => {| Method3 := m; Path3 := p; PathItem3 := pi; Op3 := op |})
    (fun p => deref (mapIndex None pathMap p))               (* pi.Get *)
    (sort_Strings (keys pathMap)).

(** the body of [openAPI3ToMarkdown] after the document has been loaded *)
Definition openAPI3Render (doc : O.T) : M unit :=
  (* Overview *)
  let title := match O.t_Info doc with
               | Some i => if isEmpty (O.info_Title i) then "-" else O.info_Title i
               | None => "-" end in
  let desc := match O.t_Info doc with
              | Some i => if isEmpty (O.info_Description i) then EmptyString
                          else TrimSpace (O.info_Description i)
              | None => EmptyString end in
  let fromOpenAPI := if isEmpty (O.t_OpenAPI doc) then "-" else O.t_OpenAPI doc in
  let version := match O.t_Info doc with
                 | Some i => if isEmpty (O.info_Version i) then fromOpenAPI else O.info_Version i
                 | None => fromOpenAPI end in
  Fprintf ("# " ++ title ++ nl ++ nl) ;;
  Fprintf ("## Overview" ++ nl) ;;
  Fprintf ("- Version: " ++ version ++ nl) ;;
  when (negb (isEmpty desc)) (Fprintf ("- Description: " ++ desc ++ nl)) ;;
  match O.t_Info doc with
  | Some i =>
      match O.info_Contact i with
      | Some c =>
          when (negb (isEmpty (O.contact_Name c))) (Fprintf ("- Contact: " ++ O.contact_Name c ++ nl)) ;;
          when (negb (isEmpty (O.contact_Email c)))
            (Fprintf ("- Contact Email: " ++ O.contact_Email c ++ nl))
      | None => skip
      end ;;
      match O.info_License i with
      | Some l => when (negb (isEmpty (O.license_Name l)))
                    (Fprintf ("- License: " ++ O.license_Name l ++ nl))
      | None => skip
      end
  | None => skip
  end ;;
  (* Authentication (security schemes) *)
  Fprintf (nl ++ "## Authentication" ++ nl) ;;
  components <- deref (O.t_Components doc) ;;               (* doc.Components.SecuritySchemes *)
  (if (List.length (O.comp_SecuritySchemes components) =? 0)%nat
   then noneDefined
   else forEach (sort_Strings (keys (O.comp_SecuritySchemes components)))
          (writeOpenAPI3Security (O.comp_SecuritySchemes components))) ;;
  (* Servers *)
  Fprintf (nl ++ "## Servers" ++ nl) ;;
  (if (List.length (O.t_Servers doc) =? 0)%nat
   then noneDefined
   else forEach (O.t_Servers doc) writeOpenAPI3Server) ;;
  (* Tags *)
  Fprintf (nl ++ "## Tags" ++ nl) ;;
  (if (List.length (O.t_Tags doc) =? 0)%nat
   then noneDefined
   else forEach (O.t_Tags doc)
          (fun t => t <- deref t ;; writeTagLine (O.tag_Name t) (O.tag_Description t))) ;;
  (* Endpoints by Tag *)
  Fprintf (nl ++ "## Endpoints by Tag" ++ nl) ;;
  match O.t_Paths doc with
  | None => noneDefined
  | Some P =>
      let pathMap := O.paths_Map P in
      buckets <- openAPI3Buckets pathMap ;;
      let '(tagged, untagged) := buckets in
      forEach (sort_Strings (keys tagged))
        (fun name =>
           Fprintf (nl ++ "### " ++ name ++ nl) ;;
           writeOpenAPI3Refs (mapIndex [] tagged name)) ;;
      when (0 <? List.length untagged)%nat
        (Fprintf (nl ++ "### Untagged" ++ nl) ;;
         writeOpenAPI3Refs untagged)
  end ;;
  (* Schemas *)
  when (0 <? List.length (O.comp_Schemas components))%nat
    (Fprintf (nl ++ "## Schemas" ++ nl) ;;
     forEach (sort_Strings (keys (O.comp_Schemas components)))
       (writeOpenAPI3Schema (O.comp_Schemas components))) ;;
  (* Examples (basic) *)
  Fprintf (nl ++ "## Examples" ++ nl) ;;
  match O.t_Paths doc with
  | None => noneDefined
  | Some P =>
      let pathMap := O.paths_Map P in
      let pathKeys := sort_Strings (keys pathMap) in
      forEach pathKeys
        (fun p =>
           pi <- deref (mapIndex None pathMap p) ;;          (* pi.Get *)
           forEach (opsOf3 pi)
             (fun it =>
                match snd it with
                | None => skip                               (* continue *)
                | Some op =>
                    match O.op_Responses op with
                    | None => skip                           (* continue *)
                    | Some rs =>
                        forEach (O.responses_Map rs) (writeOpenAPI3ExampleNote (fst it) p)
                    end
                end))
  end.

(** *** markdown.go *)

Record Options_ := { Format_ : string; SkipValidation : bool }.

Record versionProbe := { Swagger_ : string; OpenAPI_ : string }.

(** the loader and the validator of kin-openapi *)
Variable LoadFromData : string -> option O.T + string.
Variable Validate : O.T -> option string.

(** [openAPI3ToMarkdown]; the outcome of [doc.Validate] is dropped. *)
Definition openAPI3ToMarkdown (data : string) (opts : Options_) : string * option error :=
  match LoadFromData data with
  | inr e => (EmptyString, Some (ErrorfW "parse openapi 3" (LibError e)))
  | inl None => (EmptyString, Some (ErrorfMsg "parse openapi 3: loader returned nil document"))
  | inl (Some doc) =>
      let _ := if negb (SkipValidation opts) then Validate doc else None in
      match openAPI3Render doc with
      | Done _ b => (bufferString b, None)
      | Panic r => (EmptyString, Some (ErrorfPanic "openapi3 conversion panic" r))
      end
  end.

(** encoding/json and yaml.v3, as [normalizeToJSON] and [ToMarkdown] use them *)
Variable json_Unmarshal_any : string -> option Any + string.
Variable yaml_Unmarshal : string -> option Any + string.
Variable json_Marshal : option Any -> string + string.
Variable json_Unmarshal_versionProbe : string -> versionProbe + string.

Definition FormatAuto : string := "auto".
Definition FormatJSON : string := "json".
Definition FormatYAML : string := "yaml".

(** [normalizeToJSON] *)
Definition normalizeToJSON (data : string) (format : string) : string + error :=
  if String.eqb format FormatJSON then inl data
  else if String.eqb format FormatYAML then
    match yaml_Unmarshal data with
    | inr e => inr (ErrorfW "failed to parse input as YAML" (LibError e))
    | inl v =>
        match json_Marshal v with
        | inr e => inr (ErrorfW "failed to convert YAML to JSON" (LibError e))
        | inl jsonData => inl jsonData
        end
    end
  else
    match json_Unmarshal_any data with
    | inl _ => inl data
    | inr _ =>
        match yaml_Unmarshal data with
        | inl tmp =>
            match json_Marshal tmp with
            | inr e => inr (ErrorfW "failed to convert YAML to JSON" (LibError e))
            | inl jsonData => inl jsonData
            end
        | inr _ => inr (ErrorfMsg "input is neither valid JSON nor YAML")
        end
    end.

(** [ToMarkdown] *)
Definition ToMarkdown (data : string) (opts : Options_) : string * option error :=
  match normalizeToJSON data (Format_ opts) with
  | inr err => (EmptyString, Some err)
  | inl jsonData =>
      match json_Unmarshal_versionProbe jsonData with
      | inr e => (EmptyString, Some (ErrorfW "failed to parse input as JSON" (LibError e)))
      | inl vp =>
          if HasPrefix (Swagger_ vp) "2.0" then swagger2ToMarkdown jsonData
          else if HasPrefix (OpenAPI_ vp) "3." then openAPI3ToMarkdown jsonData opts
          else
            match swagger2ToMarkdown jsonData with
            | (md, None) => (md, None)
            | (_, Some _) =>
                match openAPI3ToMarkdown jsonData opts with
                | (md, None) => (md, None)
                | (_, Some _) =>
                    (EmptyString, Some (ErrorfDetect (Swagger_ vp) (OpenAPI_ vp)))
                end
            end
      end
  end.

(** *** cmd/openapi-go-md/main.go *)

(** [parseFormatFlag] *)
Definition parseFormatFlag (formatFlag : string) : string * option error :=
  if String.eqb formatFlag "auto" || String.eqb formatFlag EmptyString
  then (FormatAuto, None)
  else if String.eqb formatFlag "json" then (FormatJSON, None)
  else if String.eqb formatFlag "yaml" then (FormatYAML, None)
  else (EmptyString, Some (ErrorfMsg "invalid --format value, must be one of: auto,json,yaml")).

(** What [main] does to the outside, in the order in which it does it. *)
Inductive Event : Type :=
| StdinRead                                   (* io.ReadAll(os.Stdin) *)
| FileRead (path : string)                    (* os.ReadFile(fileFlag) *)
| HttpGet (url : string)                      (* http.Get(urlFlag) *)
| BodyRead                                    (* io.ReadAll(resp.Body) *)
| Stderr (text : string)                      (* fmt.Fprintf(os.Stderr, ...) *)
| StderrError (err : error)                   (* fmt.Fprintln(os.Stderr, err.Error()) *)
| StderrConvert (err : error)     (* "failed to convert spec to markdown: %v\n" *)
| StdoutWritten (md : string)                 (* os.Stdout.Write([]byte(md)) *)
| FileWritten (path md : string).             (* os.WriteFile(outFlag, []byte(md), 0o644) *)

(** The outside: what the reads return, as [(data, err)], the response of
    [http.Get] as its status code and the outcome of reading its body, or the
    error of the request, and the error of [os.WriteFile], if any. *)
Variable io_ReadAll_Stdin : string * option string.
Variable os_ReadFile : string -> string * option string.
Variable http_Get : string -> (Z * (string * option string)) + string.
Variable os_WriteFile : string -> string -> option string.

(** [main], from the values of the four flags on: the events and the exit
    status ([os.Exit(1)] or the return from [main]) *)
Definition main (fileFlag urlFlag outFlag formatFlag : string) : list Event * Z :=
  let inputsSet := 0%Z in
  let inputsSet := if negb (isEmpty fileFlag) then (inputsSet + 1)%Z else inputsSet in
  let inputsSet := if negb (isEmpty urlFlag) then (inputsSet + 1)%Z else inputsSet in
  if negb (inputsSet =? 1)%Z
  then ([Stderr ("exactly one of --file or --url must be specified" ++ nl)], 1%Z)
  else
    (* the events of the read, and [(data, err)] unless [main] has exited *)
    let input : list Event * option (string * option string) :=
      if negb (isEmpty fileFlag) then
        if String.eqb fileFlag "-"
        then ([StdinRead], Some io_ReadAll_Stdin)
        else ([FileRead fileFlag], Some (os_ReadFile fileFlag))
      else if negb (isEmpty urlFlag) then
        match http_Get urlFlag with
        | inr errReq =>
            ([HttpGet urlFlag; Stderr ("failed to fetch URL: " ++ errReq ++ nl)], None)
        | inl (status, body) =>
            if (status <? 200)%Z || (300 <=? status)%Z
            then ([HttpGet urlFlag;
                   Stderr ("non-success status code from URL: " ++ itoa status ++ nl)], None)
            else ([HttpGet urlFlag; BodyRead], Some body)
        end
      else ([], Some (EmptyString, None)) in
    match snd input with
    | None => (fst input, 1%Z)
    | Some (_, Some err) =>
        ((fst input ++ [Stderr ("failed to read input: " ++ err ++ nl)])%list, 1%Z)
    | Some (data, None) =>
        match parseFormatFlag formatFlag with
        | (_, Some err) => ((fst input ++ [StderrError err])%list, 1%Z)
        | (parsedFormat, None) =>
            let opts := {| Format_ := parsedFormat; SkipValidation := false |} in
            match ToMarkdown data opts with
            | (_, Some err) => ((fst input ++ [StderrConvert err])%list, 1%Z)
            | (md, None) =>
                if isEmpty outFlag
                then ((fst input ++ [StdoutWritten md])%list, 0%Z)
                else
                  match os_WriteFile outFlag md with
                  | Some err =>
                      ((fst input
                        ++ [FileWritten outFlag md;
                            Stderr ("failed to write output file: " ++ err ++ nl)])%list, 1%Z)
                  | None => ((fst input ++ [FileWritten outFlag md])%list, 0%Z)
                  end
            end
        end
    end.

(** [main] gets [data] from the one source the flags name *)
Definition inputRead (fileFlag urlFlag data : string) : Prop :=
  (fileFlag = "-" /\ urlFlag = EmptyString /\ io_ReadAll_Stdin = (data, None))
  \/ (fileFlag <> EmptyString /\ fileFlag <> "-" /\ urlFlag = EmptyString
      /\ os_ReadFile fileFlag = (data, None))
  \/ (fileFlag = EmptyString /\ urlFlag <> EmptyString
      /\ exists status, http_Get urlFlag = inl (status, (data, None))
                        /\ (200 <= status < 300)%Z).

(** the write that ends a run without error *)
Definition outputEvent (outFlag md : string) : Event :=
  if isEmpty outFlag then StdoutWritten md else FileWritten outFlag md.

(** ** What is read off a buffer *)

(** the seven writes that open a top-level section *)
Definition sectionHeading (name : string) : Chunk :=
  Raw (if String.eqb name "Overview"
       then "## Overview" ++ nl
       else nl ++ "## " ++ name ++ nl).

Definition sectionNames : list string :=
  ["Overview"; "Authentication"; "Servers"; "Tags"; "Endpoints by Tag"; "Schemas"; "Examples"].

Definition isSectionHeading (c : Chunk) : bool :=
  match c with
  | Raw s =>
      existsb (fun name => match sectionHeading name with
                           | Raw h => String.eqb s h
                           | Fence _ _ _ => false
                           end) sectionNames
  | Fence _ _ _ => false
  end.

(** the section headings a buffer holds, in the order they were written *)
Definition headingsOf (b : Buffer) : Buffer := filter isSectionHeading b.

(** a call of [writeExampleFence] for a request example *)
Definition isRequestExample (c : Chunk) : bool :=
  match c with
  | Raw _ => false
  | Fence label _ _ => String.prefix "Request example" label
  end.

(** how often the operation [method path] occurs in a bucket *)
Definition occurrences {R} (refMethod refPath : R -> string) (method path : string)
    (bucket : list R) : nat :=
  List.length (filter (fun r => String.eqb (refMethod r) method && String.eqb (refPath r) path) bucket).

(** the number of places where [sub] starts in [s] *)
Fixpoint countSubstring (sub s : string) : nat :=
  match s with
  | EmptyString => 0
  | String _ s' => (if String.prefix sub s then 1 else 0) + countSubstring sub s'
  end.

(** the lines the OpenAPI 3 operation writer prints for a list of parameters:
    one per entry that is not nil and has a value *)
Definition paramChunk (pr : option O.ParameterRef) : list Chunk :=
  match pr with
  | Some r =>
      match O.prmref_Value r with
      | Some par => [Raw (openAPI3ParamLine par ++ nl)]
      | None => []
      end
  | None => []
  end.

Definition paramChunks (params : list (option O.ParameterRef)) : list Chunk :=
  flat_map paramChunk params.

(** the heading of an operation with its summary and description *)
Definition operationHead (method path summary description : string) : list Chunk :=
  ([Raw (nl ++ "#### " ++ method ++ " " ++ path ++ nl)]
   ++ (if isEmpty summary then [] else [Raw (summary ++ nl ++ nl)])
   ++ (if isEmpty description then [] else [Raw (description ++ nl ++ nl)]))%list.

(** the last two bytes of a text *)
Fixpoint lastTwo (s : string) : option (ascii * ascii) :=
  match s with
  | EmptyString => None
  | String a r =>
      match r with
      | EmptyString => None
      | String b EmptyString => Some (a, b)
      | String _ (String _ _) => lastTwo r
      end
  end.

(** the line an empty section shows *)
Definition noneDefinedLine : Chunk := Raw ("- None defined" ++ nl).

(** [adjacent x y b]: [y] was written right after [x] *)
Definition adjacent (x y : Chunk) (b : Buffer) : Prop :=
  exists pre post, b = (pre ++ x :: y :: post)%list.

(** the headings of a document, [schemas] telling whether it has the Schemas section *)
Definition headingsWith (schemas : bool) : list Chunk :=
  map sectionHeading
    (["Overview"; "Authentication"; "Servers"; "Tags"; "Endpoints by Tag"]
     ++ (if schemas then ["Schemas"] else []) ++ ["Examples"])%list.

(** [silent P m]: when [m] returns, nothing it wrote satisfies [P] *)
Definition silent {A} (P : Chunk -> bool) (m : M A) : Prop :=
  forall a out, m = Done a out -> filter P out = [].

(** [yields P m l]: [m] returns, and [l] are the chunks it wrote that satisfy [P] *)
Definition yields (P : Chunk -> bool) (m : M unit) (l : list Chunk) : Prop :=
  exists out, m = Done tt out /\ filter P out = l.

(** the two ways a call of an adapter can end *)
Definition textOrError (result : string * option error) : Prop :=
  (exists md, result = (md, None)) \/ (exists e, result = (EmptyString, Some e)).

(** [returns m]: the walk [m] ends without a panic *)
Definition returns {A} (m : M A) : Prop := exists a out, m = Done a out.

Definition isSome {A} (o : option A) : bool :=
  match o with Some _ => true | None => false end.

(** no media type of a content map is nil *)
Definition mediaPresent (content : O.Content) : bool :=
  forallb (fun mt => isSome (mapIndex None content mt)) (keys content).

(** the media types the OpenAPI 3 operation writer reads: those of the
    request body and those of every response that has a value *)
Definition operationMediaPresent (op : O.Operation) : bool :=
  match O.op_RequestBody op with
  | Some rb =>
      match O.bodyref_Value rb with
      | Some body => mediaPresent (O.body_Content body)
      | None => true
      end
  | None => true
  end
  && match O.op_Responses op with
     | Some rs =>
         forallb
           (fun code =>
              match responseValue (mapIndex None (O.responses_Map rs) code) with
              | Some r => mediaPresent (O.resp_Content r)
              | None => true
              end)
           (keys (O.responses_Map rs))
     | None => true
     end.

(** [ref] is in one of the buckets *)
Definition inBuckets {R} (buckets : gomap (list R) * list R) (ref : R) : Prop :=
  In ref (snd buckets) \/ exists t, In ref (mapIndex [] (fst buckets) t).

(** the scan of the Examples section over the media types of one response:
    it stops at the first one that has an example, and reads every one
    before it *)
Fixpoint exampleScan (content : list (string * option O.MediaType)) : bool :=
  match content with
  | [] => true
  | (_, None) :: _ => false
  | (_, Some media) :: rest =>
      if match O.media_Example media with Some _ => true | None => false end
         || (0 <? List.length (O.media_Examples media))%nat
      then true
      else exampleScan rest
  end.

Definition examplesScannable (op : O.Operation) : bool :=
  match O.op_Responses op with
  | Some rs =>
      forallb
        (fun entry =>
           match responseValue (snd entry) with
           | Some r => exampleScan (O.resp_Content r)
           | None => true
           end)
        (O.responses_Map rs)
  | None => true
  end.

(** every path item is there and every operation of it passes [ok] *)
Definition operationsPass (ok : O.Operation -> bool) (pathMap : gomap (option O.PathItem))
  : bool :=
  forallb
    (fun p =>
       match mapIndex None pathMap p with
       | Some pi =>
           forallb (fun it => match snd it with Some op => ok op | None => true end)
             (opsOf3 pi)
       | None => false
       end)
    (keys pathMap).

(** a schema of the components is there, and so is each of its properties *)
Definition schemaPresent (schemas : gomap (option O.SchemaRef)) (name : string) : bool :=
  match mapIndex None schemas name with
  | Some ref =>
      match O.Value ref with
      | Some value =>
          forallb (fun pn => isSome (mapIndex None (O.Properties value) pn))
            (keys (O.Properties value))
      | None => true
      end
  | None => false
  end.

(** the documents the OpenAPI 3 walk can be run on *)
Definition openAPI3Walkable (doc : O.T) : bool :=
  match O.t_Components doc with
  | Some components =>
      forallb isSome (O.t_Servers doc)
      && forallb isSome (O.t_Tags doc)
      && match O.t_Paths doc with
         | Some P =>
             operationsPass operationMediaPresent (O.paths_Map P)
             && operationsPass examplesScannable (O.paths_Map P)
         | None => true
         end
      && forallb (schemaPresent (O.comp_Schemas components))
           (keys (O.comp_Schemas components))
  | None => false
  end.

(** the references of the operations of one path item, in the order of the
    method table *)
Definition pathRefs {R Oper PI} (opsOf : PI -> list (string * option Oper))
    (mkRef : string -> string -> PI -> Oper -> R) (p : string) (pi : PI) : list R :=
  flat_map
    (fun it => match snd it with Some op => [mkRef (fst it) p pi op] | None => [] end)
    (opsOf pi).

(** the operations of a document in the order the adapters visit them: the
    paths in ascending order, the methods of a path in the order of the table *)
Definition operations2 (P : Paths) : list opRef2 :=
  flat_map
    (fun p =>
       pathRefs opsOf2 (fun m p _ op => {| Method2 := m; Path2 := p; Op2 := op |}) p
         (mapIndex zeroPathItem (paths_Paths P) p))
    (sort_Strings (keys (paths_Paths P))).

Definition operations3 (pathMap : gomap (option O.PathItem)) : list opRef3 :=
  flat_map
    (fun p =>
       match mapIndex None pathMap p with
       | Some pi =>
           pathRefs opsOf3
             (fun m p pi op => {| Method3 := m; Path3 := p; PathItem3 := pi; Op3 := op |})
             p pi
       | None => []
       end)
    (sort_Strings (keys pathMap)).

(** [m'] is the Go map [m], ranged over in another order *)
Definition sameMap {V} (m m' : gomap V) : Prop := Permutation m m' /\ NoDup (keys m).

(** two decodings of one Swagger 2.0 document that differ in the order in
    which the runtime ranges over [Definitions] and [Paths.Paths] *)
Definition sameDocument2 (s s' : Swagger) : Prop :=
  sw_Info s = sw_Info s'
  /\ sw_SecurityDefinitions s = sw_SecurityDefinitions s'
  /\ sw_Schemes s = sw_Schemes s'
  /\ sw_Host s = sw_Host s'
  /\ sw_BasePath s = sw_BasePath s'
  /\ sw_Tags s = sw_Tags s'
  /\ sw_Produces s = sw_Produces s'
  /\ sw_Consumes s = sw_Consumes s'
  /\ sameMap (sw_Definitions s) (sw_Definitions s')
  /\ match sw_Paths s, sw_Paths s' with
     | Some P, Some P' => sameMap (paths_Paths P) (paths_Paths P')
     | None, None => True
     | _, _ => False
     end.

(** two loadings of one OpenAPI 3 document that differ in the order in which
    the runtime ranges over the security schemes, the schemas and the paths *)
Definition sameDocument3 (doc doc' : O.T) : Prop :=
  O.t_OpenAPI doc = O.t_OpenAPI doc'
  /\ O.t_Info doc = O.t_Info doc'
  /\ O.t_Servers doc = O.t_Servers doc'
  /\ O.t_Tags doc = O.t_Tags doc'
  /\ match O.t_Components doc, O.t_Components doc' with
     | Some c, Some c' =>
         sameMap (O.comp_SecuritySchemes c) (O.comp_SecuritySchemes c')
         /\ sameMap (O.comp_Schemas c) (O.comp_Schemas c')
     | None, None => True
     | _, _ => False
     end
  /\ match O.t_Paths doc, O.t_Paths doc' with
     | Some P, Some P' => sameMap (O.paths_Map P) (O.paths_Map P')
     | None, None => True
     | _, _ => False
     end.

(** [s] contains a slash *)
Fixpoint hasSlash (s : string) : bool :=
  match s with
  | EmptyString => false
  | String c r => Ascii.eqb c "/" || hasSlash r
  end.

(** the body schema [sc] carries the example [ex]: on the schema itself, else
    on the schema of its items, else as the extension [x-example] *)
Inductive carriesExample (sc : Schema) (ex : Any) : Prop :=
| exampleOnSchema :
    Example sc = Some ex -> carriesExample sc ex
| exampleOnItems items it :
    Example sc = None ->
    Items sc = Some items -> soa_Schema items = Some it -> Example it = Some ex ->
    carriesExample sc ex
| exampleAsExtension :
    Example sc = None ->
    (forall items it, Items sc = Some items -> soa_Schema items = Some it -> Example it = None) ->
    mapGet (Extensions sc) "x-example" = Some (Some ex) ->
    carriesExample sc ex.

(** what a walk has written when it returns *)
Definition outputOf (m : M unit) : Buffer :=
  match m with Done _ out => out | Panic _ => [] end.

(** the writes that open the group of a tag and the block of an operation *)
Definition tagHeading (name : string) : Chunk := Raw (nl ++ "### " ++ name ++ nl).

Definition operationHeading (method path : string) : Chunk :=
  Raw (nl ++ "#### " ++ method ++ " " ++ path ++ nl).

(** [c] is the heading of the section [name] *)
Definition isHeadingOf (name : string) (c : Chunk) : bool :=
  match c, sectionHeading name with
  | Raw s, Raw h => String.eqb s h
  | _, _ => false
  end.

(** the chunks of a buffer before its first section heading *)
Fixpoint upToHeading (b : Buffer) : Buffer :=
  match b with
  | [] => []
  | c :: rest => if isSectionHeading c then [] else c :: upToHeading rest
  end.

(** the section [name] of a buffer: what follows its heading, up to the next
    section heading *)
Fixpoint sectionOf (name : string) (b : Buffer) : Buffer :=
  match b with
  | [] => []
  | c :: rest => if isHeadingOf name c then upToHeading rest else sectionOf name rest
  end.

(** The Endpoints section as the specification describes it, for the
    operations [ops] of a document in the order of the walk: one group per
    tag that some operation lists, the tags ascending, then the group of the
    operations without tags.  [block] is what the operation writer writes for
    an operation. *)
Definition underTag {R} (refTags : R -> list string) (t : string) (ops : list R) : list R :=
  flat_map (fun r => repeat r (count_occ string_dec (refTags r) t)) ops.

Definition withoutTags {R} (refTags : R -> list string) (ops : list R) : list R :=
  filter (fun r => (List.length (refTags r) =? 0)%nat) ops.

Definition tagNames {R} (refTags : R -> list string) (ops : list R) : list string :=
  sort_Strings (nodup string_dec (flat_map refTags ops)).

Definition endpointsBy {R} (refTags : R -> list string) (block : R -> Buffer) (ops : list R)
  : Buffer :=
  (flat_map (fun t => tagHeading t :: flat_map block (underTag refTags t ops))
     (tagNames refTags ops)
   ++ match withoutTags refTags ops with
      | [] => []
      | untagged => tagHeading "Untagged" :: flat_map block untagged
      end)%list.

(** the blocks of the two operation writers *)
Definition block2 (s : Swagger) (r : opRef2) : Buffer :=
  outputOf (writeSwagger2Operation (Method2 r) (Path2 r) (Op2 r) (sw_Produces s) (sw_Consumes s)).

Definition block3 (r : opRef3) : Buffer :=
  outputOf (writeOpenAPI3Operation (Method3 r) (Path3 r) (PathItem3 r) (Op3 r)).

(** ** Sample documents *)

(** Stand-ins for the library functions, used where a property is run on a
    concrete document.  The decoders know the sample texts below and reject
    everything else. *)

Definition dq : string := String (ascii_of_nat 34) EmptyString.
Definition q (s : string) : string := dq ++ s ++ dq.

Definition isSpace (c : ascii) : bool :=
  let n := nat_of_ascii c in ((9 <=? n) && (n <=? 13) || (n =? 32))%nat.

Fixpoint trimLeft (s : string) : string :=
  match s with
  | EmptyString => EmptyString
  | String c r => if isSpace c then trimLeft r else s
  end.

Fixpoint trimRight (s : string) : string :=
  match s with
  | EmptyString => EmptyString
  | String c r =>
      let r' := trimRight r in
      if isSpace c && isEmpty r' then EmptyString else String c r'
  end.

(** [strings.TrimSpace] on ASCII text *)
Definition sampleTrimSpace (s : string) : string := trimRight (trimLeft s).

(** [%v] of a scalar; arrays and objects are abbreviated *)
Definition sampleSprint (v : Any) : string :=
  match v with
  | ABool true => "true"
  | ABool false => "false"
  | ANumber literal => literal
  | AString s => s
  | AArray _ => "[...]"
  | AObject _ => "map[...]"
  end.

Definition sampleFence (label mediaType : string) (v : option Any) : string :=
  nl ++ label ++ " [" ++ mediaType ++ "]: "
    ++ match v with Some a => sampleSprint a | None => "<nil>" end ++ nl.

Definition zeroSwagger : Swagger :=
  {| sw_Info := None; sw_SecurityDefinitions := []; sw_Schemes := [];
     sw_Host := EmptyString; sw_BasePath := EmptyString; sw_Tags := [];
     sw_Paths := None; sw_Definitions := []; sw_Produces := []; sw_Consumes := [] |}.

(** the text [{"components":{}}]: no version field, no paths *)
Definition textNoPaths : string := "{" ++ q "components" ++ ":{}}".

Definition docNoPaths : O.T :=
  {| O.t_OpenAPI := EmptyString; O.t_Info := None;
     O.t_Components := Some {| O.comp_SecuritySchemes := []; O.comp_Schemas := [] |};
     O.t_Servers := []; O.t_Tags := []; O.t_Paths := None |}.

(** the minimal Swagger 2.0 document of the package's tests *)
Definition textPing : string :=
  "{" ++ q "swagger" ++ ":" ++ q "2.0" ++ "," ++ q "paths" ++ ":{" ++ q "/ping" ++ ":{"
  ++ q "get" ++ ":{" ++ q "responses" ++ ":{" ++ q "200" ++ ":{" ++ q "description" ++ ":"
  ++ q "ok" ++ "}}}}}}".

Definition okResponse : Response :=
  {| resp_Description := "ok"; resp_Schema := None; resp_Headers := []; resp_Examples := [] |}.

Definition opPing : Operation :=
  {| op_Tags := []; op_Summary := EmptyString; op_Description := EmptyString;
     op_ID := EmptyString; op_Produces := []; op_Consumes := []; op_Parameters := [];
     op_Responses := Some {| StatusCodeResponses := [(200%Z, okResponse)]; Default_ := None |} |}.

Definition onlyGet (op : Operation) : PathItem :=
  {| Get := Some op; Post := None; Put := None; Delete := None;
     Patch := None; Options := None; Head := None |}.

Definition swaggerPing : Swagger :=
  {| sw_Info := None; sw_SecurityDefinitions := []; sw_Schemes := [];
     sw_Host := EmptyString; sw_BasePath := EmptyString; sw_Tags := [];
     sw_Paths := Some {| paths_Paths := [("/ping", onlyGet opPing)] |};
     sw_Definitions := []; sw_Produces := []; sw_Consumes := [] |}.

Definition unknownInput {A} : A + string := inr "sample decoder: unknown input".

Definition sampleProbe (data : string) : versionProbe + string :=
  if String.eqb data textNoPaths then inl {| Swagger_ := EmptyString; OpenAPI_ := EmptyString |}
  else if String.eqb data textPing then inl {| Swagger_ := "2.0"; OpenAPI_ := EmptyString |}
  else unknownInput.

Definition sampleUnmarshalSwagger (data : string) : Swagger + string :=
  if String.eqb data textNoPaths then inl zeroSwagger
  else if String.eqb data textPing then inl swaggerPing
  else unknownInput.

Definition sampleLoad (data : string) : option O.T + string :=
  if String.eqb data textNoPaths then inl (Some docNoPaths)
  else unknownInput.

Definition sampleValidate (doc : O.T) : option string := None.

Definition sampleDecodeAny (data : string) : option Any + string := unknownInput.

Definition sampleMarshal (v : option Any) : string + string := unknownInput.

Definition optionsJSON : Options_ := {| Format_ := FormatJSON; SkipValidation := false |}.

(** an operation listed twice under the same tag *)
Definition opTwiceA : Operation :=
  {| op_Tags := ["a"; "a"]; op_Summary := EmptyString; op_Description := EmptyString;
     op_ID := EmptyString; op_Produces := []; op_Consumes := []; op_Parameters := [];
     op_Responses := None |}.

Definition swaggerTwiceA : Swagger :=
  {| sw_Info := None; sw_SecurityDefinitions := []; sw_Schemes := [];
     sw_Host := EmptyString; sw_BasePath := EmptyString; sw_Tags := [];
     sw_Paths := Some {| paths_Paths := [("/x", onlyGet opTwiceA)] |};
     sw_Definitions := []; sw_Produces := []; sw_Consumes := [] |}.

(** an operation without tags next to an operation whose only tag is named
    Untagged *)
Definition opNamedUntagged : Operation :=
  {| op_Tags := ["Untagged"]; op_Summary := EmptyString; op_Description := EmptyString;
     op_ID := EmptyString; op_Produces := []; op_Consumes := []; op_Parameters := [];
     op_Responses := None |}.

Definition opNoTags : Operation :=
  {| op_Tags := []; op_Summary := EmptyString; op_Description := EmptyString;
     op_ID := EmptyString; op_Produces := []; op_Consumes := []; op_Parameters := [];
     op_Responses := None |}.

Definition swaggerNamedUntagged : Swagger :=
  {| sw_Info := None; sw_SecurityDefinitions := []; sw_Schemes := [];
     sw_Host := EmptyString; sw_BasePath := EmptyString; sw_Tags := [];
     sw_Paths := Some {| paths_Paths := [("/t", onlyGet opNamedUntagged);
                                         ("/u", onlyGet opNoTags)] |};
     sw_Definitions := []; sw_Produces := []; sw_Consumes := [] |}.

(** an operation tagged a and b, as in the specification's example *)
Definition opAB : Operation :=
  {| op_Tags := ["a"; "b"]; op_Summary := EmptyString; op_Description := EmptyString;
     op_ID := EmptyString; op_Produces := []; op_Consumes := []; op_Parameters := [];
     op_Responses := None |}.

Definition pathsAB : Paths := {| paths_Paths := [("/x", onlyGet opAB)] |}.

(** schema nodes: a bare node, an array of [Pet] references, an array of
    strings, and the same array of references on a node that is itself a
    reference *)
Definition refToPet : Schema :=
  {| Ref := "#/definitions/Pet"; Type_ := []; Items := None; Format := EmptyString;
     Description := EmptyString; Properties := []; Required := []; Default := None;
     Enum := []; Example := None; Extensions := [] |}.

Definition stringSchema : Schema :=
  {| Ref := EmptyString; Type_ := ["string"]; Items := None; Format := EmptyString;
     Description := EmptyString; Properties := []; Required := []; Default := None;
     Enum := []; Example := None; Extensions := [] |}.

Definition arrayOf (ref : string) (item : Schema) : Schema :=
  {| Ref := ref; Type_ := ["array"]; Items := Some {| soa_Schema := Some item |};
     Format := EmptyString; Description := EmptyString; Properties := []; Required := [];
     Default := None; Enum := []; Example := None; Extensions := [] |}.

Definition plainSchema3 (t : option (list string)) (items : option O.SchemaRef) : O.Schema :=
  {| O.Type_ := t; O.Items := items; O.Description := EmptyString; O.Default := None;
     O.Enum := []; O.Properties := []; O.Required := []; O.Example := None |}.

Definition inline3 (v : O.Schema) : O.SchemaRef := {| O.Ref := EmptyString; O.Value := Some v |}.

(** [{"$ref": "#/components/schemas/Pet"}], resolved by the loader *)
Definition refToPet3 : O.SchemaRef :=
  {| O.Ref := "#/components/schemas/Pet";
     O.Value := Some (plainSchema3 (Some ["object"]) None) |}.

Definition arrayOf3 (items : O.SchemaRef) : O.Schema := plainSchema3 (Some ["array"]) (Some items).

(** [{"$ref": "#/components/schemas/PetList"}], where [PetList] is an array of [Pet] *)
Definition refToPetList3 : O.SchemaRef :=
  {| O.Ref := "#/components/schemas/PetList"; O.Value := Some (arrayOf3 refToPet3) |}.

(** a path item and an operation that both declare the path parameter [id] *)
Definition idParam (description : string) : option O.ParameterRef :=
  Some {| O.prmref_Value :=
            Some {| O.prm_Name := "id"; O.prm_In := "path";
                    O.prm_Description := description; O.prm_Required := true;
                    O.prm_Schema := None |} |}.

Definition opWithId : O.Operation :=
  {| O.op_Tags := []; O.op_Summary := EmptyString; O.op_Description := EmptyString;
     O.op_Parameters := [idParam "of the operation"]; O.op_RequestBody := None;
     O.op_Responses := None |}.

Definition pathItemWithId : O.PathItem :=
  {| O.Get := Some opWithId; O.Post := None; O.Put := None; O.Delete := None;
     O.Patch := None; O.Options := None; O.Head := None; O.Trace := None;
     O.pi_Parameters := [idParam "of the path item"] |}.

(** an OpenAPI 3 operation whose response 200 has, for application/json, an
    inline example and an example named [alt] *)
Definition jsonMedia : O.MediaType :=
  {| O.media_Schema := None;
     O.media_Example := Some (AString "inline");
     O.media_Examples :=
       [("alt", Some {| O.exref_Value := Some {| O.ex_Value := Some (AString "other") |} |})] |}.

Definition okResponse3 : O.Response :=
  {| O.resp_Description := Some "ok";
     O.resp_Content := [("application/json", Some jsonMedia)] |}.

Definition responsesOk3 : O.Responses :=
  {| O.responses_Map := [("200", Some {| O.respref_Value := Some okResponse3 |})] |}.

Definition opExamples3 : O.Operation :=
  {| O.op_Tags := ["a"; "b"]; O.op_Summary := EmptyString; O.op_Description := EmptyString;
     O.op_Parameters := []; O.op_RequestBody := None; O.op_Responses := Some responsesOk3 |}.

Definition onlyGet3 (op : O.Operation) : O.PathItem :=
  {| O.Get := Some op; O.Post := None; O.Put := None; O.Delete := None;
     O.Patch := None; O.Options := None; O.Head := None; O.Trace := None;
     O.pi_Parameters := [] |}.

Definition pathMapAB : gomap (option O.PathItem) := [("/pets", Some (onlyGet3 opExamples3))].

(** a Swagger 2.0 operation with a body parameter that carries an example *)
Definition petSchema : Schema :=
  {| Ref := EmptyString; Type_ := ["object"]; Items := None; Format := EmptyString;
     Description := EmptyString; Properties := []; Required := []; Default := None;
     Enum := []; Example := Some (AString "rex"); Extensions := [] |}.

Definition bodyParam : Parameter_ :=
  {| prm_In := "body"; prm_Name := "pet"; prm_Required := true; prm_Type := EmptyString;
     prm_Schema := Some petSchema; prm_Description := EmptyString; prm_Default := None;
     prm_Enum := [] |}.

Definition opCreate : Operation :=
  {| op_Tags := []; op_Summary := EmptyString; op_Description := EmptyString;
     op_ID := EmptyString; op_Produces := [];
     op_Consumes := ["application/json"; "application/xml"];
     op_Parameters := [bodyParam]; op_Responses := None |}.

Definition opCreateBare : Operation :=
  {| op_Tags := []; op_Summary := EmptyString; op_Description := EmptyString;
     op_ID := EmptyString; op_Produces := []; op_Consumes := [];
     op_Parameters := [bodyParam]; op_Responses := None |}.

(** two security definitions, as one run and as another run of [range] may
    visit them *)
Definition apiKey (name : string) : option SecurityScheme :=
  Some {| sec_Type := "apiKey"; sec_Name := name; sec_In := "header";
          sec_AuthorizationURL := EmptyString; sec_TokenURL := EmptyString;
          sec_Scopes := [] |}.

Definition swaggerAuth (definitions : gomap (option SecurityScheme)) : Swagger :=
  {| sw_Info := None; sw_SecurityDefinitions := definitions; sw_Schemes := [];
     sw_Host := EmptyString; sw_BasePath := EmptyString; sw_Tags := [];
     sw_Paths := Some {| paths_Paths := [] |};
     sw_Definitions := []; sw_Produces := []; sw_Consumes := [] |}.

Definition authAB : gomap (option SecurityScheme) := [("a", apiKey "X-A"); ("b", apiKey "X-B")].
Definition authBA : gomap (option SecurityScheme) := [("b", apiKey "X-B"); ("a", apiKey "X-A")].


(** one OpenAPI 3 document, its three top-level maps in two orders *)
Definition bearer3 : option O.SecuritySchemeRef :=
  Some {| O.secref_Value :=
            Some {| O.sec_Type := "http"; O.sec_Scheme := "bearer";
                    O.sec_Name := EmptyString; O.sec_In := EmptyString |} |}.

Definition key3 : option O.SecuritySchemeRef :=
  Some {| O.secref_Value :=
            Some {| O.sec_Type := "apiKey"; O.sec_Scheme := EmptyString;
                    O.sec_Name := "X-Key"; O.sec_In := "header" |} |}.

Definition docOf (schemes : gomap (option O.SecuritySchemeRef))
    (schemas : gomap (option O.SchemaRef)) (pathMap : gomap (option O.PathItem)) : O.T :=
  {| O.t_OpenAPI := "3.0.0"; O.t_Info := None;
     O.t_Components := Some {| O.comp_SecuritySchemes := schemes; O.comp_Schemas := schemas |};
     O.t_Servers := []; O.t_Tags := [];
     O.t_Paths := Some {| O.paths_Map := pathMap |} |}.

Definition docForward : O.T :=
  docOf [("bearer", bearer3); ("key", key3)]
    [("Pet", Some refToPet3); ("PetList", Some refToPetList3)]
    [("/a", Some (onlyGet3 opExamples3)); ("/b", Some pathItemWithId)].

Definition docBackward : O.T :=
  docOf [("key", key3); ("bearer", bearer3)]
    [("PetList", Some refToPetList3); ("Pet", Some refToPet3)]
    [("/b", Some pathItemWithId); ("/a", Some (onlyGet3 opExamples3))].

(** an OpenAPI 3 document whose only response has a nil media type *)
Definition opNilMedia : O.Operation :=
  {| O.op_Tags := []; O.op_Summary := EmptyString; O.op_Description := EmptyString;
     O.op_Parameters := []; O.op_RequestBody := None;
     O.op_Responses :=
       Some {| O.responses_Map :=
                 [("200", Some {| O.respref_Value :=
                                    Some {| O.resp_Description := None;
                                            O.resp_Content := [("application/json", None)] |} |})] |} |}.

(** one Swagger 2.0 document, its definitions and its paths in two orders *)
Definition swaggerOf (definitions : gomap Schema) (paths : gomap PathItem) : Swagger :=
  {| sw_Info := None; sw_SecurityDefinitions := authAB; sw_Schemes := ["https"];
     sw_Host := "example.org"; sw_BasePath := "/v1"; sw_Tags := [];
     sw_Paths := Some {| paths_Paths := paths |};
     sw_Definitions := definitions; sw_Produces := []; sw_Consumes := [] |}.

Definition swaggerForward : Swagger :=
  swaggerOf [("Pet", petSchema); ("Text", stringSchema)]
    [("/t", onlyGet opNamedUntagged); ("/u", onlyGet opNoTags)].

Definition swaggerBackward : Swagger :=
  swaggerOf [("Text", stringSchema); ("Pet", petSchema)]
    [("/u", onlyGet opNoTags); ("/t", onlyGet opNamedUntagged)].

(** an outside for [main]: the test document on the standard input, in the
    file ping.json and at one URL; every other file is missing, every other
    URL answers 404; writing a file succeeds *)
Definition sampleStdin : string * option string := (textPing, None).

Definition sampleReadFile (path : string) : string * option string :=
  if String.eqb path "ping.json" then (textPing, None)
  else (EmptyString, Some "open: no such file or directory").

Definition sampleGet (url : string) : (Z * (string * option string)) + string :=
  if String.eqb url "http://example.org/ping.json" then inl (200%Z, (textPing, None))
  else inl (404%Z, (EmptyString, None)).

Definition sampleWriteFile (path md : string) : option string := None.

(** a Swagger 2.0 operation whose response 200 carries an example for
    application/json *)
Definition exampleResponse : Response :=
  {| resp_Description := "ok"; resp_Schema := None; resp_Headers := [];
     resp_Examples := [("application/json", Some (AString "rex"))] |}.

Definition opResponseExample : Operation :=
  {| op_Tags := []; op_Summary := EmptyString; op_Description := EmptyString;
     op_ID := EmptyString; op_Produces := []; op_Consumes := []; op_Parameters := [];
     op_Responses :=
       Some {| StatusCodeResponses := [(200%Z, exampleResponse)]; Default_ := None |} |}.

(** an OpenAPI 3 operation whose request body has, for application/json, an
    inline example and an example named [alt] *)
Definition requestBody3 : O.RequestBody :=
  {| O.body_Content := [("application/json", Some jsonMedia)] |}.

Definition opRequestExamples3 : O.Operation :=
  {| O.op_Tags := []; O.op_Summary := EmptyString; O.op_Description := EmptyString;
     O.op_Parameters := [];
     O.op_RequestBody := Some {| O.bodyref_Value := Some requestBody3 |};
     O.op_Responses := None |}.

(** an operation with two body parameters: the schema of the first carries
    no example, the schema of the second does *)
Definition bodyParamPlain : Parameter_ :=
  {| prm_In := "body"; prm_Name := "note"; prm_Required := false; prm_Type := EmptyString;
     prm_Schema := Some stringSchema; prm_Description := EmptyString; prm_Default := None;
     prm_Enum := [] |}.

Definition opTwoBodies : Operation :=
  {| op_Tags := []; op_Summary := EmptyString; op_Description := EmptyString;
     op_ID := EmptyString; op_Produces := []; op_Consumes := ["application/json"];
     op_Parameters := [bodyParamPlain; bodyParam]; op_Responses := None |}.

(** a body parameter behind a query parameter, its example on the items of
    an array, and one whose example is the extension [x-example] *)
Definition queryParam : Parameter_ :=
  {| prm_In := "query"; prm_Name := "limit"; prm_Required := false; prm_Type := "integer";
     prm_Schema := None; prm_Description := EmptyString; prm_Default := None;
     prm_Enum := [] |}.

Definition bodyParamOf (sc : Schema) : Parameter_ :=
  {| prm_In := "body"; prm_Name := "pets"; prm_Required := true; prm_Type := EmptyString;
     prm_Schema := Some sc; prm_Description := EmptyString; prm_Default := None;
     prm_Enum := [] |}.

Definition extensionSchema : Schema :=
  {| Ref := EmptyString; Type_ := ["object"]; Items := None; Format := EmptyString;
     Description := EmptyString; Properties := []; Required := []; Default := None;
     Enum := []; Example := None; Extensions := [("x-example", Some (AString "tom"))] |}.

Definition opWithParams (params : list Parameter_) : Operation :=
  {| op_Tags := []; op_Summary := EmptyString; op_Description := EmptyString;
     op_ID := EmptyString; op_Produces := []; op_Consumes := [];
     op_Parameters := params; op_Responses := None |}.

(** the documents of the operation tagged a and b *)
Definition swaggerAB : Swagger :=
  {| sw_Info := None; sw_SecurityDefinitions := []; sw_Schemes := [];
     sw_Host := EmptyString; sw_BasePath := EmptyString; sw_Tags := [];
     sw_Paths := Some pathsAB;
     sw_Definitions := []; sw_Produces := []; sw_Consumes := [] |}.

Definition opTagged3 (tags : list string) : O.Operation :=
  {| O.op_Tags := tags; O.op_Summary := EmptyString; O.op_Description := EmptyString;
     O.op_Parameters := []; O.op_RequestBody := None; O.op_Responses := None |}.

Definition docAB : O.T :=
  {| O.t_OpenAPI := "3.0.0"; O.t_Info := None;
     O.t_Components := Some {| O.comp_SecuritySchemes := []; O.comp_Schemas := [] |};
     O.t_Servers := []; O.t_Tags := [];
     O.t_Paths := Some {| O.paths_Map := [("/x", Some (onlyGet3 (opTagged3 ["b"; "a"])));
                                          ("/pets", Some (onlyGet3 (opTagged3 [])))] |} |}.

End Renderer.

(** ** The writer monad *)

Lemma bind_Done_inv {A B} (m : M A) (f : A -> M B) (b : B) (out : list Chunk) :
  bind m f = Done b out ->
  exists a o1 o2, m = Done a o1 /\ f a = Done b o2 /\ out = (o1 ++ o2)%list.
Proof.
  unfold bind. destruct m as [a o1|r]; [|discriminate].
  destruct (f a) as [b' o2|r] eqn:E; [|discriminate].
  intros H. inversion H; subst. now exists a, o1, o2.
Qed.

Lemma bind_Done {A B} (m : M A) (f : A -> M B) a o1 b o2 :
  m = Done a o1 -> f a = Done b o2 -> bind m f = Done b (o1 ++ o2)%list.
Proof. intros -> H. unfold bind. now rewrite H. Qed.

Lemma forEach_cons_inv {A} (x : A) l body u out :
  forEach (x :: l) body = Done u out ->
  exists o1 o2, body x = Done tt o1 /\ forEach l body = Done tt o2 /\ out = (o1 ++ o2)%list.
Proof.
  simpl. intros H. apply bind_Done_inv in H as ([] & o1 & o2 & H1 & H2 & ->).
  destruct u. exists o1, o2. repeat split; auto.
Qed.

(** every iteration of a loop that returned has returned, and what it wrote is
    part of what the loop wrote *)
Lemma forEach_In {A} (l : list A) body u out x :
  forEach l body = Done u out -> In x l ->
  exists o, body x = Done tt o /\ incl o out.
Proof.
  destruct u. revert out. induction l as [|y l IH]; intros out H Hin; [easy|].
  apply forEach_cons_inv in H as (o1 & o2 & H1 & H2 & ->).
  destruct Hin as [->|Hin].
  - exists o1. split; auto. apply incl_appl, incl_refl.
  - destruct (IH _ H2 Hin) as (o & Ho & Hi). exists o. split; auto.
    now apply incl_appr.
Qed.

(** a loop whose iterations all return writes the concatenation of what they write *)
Lemma forEach_Done {A} (l : list A) body (w : A -> list Chunk) :
  (forall x, In x l -> body x = Done tt (w x)) ->
  forEach l body = Done tt (flat_map w l).
Proof.
  induction l as [|x l IH]; intros H; [reflexivity|].
  simpl. erewrite bind_Done; [reflexivity| apply H; now left | apply IH].
  intros y Hy. apply H. now right.
Qed.


Lemma silent_ret {A} P (a : A) : silent P (ret a).
Proof. intros ? ? H. inversion H. reflexivity. Qed.

Lemma silent_Panic {A} P r : silent P (@Panic A r).
Proof. intros ? ? H. discriminate. Qed.

Lemma silent_bind {A B} P (m : M A) (f : A -> M B) :
  silent P m -> (forall a, silent P (f a)) -> silent P (bind m f).
Proof.
  intros Hm Hf b out H. apply bind_Done_inv in H as (a & o1 & o2 & H1 & H2 & ->).
  rewrite filter_app, (Hm _ _ H1), (Hf _ _ _ H2). reflexivity.
Qed.

Lemma silent_forEach {A} P (l : list A) body :
  (forall x, silent P (body x)) -> silent P (forEach l body).
Proof.
  intros H. induction l; simpl.
  - apply silent_ret.
  - apply silent_bind; auto.
Qed.

Lemma silent_when P c m : silent P m -> silent P (when c m).
Proof. destruct c; simpl; auto. intros _. apply silent_ret. Qed.

Lemma silent_deref {A} P (p : option A) : silent P (deref p).
Proof. destruct p; [apply silent_ret | apply silent_Panic]. Qed.

Lemma silent_one {A} P (a : A) c : P c = false -> silent P (Done a [c]).
Proof. intros Hc ? ? H. inversion H; subst. simpl. now rewrite Hc. Qed.

Lemma silent_foldM {A S} P (l : list A) (f : S -> A -> M S) acc :
  (forall s x, silent P (f s x)) -> silent P (foldM l f acc).
Proof.
  intros H. revert acc. induction l; intros acc; simpl.
  - apply silent_ret.
  - apply silent_bind; auto.
Qed.

(** ** Sorting and maps *)

Lemma insertBy_perm {A} (le : A -> A -> bool) x l :
  Permutation (insertBy le x l) (x :: l).
Proof.
  induction l as [|y l IH]; simpl; [reflexivity|].
  destruct (le x y); [reflexivity|].
  rewrite IH. apply perm_swap.
Qed.

Lemma sortBy_perm {A} (le : A -> A -> bool) l : Permutation (sortBy le l) l.
Proof.
  induction l as [|x l IH]; simpl; [reflexivity|].
  rewrite insertBy_perm. now apply perm_skip.
Qed.

Lemma sortBy_In {A} (le : A -> A -> bool) l x : In x (sortBy le l) <-> In x l.
Proof.
  split; apply Permutation_in; [|symmetry]; apply sortBy_perm.
Qed.

Lemma sortBy_NoDup {A} (le : A -> A -> bool) l : NoDup l -> NoDup (sortBy le l).
Proof. apply Permutation_NoDup. symmetry. apply sortBy_perm. Qed.

Lemma mapGet_In_keys {V} (m : gomap V) k v : mapGet m k = Some v -> In k (keys m).
Proof.
  induction m as [|[k' v'] m IH]; simpl; [discriminate|].
  destruct (String.eqb_spec k k'); auto.
Qed.

Lemma mapIndex_get {V} (zero : V) m k v : mapGet m k = Some v -> mapIndex zero m k = v.
Proof. unfold mapIndex. now intros ->. Qed.

Arguments mapGet_In_keys {V m k v} _.
Arguments mapIndex_get {V} zero {m k v} _.

(** *** A sorted walk does not depend on the order of [range]

    The idiom of the package, collecting the keys of a map, sorting them and
    looking every key up, visits the same entries in the same order whatever
    order [range] yields the keys in. *)

Lemma string_leb_trans a : forall b c,
  String.leb a b = true -> String.leb b c = true -> String.leb a c = true.
Proof.
  unfold String.leb.
  induction a as [|x a IH]; intros [|y b] [|z c]; simpl; try congruence.
  unfold Ascii.compare.
  specialize (IH b c).
  destruct (N.compare_spec (N_of_ascii x) (N_of_ascii y)) as [Exy|Lxy|Lxy];
    destruct (N.compare_spec (N_of_ascii y) (N_of_ascii z)) as [Eyz|Lyz|Lyz];
    destruct (N.compare_spec (N_of_ascii x) (N_of_ascii z)) as [Exz|Lxz|Lxz];
    try congruence; try lia; auto.
Qed.

Section SortedWalk.

Variable A : Type.
Variable le : A -> A -> bool.
Hypothesis le_total : forall x y, le x y = true \/ le y x = true.
Hypothesis le_trans : forall x y z, le x y = true -> le y z = true -> le x z = true.
Hypothesis le_antisym : forall x y, le x y = true -> le y x = true -> x = y.

Let leP (x y : A) : Prop := le x y = true.

Lemma insertBy_sorted x l : StronglySorted leP l -> StronglySorted leP (insertBy le x l).
Proof.
  induction 1 as [|y l Hs IH Hall]; simpl.
  - repeat constructor.
  - destruct (le x y) eqn:E.
    + constructor; [now constructor|]. constructor; [exact E|].
      eapply Forall_impl; [|exact Hall]. intros z Hz. exact (le_trans _ _ _ E Hz).
    + constructor; [exact IH|].
      assert (Hyx : leP y x) by (destruct (le_total x y); [congruence|assumption]).
      rewrite Forall_forall in *. intros z Hz.
      apply (Permutation_in _ (insertBy_perm le x l)) in Hz.
      destruct Hz as [<-|Hz]; auto.
Qed.

Lemma sortBy_sorted l : StronglySorted leP (sortBy le l).
Proof.
  induction l; simpl; [constructor|]. now apply insertBy_sorted.
Qed.

Lemma sorted_unique l1 : forall l2,
  StronglySorted leP l1 -> StronglySorted leP l2 -> Permutation l1 l2 -> l1 = l2.
Proof.
  induction l1 as [|x l1 IH]; intros l2 H1 H2 Hp.
  - now apply Permutation_nil in Hp.
  - destruct l2 as [|y l2]; [now apply Permutation_sym, Permutation_nil in Hp|].
    inversion H1 as [|? ? S1 F1]; inversion H2 as [|? ? S2 F2]; subst.
    rewrite Forall_forall in F1, F2.
    assert (Hxy : x = y).
    { assert (Hx : In x (y :: l2)) by (eapply Permutation_in; [exact Hp|now left]).
      assert (Hy : In y (x :: l1))
        by (eapply Permutation_in; [symmetry; exact Hp|now left]).
      destruct Hx as [->|Hx]; [reflexivity|].
      destruct Hy as [->|Hy]; [reflexivity|].
      apply le_antisym; [apply F1|apply F2]; assumption. }
    subst y. f_equal. apply IH; auto. eapply Permutation_cons_inv; eauto.
Qed.

Lemma sortBy_canonical l1 l2 : Permutation l1 l2 -> sortBy le l1 = sortBy le l2.
Proof.
  intros Hp. apply sorted_unique; try apply sortBy_sorted.
  rewrite !sortBy_perm. exact Hp.
Qed.

End SortedWalk.

Lemma sort_Strings_canonical l1 l2 : Permutation l1 l2 -> sort_Strings l1 = sort_Strings l2.
Proof.
  apply sortBy_canonical.
  - apply String.leb_total.
  - intros x y z. apply string_leb_trans.
  - apply String.leb_antisym.
Qed.

Lemma mapGet_perm {V} (m m' : gomap V) k :
  Permutation m m' -> NoDup (keys m) -> mapGet m k = mapGet m' k.
Proof.
  induction 1 as [|[k1 v1] m m' Hp IH|[k1 v1] [k2 v2] m|m m1 m2 Hp1 IH1 Hp2 IH2];
    intros Hnd; simpl.
  - reflexivity.
  - inversion Hnd; subst. now rewrite IH.
  - inversion Hnd as [|? ? Hnotin ?]; subst. simpl in Hnotin.
    destruct (String.eqb_spec k k2), (String.eqb_spec k k1); subst; tauto.
  - rewrite IH1 by assumption. apply IH2.
    eapply Permutation_NoDup; [|exact Hnd]. unfold keys. now apply Permutation_map.
Qed.

Lemma forEach_ext {A} (l : list A) (body body' : A -> M unit) :
  (forall x, In x l -> body x = body' x) -> forEach l body = forEach l body'.
Proof.
  induction l as [|x l IH]; intros H; simpl; [reflexivity|].
  rewrite (H x) by now left. rewrite IH; [reflexivity|].
  intros y Hy. apply H. now right.
Qed.

(** the loops [for _, k := range sorted(keys(m)) { body(m[k], k) }] of the two
    adapters write the same for every order of the entries of [m] *)
Lemma sorted_walk_order_independent {V} (zero : V) (m m' : gomap V)
    (body : V -> string -> M unit) :
  Permutation m m' -> NoDup (keys m) ->
  forEach (sort_Strings (keys m)) (fun k => body (mapIndex zero m k) k)
  = forEach (sort_Strings (keys m')) (fun k => body (mapIndex zero m' k) k).
Proof.
  intros Hp Hnd.
  rewrite (sort_Strings_canonical (keys m) (keys m'))
    by (unfold keys; now apply Permutation_map).
  apply forEach_ext. intros k _. unfold mapIndex.
  now rewrite (mapGet_perm m m' k Hp Hnd).
Qed.

(** so does the Authentication section of the OpenAPI 3 adapter, which sorts
    the scheme names *)
Lemma openAPI3_security_order_independent (schemes schemes' : gomap (option O.SecuritySchemeRef)) :
  Permutation schemes schemes' -> NoDup (keys schemes) ->
  forEach (sort_Strings (keys schemes)) (writeOpenAPI3Security schemes)
  = forEach (sort_Strings (keys schemes')) (writeOpenAPI3Security schemes').
Proof.
  intros Hp Hnd.
  exact (sorted_walk_order_independent None schemes schemes'
           (fun v name =>
              match v with
              | None => skip
              | Some ref =>
                  match O.secref_Value ref with
                  | None => skip
                  | Some ss =>
                      Fprintln
                        (let line := "- " ++ name ++ " " ++ emdash ++ " type=" ++ O.sec_Type ss in
                         let line := if isEmpty (O.sec_Scheme ss) then line
                                     else line ++ ", scheme=" ++ O.sec_Scheme ss in
                         let line := if isEmpty (O.sec_Name ss) then line
                                     else line ++ ", name=" ++ O.sec_Name ss in
                         let line := if isEmpty (O.sec_In ss) then line
                                     else line ++ ", in=" ++ O.sec_In ss in
                         line)
                  end
              end) Hp Hnd).
Qed.

Import spec.

(** ** Buckets *)

Lemma mapGet_mapSet {V} (m : gomap V) k v k' :
  mapGet (mapSet m k v) k' = if String.eqb k' k then Some v else mapGet m k'.
Proof.
  induction m as [|[k0 v0] m IH]; simpl.
  - reflexivity.
  - destruct (String.eqb_spec k k0) as [->|Hk]; simpl.
    + destruct (String.eqb_spec k' k0); reflexivity.
    + rewrite IH. destruct (String.eqb_spec k' k0) as [->|]; auto.
      destruct (String.eqb_spec k0 k); congruence.
Qed.

Lemma mapIndex_mapSet {V} (zero : V) m k v k' :
  mapIndex zero (mapSet m k v) k' = if String.eqb k' k then v else mapIndex zero m k'.
Proof. unfold mapIndex. rewrite mapGet_mapSet. now destruct (String.eqb k' k). Qed.

Section GroupingFacts.

Variables (R Oper PI : Type).
Variable tagsOf : Oper -> list string.
Variable opsOf : PI -> list (string * option Oper).
Variable mkRef : string -> string -> PI -> Oper -> R.
Variables refMethod refPath : R -> string.
Hypothesis refMethod_mkRef : forall m p pi op, refMethod (mkRef m p pi op) = m.
Hypothesis refPath_mkRef : forall m p pi op, refPath (mkRef m p pi op) = p.

Variables method path : string.

Let occ : list R -> nat := occurrences refMethod refPath method path.
Local Abbreviation hit := (hit method path).
Local Abbreviation untaggedShare := (untaggedShare tagsOf method path).
Local Abbreviation taggedShare := (taggedShare tagsOf method path).
Local Abbreviation untaggedShares := (untaggedShares tagsOf method path).
Local Abbreviation taggedShares := (taggedShares tagsOf method path).

Lemma occ_app l1 l2 : occ (l1 ++ l2)%list = occ l1 + occ l2.
Proof. unfold occ, occurrences. now rewrite filter_app, length_app. Qed.

Lemma occ_one m p pi op : occ [mkRef m p pi op] = if hit m p then 1 else 0.
Proof.
  unfold occ, occurrences, hit. simpl. rewrite refMethod_mkRef, refPath_mkRef.
  now destruct (_ && _).
Qed.

Lemma appendTagged_counts tags : forall tagged m p pi op t,
  occ (mapIndex [] (appendTagged tagged tags (mkRef m p pi op)) t)
  = occ (mapIndex [] tagged t)
    + (if hit m p then count_occ string_dec tags t else 0).
Proof.
  unfold appendTagged.
  induction tags as [|tag tags IH]; intros tagged m p pi op t; simpl.
  - now destruct (hit m p).
  - rewrite IH, mapIndex_mapSet.
    destruct (String.eqb_spec t tag) as [->|Hne].
    + rewrite occ_app, occ_one. destruct (string_dec tag tag); [|congruence].
      destruct (hit m p); lia.
    + destruct (string_dec tag t); [congruence|]. reflexivity.
Qed.


Lemma addRef_counts acc m p pi op :
  occ (snd (addRef acc (tagsOf op) (mkRef m p pi op))) = occ (snd acc) + untaggedShare m p op
  /\ forall t, occ (mapIndex [] (fst (addRef acc (tagsOf op) (mkRef m p pi op))) t)
               = occ (mapIndex [] (fst acc) t) + taggedShare t m p op.
Proof.
  destruct acc as [tagged untagged]. unfold addRef, untaggedShare, taggedShare.
  destruct (tagsOf op) as [|tag tags] eqn:E; simpl.
  - rewrite occ_app, occ_one, andb_true_r. split; [reflexivity|].
    intros t. destruct (hit m p); lia.
  - rewrite andb_false_r. split; [lia|]. intros t.
    change (fold_left _ tags _) with
      (appendTagged (mapSet tagged tag (mapIndex [] tagged tag ++ [mkRef m p pi op])%list)
         tags (mkRef m p pi op)).
    rewrite appendTagged_counts, mapIndex_mapSet.
    destruct (String.eqb_spec t tag) as [->|Hne].
    + rewrite occ_app, occ_one. destruct (string_dec tag tag); [|congruence].
      destruct (hit m p); lia.
    + destruct (string_dec tag t); [congruence|]. reflexivity.
Qed.


Lemma groupPath_counts_gen p pi ops : forall acc,
  let acc' := fold_left
                (fun acc it =>
                   match snd it with
                   | None => acc
                   | Some op => addRef acc (tagsOf op) (mkRef (fst it) p pi op)
                   end) ops acc in
  occ (snd acc') = occ (snd acc) + untaggedShares p ops
  /\ forall t, occ (mapIndex [] (fst acc') t)
               = occ (mapIndex [] (fst acc) t) + taggedShares t p ops.
Proof.
  induction ops as [|[m [op|]] ops IH]; intros acc; simpl.
  - split; [|intros t]; lia.
  - destruct (IH (addRef acc (tagsOf op) (mkRef m p pi op))) as [IHu IHt].
    destruct (addRef_counts acc m p pi op) as [Hu Ht].
    split; [rewrite IHu, Hu; lia|]. intros t. rewrite IHt, Ht. lia.
  - apply IH.
Qed.

Lemma groupPath_counts acc p pi :
  occ (snd (groupPath tagsOf opsOf mkRef acc p pi))
  = occ (snd acc) + untaggedShares p (opsOf pi)
  /\ forall t, occ (mapIndex [] (fst (groupPath tagsOf opsOf mkRef acc p pi)) t)
               = occ (mapIndex [] (fst acc) t) + taggedShares t p (opsOf pi).
Proof. apply groupPath_counts_gen. Qed.

Lemma shares_other_path p ops :
  p <> path -> untaggedShares p ops = 0 /\ forall t, taggedShares t p ops = 0.
Proof.
  intros Hp.
  assert (Hh : forall m, hit m p = false).
  { intros m. unfold hit. destruct (String.eqb_spec p path); [congruence|].
    apply andb_false_r. }
  induction ops as [|[m [op|]] ops [IHu IHt]]; simpl; auto.
  unfold untaggedShare, taggedShare. rewrite Hh. simpl. split; auto.
Qed.

Lemma shares_of_operation ops op :
  NoDup (map fst ops) -> In (method, Some op) ops ->
  untaggedShares path ops = (if (List.length (tagsOf op) =? 0)%nat then 1 else 0)
  /\ forall t, taggedShares t path ops = count_occ string_dec (tagsOf op) t.
Proof.
  assert (Hmiss : forall ops, ~ In method (map fst ops) ->
            untaggedShares path ops = 0 /\ forall t, taggedShares t path ops = 0).
  { clear ops. induction ops as [|[m [o|]] ops IH]; simpl; intros Hn;
      [auto | | apply IH; tauto].
    assert (Hh : hit m path = false).
    { unfold hit. destruct (String.eqb_spec m method); [subst; tauto|reflexivity]. }
    unfold untaggedShare, taggedShare. rewrite Hh. simpl. apply IH. tauto. }
  induction ops as [|[m o] ops IH]; simpl; intros Hnd Hin; [easy|].
  inversion Hnd as [|? ? Hnotin Hnd']; subst.
  destruct Hin as [Heq|Hin].
  - inversion Heq; subst. destruct (Hmiss ops Hnotin) as [Hu Ht].
    unfold untaggedShare, taggedShare, hit. rewrite !String.eqb_refl. simpl.
    rewrite Hu. split; [destruct (_ =? _)%nat; lia|]. intros t. rewrite Ht. lia.
  - assert (Hm : m <> method).
    { intros ->. apply Hnotin. change method with (fst (method, Some op)).
      now apply in_map. }
    assert (Hh : hit m path = false).
    { unfold hit. destruct (String.eqb_spec m method); [congruence|reflexivity]. }
    destruct (IH Hnd' Hin) as [IHu IHt].
    destruct o as [o|]; simpl; auto.
    unfold untaggedShare, taggedShare. rewrite Hh. simpl. auto.
Qed.

Variable lookup : string -> M PI.

Lemma foldM_group_counts paths : forall acc buckets out,
  NoDup paths ->
  foldM paths (fun acc p => pi <- lookup p ;; ret (groupPath tagsOf opsOf mkRef acc p pi)) acc
  = Done buckets out ->
  (In path paths ->
   forall pi o, lookup path = Done pi o ->
     occ (snd buckets) = occ (snd acc) + untaggedShares path (opsOf pi)
     /\ forall t, occ (mapIndex [] (fst buckets) t)
                  = occ (mapIndex [] (fst acc) t) + taggedShares t path (opsOf pi))
  /\ (~ In path paths ->
      occ (snd buckets) = occ (snd acc)
      /\ forall t, occ (mapIndex [] (fst buckets) t) = occ (mapIndex [] (fst acc) t)).
Proof.
  induction paths as [|p paths IH]; intros acc buckets out Hnd H.
  - simpl in H. inversion H; subst. split; [easy|]. auto.
  - simpl in H. apply bind_Done_inv in H as (acc' & o1 & o2 & H1 & H2 & ->).
    apply bind_Done_inv in H1 as (pi0 & o3 & o4 & Hl & Hr & ->).
    inversion Hr; subst acc'. clear Hr.
    inversion Hnd as [|? ? Hnotin Hnd']; subst.
    destruct (IH _ _ _ Hnd' H2) as [IHin IHout].
    destruct (groupPath_counts acc p pi0) as [Gu Gt].
    split.
    + intros [->|Hin] pi o Hpi.
      * rewrite Hl in Hpi. inversion Hpi; subst.
        destruct (IHout Hnotin) as [Hu Ht]. rewrite Hu, Gu. split; [reflexivity|].
        intros t. now rewrite Ht, Gt.
      * assert (Hp : p <> path) by (intros ->; contradiction).
        destruct (shares_other_path _ (opsOf pi0) Hp) as [Su St].
        destruct (IHin Hin pi o Hpi) as [Hu Ht]. rewrite Hu, Gu, Su.
        split; [lia|]. intros t. rewrite Ht, Gt, St. lia.
    + intros Hn. assert (Hp : p <> path) by (intros ->; apply Hn; now left).
      destruct (shares_other_path _ (opsOf pi0) Hp) as [Su St].
      destruct IHout as [Hu Ht]; [intros Hin; apply Hn; now right|].
      rewrite Hu, Gu, Su. split; [lia|]. intros t. rewrite Ht, Gt, St. lia.
Qed.

(** The buckets count every operation of the document: an operation without
    tags is once in [untagged] and in no bucket of [tagged]; an operation with
    tags is not in [untagged], and in [tagged[t]] as often as [t] occurs in its
    tag list. *)
Lemma groupOps_counts paths tagged untagged out pi o op :
  groupOps tagsOf opsOf mkRef lookup paths = Done (tagged, untagged) out ->
  NoDup paths -> In path paths -> lookup path = Done pi o ->
  NoDup (map fst (opsOf pi)) -> In (method, Some op) (opsOf pi) ->
  occ untagged = (if (List.length (tagsOf op) =? 0)%nat then 1 else 0)
  /\ forall t, occ (mapIndex [] tagged t) = count_occ string_dec (tagsOf op) t.
Proof.
  unfold groupOps. intros H Hnd Hin Hl Hops Hop.
  destruct (foldM_group_counts _ _ _ _ Hnd H) as [Hcount _].
  destruct (Hcount Hin pi o Hl) as [Hu Ht].
  destruct (shares_of_operation _ _ Hops Hop) as [Su St].
  simpl in Hu, Ht. split.
  - rewrite Hu, Su. reflexivity.
  - intros t. rewrite Ht, St. reflexivity.
Qed.

End GroupingFacts.

Lemma NoDup_opsOf2 pi : NoDup (map fst (opsOf2 pi)).
Proof.
  simpl. repeat (constructor; [simpl; intuition discriminate|]). constructor.
Qed.

Lemma NoDup_opsOf3 pi : NoDup (map fst (opsOf3 pi)).
Proof.
  simpl. repeat (constructor; [simpl; intuition discriminate|]). constructor.
Qed.

(** In both adapters, for every operation [method path] of a document whose
    paths were grouped: without tags it is exactly once in the untagged bucket
    and in no tag bucket; with tags it is not in the untagged bucket, and in
    the bucket of tag [t] as often as [t] occurs in its tag list. *)
Lemma operations_in_buckets :
  (forall P tagged untagged out path pi method op,
      swagger2Buckets P = Done (tagged, untagged) out ->
      NoDup (keys (paths_Paths P)) ->
      mapGet (paths_Paths P) path = Some pi ->
      In (method, Some op) (opsOf2 pi) ->
      occurrences Method2 Path2 method path untagged
      = (if (List.length (op_Tags op) =? 0)%nat then 1 else 0)
      /\ forall t, occurrences Method2 Path2 method path (mapIndex [] tagged t)
                   = count_occ string_dec (op_Tags op) t)
  /\
  (forall pathMap tagged untagged out path pi method op,
      openAPI3Buckets pathMap = Done (tagged, untagged) out ->
      NoDup (keys pathMap) ->
      mapGet pathMap path = Some (Some pi) ->
      In (method, Some op) (opsOf3 pi) ->
      occurrences Method3 Path3 method path untagged
      = (if (List.length (O.op_Tags op) =? 0)%nat then 1 else 0)
      /\ forall t, occurrences Method3 Path3 method path (mapIndex [] tagged t)
                   = count_occ string_dec (O.op_Tags op) t).
Proof.
  split.
  - intros P tagged untagged out path pi method op H Hnd Hget Hop.
    unfold swagger2Buckets in H.
    eapply groupOps_counts with (refMethod := Method2) (refPath := Path2)
                                (pi := pi) (o := []);
      [ | | exact H | | | | | exact Hop ].
    + reflexivity.
    + reflexivity.
    + now apply sortBy_NoDup.
    + apply sortBy_In. exact (mapGet_In_keys Hget).
    + simpl. rewrite (mapIndex_get _ Hget). reflexivity.
    + apply NoDup_opsOf2.
  - intros pathMap tagged untagged out path pi method op H Hnd Hget Hop.
    unfold openAPI3Buckets in H.
    eapply groupOps_counts with (refMethod := Method3) (refPath := Path3)
                                (pi := pi) (o := []);
      [ | | exact H | | | | | exact Hop ].
    + reflexivity.
    + reflexivity.
    + now apply sortBy_NoDup.
    + apply sortBy_In. exact (mapGet_In_keys Hget).
    + simpl. rewrite (mapIndex_get _ Hget). reflexivity.
    + apply NoDup_opsOf3.
Qed.

(** ** The schema summarizers *)

Lemma LastIndexSlash_app prefix name :
  LastIndexSlash name = None ->
  LastIndexSlash (prefix ++ "/" ++ name) = Some (String.length prefix).
Proof.
  intros Hn. induction prefix as [|c prefix IH]; simpl.
  - now rewrite Hn.
  - simpl in IH. now rewrite IH.
Qed.

Lemma substring_all s : String.substring 0 (String.length s) s = s.
Proof. induction s; simpl; congruence. Qed.

Lemma substring_app_skip prefix s :
  String.substring (String.length prefix) (String.length s) (prefix ++ s) = s.
Proof. induction prefix; simpl; auto using substring_all. Qed.

Lemma length_append s1 s2 : String.length (s1 ++ s2) = String.length s1 + String.length s2.
Proof. induction s1; simpl; auto. Qed.

Lemma append_assoc (s1 s2 s3 : string) : (s1 ++ s2) ++ s3 = s1 ++ (s2 ++ s3).
Proof. induction s1; simpl; congruence. Qed.

Lemma sliceFrom_app prefix name :
  sliceFrom (String.length prefix + 1) (prefix ++ "/" ++ name) = name.
Proof.
  unfold sliceFrom.
  replace (prefix ++ "/" ++ name) with ((prefix ++ "/") ++ name)
    by (now rewrite append_assoc).
  replace (String.length prefix + 1) with (String.length (prefix ++ "/"))
    by (now rewrite length_append).
  rewrite (length_append (prefix ++ "/") name).
  replace (String.length (prefix ++ "/") + String.length name - String.length (prefix ++ "/"))
    with (String.length name) by lia.
  apply substring_app_skip.
Qed.

Lemma isEmpty_false_length s : isEmpty s = false <-> (0 < String.length s).
Proof. destruct s; simpl; split; intros; try easy; lia. Qed.

(** the name a reference [<prefix>/<name>] points to *)
Lemma refName_named prefix name :
  isEmpty name = false -> LastIndexSlash name = None ->
  refName (prefix ++ "/" ++ name) = name.
Proof.
  intros Hne Hn. unfold refName.
  assert (He : isEmpty (prefix ++ "/" ++ name) = false) by (destruct prefix; reflexivity).
  rewrite He, (LastIndexSlash_app prefix name Hn).
  apply isEmpty_false_length in Hne.
  assert (Hlt : (String.length prefix + 1 <? String.length (prefix ++ "/" ++ name))%nat = true).
  { apply Nat.ltb_lt. rewrite !length_append. simpl. lia. }
  rewrite Hlt. apply sliceFrom_app.
Qed.

Lemma isArrayType_array : isArrayType ["array"] = true.
Proof. reflexivity. Qed.

Lemma nonempty_length {A} (l : list A) : l <> [] -> (0 <? List.length l)%nat = true.
Proof. destruct l; [congruence|reflexivity]. Qed.

(** the array branch of the two summarizers *)
Lemma schemaSummarySwagger2_array (s : Schema) items :
  Ref s = EmptyString -> Type_ s = ["array"] -> Items s = Some items ->
  schemaSummarySwagger2 (Some s)
  = match soa_Schema items with
    | Some it =>
        if negb (isEmpty (Ref it)) && negb (isEmpty (refName (Ref it)))
        then refName (Ref it) ++ "[]"
        else if (0 <? List.length (Type_ it))%nat
             then "array<" ++ Join (Type_ it) "," ++ ">"
             else "array"
    | None => "array"
    end.
Proof. intros Hr Ht Hi. unfold schemaSummarySwagger2. rewrite Hr, Ht, Hi. reflexivity. Qed.

Lemma typeOfSchemaRef_array (ref : O.SchemaRef) v items :
  O.Ref ref = EmptyString -> O.Value ref = Some v ->
  O.Type_ v = Some ["array"] -> O.Items v = Some items ->
  typeOfSchemaRef (Some ref)
  = if negb (isEmpty (O.Ref items)) && negb (isEmpty (refName (O.Ref items)))
    then refName (O.Ref items) ++ "[]"
    else match O.Value items with
         | Some iv =>
             match O.Type_ iv with
             | Some t => if (0 <? List.length t)%nat
                         then "array<" ++ Join t "," ++ ">" else "array"
             | None => "array"
             end
         | None => "array"
         end.
Proof.
  intros Hr Hv Ht Hi. unfold typeOfSchemaRef. rewrite Hr, Hv, Ht, Hi. reflexivity.
Qed.

(** C5, amended.  For a node that is not itself a reference, whose declared
    type is exactly array and that has an items node: both summarizers return
    [Pet[]] when the item is a reference to the definition [Pet], the comma-joined
    item types inside array<...> when the item is not a reference and declares
    types, and the bare token array otherwise. *)
Theorem array_summary :
  (forall (s : Schema) items,
      Ref s = EmptyString -> Type_ s = ["array"] -> Items s = Some items ->
      (forall it prefix name,
          soa_Schema items = Some it -> Ref it = prefix ++ "/" ++ name ->
          isEmpty name = false -> LastIndexSlash name = None ->
          schemaSummarySwagger2 (Some s) = name ++ "[]")
      /\ (forall it,
             soa_Schema items = Some it -> Ref it = EmptyString -> Type_ it <> [] ->
             schemaSummarySwagger2 (Some s) = "array<" ++ Join (Type_ it) "," ++ ">")
      /\ (forall it,
             soa_Schema items = Some it -> Ref it = EmptyString -> Type_ it = [] ->
             schemaSummarySwagger2 (Some s) = "array")
      /\ (soa_Schema items = None -> schemaSummarySwagger2 (Some s) = "array"))
  /\
  (forall (ref : O.SchemaRef) v items,
      O.Ref ref = EmptyString -> O.Value ref = Some v ->
      O.Type_ v = Some ["array"] -> O.Items v = Some items ->
      (forall prefix name,
          O.Ref items = prefix ++ "/" ++ name ->
          isEmpty name = false -> LastIndexSlash name = None ->
          typeOfSchemaRef (Some ref) = name ++ "[]")
      /\ (forall iv t,
             O.Ref items = EmptyString -> O.Value items = Some iv ->
             O.Type_ iv = Some t -> t <> [] ->
             typeOfSchemaRef (Some ref) = "array<" ++ Join t "," ++ ">")
      /\ (O.Ref items = EmptyString ->
          (O.Value items = None
           \/ exists iv, O.Value items = Some iv
                         /\ (O.Type_ iv = None \/ O.Type_ iv = Some [])) ->
          typeOfSchemaRef (Some ref) = "array")).
Proof.
  split.
  - intros s items Hr Ht Hi. rewrite (schemaSummarySwagger2_array s items Hr Ht Hi).
    repeat split.
    + intros it prefix name -> Hit Hne Hn. rewrite Hit, (refName_named prefix name Hne Hn).
      assert (He : isEmpty (prefix ++ "/" ++ name) = false) by (destruct prefix; reflexivity).
      now rewrite He, Hne.
    + intros it -> -> Hty. simpl. now rewrite (nonempty_length _ Hty).
    + intros it -> -> ->. reflexivity.
    + intros ->. reflexivity.
  - intros ref v items Hr Hv Ht Hi. rewrite (typeOfSchemaRef_array ref v items Hr Hv Ht Hi).
    repeat split.
    + intros prefix name Hit Hne Hn. rewrite Hit, (refName_named prefix name Hne Hn).
      assert (He : isEmpty (prefix ++ "/" ++ name) = false) by (destruct prefix; reflexivity).
      now rewrite He, Hne.
    + intros iv t -> -> -> Hty. simpl. now rewrite (nonempty_length _ Hty).
    + intros -> [->|(iv & -> & [->| ->])]; reflexivity.
Qed.

(** ** More on the helpers *)

(** X1.  [contains list v] tells whether [v] is an element of [list]. *)
Theorem contains_In (list : list string) (v : string) :
  contains list v = true <-> In v list.
Proof.
  induction list as [|x rest IH]; simpl.
  - split; [discriminate|tauto].
  - destruct (String.eqb_spec x v) as [->|Hne].
    + split; auto.
    + rewrite IH. split; [auto|]. intros [H|H]; [congruence|exact H].
Qed.

Lemma length_substring s : forall n m,
  n + m <= String.length s -> String.length (String.substring n m s) = m.
Proof.
  induction s as [|c s IH]; intros [|n] [|m] H; simpl in *;
    try reflexivity; try lia; try (rewrite IH; lia); apply IH; lia.
Qed.

Lemma LastIndexSlash_lt s i : LastIndexSlash s = Some i -> i < String.length s.
Proof.
  revert i. induction s as [|c s IH]; simpl; intros i H; [discriminate|].
  destruct (LastIndexSlash s) as [j|].
  - inversion H; subst. specialize (IH j eq_refl). lia.
  - destruct (Ascii.eqb c "/"); inversion H; lia.
Qed.

(** a text with a slash splits at its last slash *)
Lemma LastIndexSlash_split s : forall i,
  LastIndexSlash s = Some i ->
  exists prefix name,
    s = prefix ++ "/" ++ name /\ String.length prefix = i /\ LastIndexSlash name = None.
Proof.
  induction s as [|c s IH]; simpl; intros i H; [discriminate|].
  destruct (LastIndexSlash s) as [j|] eqn:E.
  - inversion H; subst. destruct (IH j eq_refl) as (p & n & -> & Hl & Hn).
    exists (String c p), n. simpl. repeat split; auto.
  - destruct (Ascii.eqb_spec c "/") as [->|]; [|discriminate].
    inversion H; subst. exists EmptyString, s. repeat split; auto.
Qed.

Lemma refName_nonempty ref : isEmpty ref = false -> isEmpty (refName ref) = false.
Proof.
  intros H. unfold refName. rewrite H.
  destruct (LastIndexSlash ref) as [i|] eqn:E; [|exact H].
  destruct (i + 1 <? String.length ref)%nat eqn:L; [|exact H].
  apply Nat.ltb_lt in L. apply isEmpty_false_length. unfold sliceFrom.
  rewrite length_substring; lia.
Qed.

(** X2.  [refName] returns the empty text for the empty reference only: the
    tests [name != ""] that follow its calls never reject a reference that
    is present. *)
Theorem refName_empty_iff (ref : string) :
  refName ref = EmptyString <-> ref = EmptyString.
Proof.
  split.
  - intros H. destruct ref as [|c ref]; [reflexivity|].
    pose proof (refName_nonempty (String c ref) eq_refl) as Hn.
    rewrite H in Hn. discriminate.
  - intros ->. reflexivity.
Qed.

Lemma LastIndexSlash_None_iff s : LastIndexSlash s = None <-> hasSlash s = false.
Proof.
  induction s as [|c s IH]; simpl; [tauto|].
  destruct (LastIndexSlash s) as [i|].
  - split; [discriminate|]. intros H. apply orb_false_iff in H as [_ H].
    apply IH in H. discriminate.
  - destruct (Ascii.eqb c "/"); simpl; [split; discriminate|].
    split; [intros _; now apply IH|reflexivity].
Qed.

(** X3.  [refName] returns the whole reference when it has no slash or ends
    in one, and what follows the last slash otherwise; every reference is of
    one of these three forms. *)
Theorem refName_last_segment :
  (forall ref, hasSlash ref = false -> refName ref = ref)
  /\ (forall prefix, refName (prefix ++ "/") = prefix ++ "/")
  /\ (forall prefix name,
        name <> EmptyString -> hasSlash name = false ->
        refName (prefix ++ "/" ++ name) = name)
  /\ (forall ref,
        hasSlash ref = false
        \/ exists prefix name, ref = prefix ++ "/" ++ name /\ hasSlash name = false).
Proof.
  split; [|split; [|split]].
  - intros ref H. apply LastIndexSlash_None_iff in H. unfold refName. rewrite H.
    now destruct ref.
  - intros prefix. unfold refName.
    assert (He : isEmpty (prefix ++ "/") = false) by (destruct prefix; reflexivity).
    rewrite He. change (prefix ++ "/") with (prefix ++ "/" ++ EmptyString).
    rewrite (LastIndexSlash_app prefix EmptyString eq_refl).
    assert (L : (String.length prefix + 1
                 <? String.length (prefix ++ "/" ++ EmptyString))%nat = false).
    { apply Nat.ltb_ge. rewrite !length_append. simpl. lia. }
    now rewrite L.
  - intros prefix name Hne Hs. apply refName_named.
    + destruct name; [congruence|reflexivity].
    + now apply LastIndexSlash_None_iff.
  - intros ref. destruct (LastIndexSlash ref) as [i|] eqn:E.
    + right. destruct (LastIndexSlash_split ref i E) as (p & n & Hs & _ & Hn).
      exists p, n. split; [exact Hs|]. now apply LastIndexSlash_None_iff.
    + left. now apply LastIndexSlash_None_iff.
Qed.

(** X4.  A node that carries a reference summarizes to the name of the
    reference whatever else it declares: the Swagger 2.0 summarizer returns
    [refName] of the reference, the OpenAPI 3 summarizer the same name behind
    the marker [$ref:]. *)
Theorem reference_summary :
  (forall s : Schema,
      isEmpty (Ref s) = false ->
      schemaSummarySwagger2 (Some s) = refName (Ref s))
  /\ (forall (ref : O.SchemaRef) v,
         isEmpty (O.Ref ref) = false -> O.Value ref = Some v ->
         typeOfSchemaRef (Some ref) = "$ref:" ++ refName (O.Ref ref)).
Proof.
  split.
  - intros s H. unfold schemaSummarySwagger2.
    now rewrite H, (refName_nonempty _ H).
  - intros ref v H Hv. unfold typeOfSchemaRef, refName. rewrite Hv, H. simpl.
    destruct (LastIndexSlash (O.Ref ref)) as [i|]; [|reflexivity].
    now destruct (i + 1 <? String.length (O.Ref ref))%nat.
Qed.

Lemma append_empty_r (s : string) : s ++ EmptyString = s.
Proof. induction s; simpl; congruence. Qed.

(** X5.  [hostURL] is empty exactly when the host is empty; otherwise it is
    the first scheme, [http] when no scheme is listed, followed by [://], the
    host and the base path. *)
Theorem hostURL_shape (schemes : list string) (host basePath : string) :
  (hostURL schemes host basePath = EmptyString <-> host = EmptyString)
  /\ (isEmpty host = false ->
      hostURL schemes host basePath = hd "http" schemes ++ "://" ++ host ++ basePath).
Proof.
  unfold hostURL. split.
  - destruct host as [|c host]; simpl; [tauto|].
    split; [|discriminate].
    destruct basePath; simpl; intros H.
    + destruct schemes as [|x l]; simpl in H; [discriminate|].
      destruct x; simpl in H; discriminate.
    + destruct schemes as [|x l]; simpl in H; [discriminate|].
      destruct x; simpl in H; discriminate.
  - intros ->. destruct basePath as [|c basePath]; simpl.
    + rewrite append_empty_r. now destruct schemes.
    + now destruct schemes.
Qed.

(** ** The members of the buckets *)

Lemma mapIndex_In_keys {V} (m : gomap (list V)) k x :
  In x (mapIndex [] m k) -> In k (keys m).
Proof.
  unfold mapIndex. destruct (mapGet m k) as [v|] eqn:E; [|intros []].
  intros _. exact (mapGet_In_keys E).
Qed.

Section GroupingMembers.

Variables (R Oper PI : Type).
Variable tagsOf : Oper -> list string.
Variable opsOf : PI -> list (string * option Oper).
Variable mkRef : string -> string -> PI -> Oper -> R.
Variable lookup : string -> M PI.

Lemma appendTagged_members tags : forall tagged (ref r : R) t,
  In r (mapIndex [] (appendTagged tagged tags ref) t)
  <-> In r (mapIndex [] tagged t) \/ (r = ref /\ In t tags).
Proof.
  unfold appendTagged.
  induction tags as [|tag tags IH]; intros tagged ref r t; simpl.
  - tauto.
  - rewrite IH, mapIndex_mapSet.
    destruct (String.eqb_spec t tag) as [->|Hne].
    + rewrite in_app_iff. simpl. intuition (subst; auto).
    + intuition (subst; try congruence; auto).
Qed.

Lemma addRef_members acc tags (ref r : R) :
  inBuckets (addRef acc tags ref) r <-> inBuckets acc r \/ r = ref.
Proof.
  destruct acc as [tagged untagged]. unfold addRef, inBuckets.
  destruct tags as [|tag tags].
  - simpl. rewrite in_app_iff. simpl. intuition (subst; auto).
  - cbn [List.length Nat.eqb fst snd]. split.
    + intros [H|[t H]]; [auto|].
      apply appendTagged_members in H as [H|[H _]]; eauto.
    + intros [[H|[t H]]|H]; [auto| |].
      * right. exists t. apply appendTagged_members. auto.
      * right. exists tag. apply appendTagged_members. right. split; [exact H|now left].
Qed.

Lemma groupPath_members_gen p pi ops : forall acc (r : R),
  inBuckets
    (fold_left
       (fun acc it =>
          match snd it with
          | None => acc
          | Some op => addRef acc (tagsOf op) (mkRef (fst it) p pi op)
          end) ops acc) r
  <-> inBuckets acc r \/ exists m op, In (m, Some op) ops /\ r = mkRef m p pi op.
Proof.
  induction ops as [|[m [op|]] ops IH]; intros acc r; simpl.
  - split; [auto|]. intros [H|(m & op & [] & _)]. exact H.
  - rewrite IH, addRef_members. split.
    + intros [[H|H]|(m' & op' & Hin & E)]; [auto| |].
      * right. exists m, op. auto.
      * right. exists m', op'. auto.
    + intros [H|(m' & op' & [E'|Hin] & E)]; [auto| |].
      * inversion E'; subst. auto.
      * right. exists m', op'. auto.
  - rewrite IH. split.
    + intros [H|(m' & op' & Hin & E)]; [auto|]. right. exists m', op'. auto.
    + intros [H|(m' & op' & [E'|Hin] & E)]; [auto|discriminate|].
      right. exists m', op'. auto.
Qed.

Lemma foldM_group_members paths : forall acc buckets out,
  foldM paths (fun acc p => pi <- lookup p ;; ret (groupPath tagsOf opsOf mkRef acc p pi)) acc
  = Done buckets out ->
  forall r : R,
    inBuckets buckets r
    <-> inBuckets acc r
        \/ exists p pi o m op,
             In p paths /\ lookup p = Done pi o /\ In (m, Some op) (opsOf pi)
             /\ r = mkRef m p pi op.
Proof.
  induction paths as [|p paths IH]; intros acc buckets out H r.
  - simpl in H. inversion H; subst. split; [auto|].
    intros [Hr|(p & pi & o & m & op & [] & _)]. exact Hr.
  - simpl in H. apply bind_Done_inv in H as (acc' & o1 & o2 & H1 & H2 & ->).
    apply bind_Done_inv in H1 as (pi0 & o3 & o4 & Hl & Hr & ->).
    inversion Hr; subst acc'. clear Hr.
    rewrite (IH _ _ _ H2). unfold groupPath. rewrite groupPath_members_gen. split.
    + intros [[Hacc|(m & op & Hin & E)]|(p' & pi & o & m & op & Hp & Hlk & Hin & E)].
      * auto.
      * right. exists p, pi0, o3, m, op. simpl. auto.
      * right. exists p', pi, o, m, op. simpl. auto.
    + intros [Hacc|(p' & pi & o & m & op & [<-|Hp] & Hlk & Hin & E)].
      * auto.
      * rewrite Hl in Hlk. inversion Hlk; subst. left. right. exists m, op. auto.
      * right. exists p', pi, o, m, op. auto.
Qed.

(** the buckets hold the references of the operations of the walked paths,
    and nothing else *)
Lemma groupOps_members paths buckets out :
  groupOps tagsOf opsOf mkRef lookup paths = Done buckets out ->
  forall r : R,
    inBuckets buckets r
    <-> exists p pi o m op,
          In p paths /\ lookup p = Done pi o /\ In (m, Some op) (opsOf pi)
          /\ r = mkRef m p pi op.
Proof.
  unfold groupOps. intros H r. rewrite (foldM_group_members _ _ _ _ H).
  unfold inBuckets. simpl. split.
  - intros [[[]|[t []]]|Hex]. exact Hex.
  - auto.
Qed.

(** grouping panics exactly when the lookup of one of the paths does *)
Lemma foldM_group_returns paths : forall acc,
  (exists buckets out,
     foldM paths (fun acc p => pi <- lookup p ;; ret (groupPath tagsOf opsOf mkRef acc p pi)) acc
     = Done buckets out)
  <-> forall p, In p paths -> exists pi o, lookup p = Done pi o.
Proof.
  induction paths as [|p paths IH]; intros acc; simpl.
  - split; [intros _ p []|]. intros _. now exists acc, [].
  - split.
    + intros (buckets & out & H).
      apply bind_Done_inv in H as (acc' & o1 & o2 & H1 & H2 & _).
      apply bind_Done_inv in H1 as (pi0 & o3 & o4 & Hl & _).
      intros q [<-|Hq]; [now exists pi0, o3|].
      assert (Hex : exists buckets out,
                 foldM paths
                   (fun acc p => pi <- lookup p ;; ret (groupPath tagsOf opsOf mkRef acc p pi))
                   acc' = Done buckets out) by eauto.
      exact (proj1 (IH acc') Hex q Hq).
    + intros H. destruct (H p (or_introl eq_refl)) as (pi0 & o & Hl).
      destruct (proj2 (IH (groupPath tagsOf opsOf mkRef acc p pi0))) as (buckets & out & Hf);
        [intros q Hq; apply H; now right|].
      exists buckets, ((o ++ []) ++ out)%list.
      apply bind_Done with (a := groupPath tagsOf opsOf mkRef acc p pi0); [|exact Hf].
      apply bind_Done with (a := pi0); [exact Hl|reflexivity].
Qed.

End GroupingMembers.

(** ** The buckets, entry by entry *)

Lemma In_keys_mapGet {V} (m : gomap V) k : In k (keys m) <-> exists v, mapGet m k = Some v.
Proof.
  split.
  - induction m as [|[k0 v0] m IH]; simpl; [intros []|].
    intros [<-|Hin].
    + exists v0. now rewrite String.eqb_refl.
    + destruct (String.eqb k k0); eauto.
  - intros [v H]. exact (mapGet_In_keys H).
Qed.

Section GroupingOrder.

Variables (R Oper PI : Type).
Variable tagsOf : Oper -> list string.
Variable opsOf : PI -> list (string * option Oper).
Variable mkRef : string -> string -> PI -> Oper -> R.
Variable lookup : string -> M PI.
Variable refTags : R -> list string.
Hypothesis refTags_mkRef : forall m p pi op, refTags (mkRef m p pi op) = tagsOf op.
Variable find : string -> option PI.
Hypothesis lookup_find : forall p pi o, lookup p = Done pi o -> find p = Some pi.

Let noTags (r : R) : bool := (List.length (refTags r) =? 0)%nat.
Let copies (t : string) (refs : list R) : list R :=
  flat_map (fun r => repeat r (count_occ string_dec (refTags r) t)) refs.

(** [acc] holds the references [refs], in that order *)
Let holds (acc : gomap (list R) * list R) (refs : list R) : Prop :=
  snd acc = filter noTags refs
  /\ (forall t, mapIndex [] (fst acc) t = copies t refs)
  /\ (forall t l, mapGet (fst acc) t = Some l -> l <> []).

Lemma appendTagged_exact tags : forall tagged (ref : R) t,
  mapIndex [] (appendTagged tagged tags ref) t
  = (mapIndex [] tagged t ++ repeat ref (count_occ string_dec tags t))%list.
Proof.
  unfold appendTagged.
  induction tags as [|tag tags IH]; intros tagged ref t; simpl.
  - now rewrite app_nil_r.
  - rewrite IH, mapIndex_mapSet.
    destruct (String.eqb_spec t tag) as [->|Hne].
    + destruct (string_dec tag tag); [|congruence].
      simpl. now rewrite <- app_assoc.
    + destruct (string_dec tag t); [congruence|]. reflexivity.
Qed.

Lemma appendTagged_nonempty tags : forall tagged (ref : R),
  (forall t l, mapGet tagged t = Some l -> l <> []) ->
  forall t l, mapGet (appendTagged tagged tags ref) t = Some l -> l <> [].
Proof.
  unfold appendTagged.
  induction tags as [|tag tags IH]; intros tagged ref H t l; simpl.
  - apply H.
  - apply IH. intros t' l'. rewrite mapGet_mapSet.
    destruct (String.eqb t' tag).
    + intros E. inversion E. now destruct (mapIndex [] tagged tag).
    + apply H.
Qed.

Lemma addRef_holds acc refs m p pi op :
  holds acc refs ->
  holds (addRef acc (tagsOf op) (mkRef m p pi op)) (refs ++ [mkRef m p pi op])%list.
Proof.
  destruct acc as [tagged untagged]. unfold holds, addRef, copies. simpl.
  intros (Hu & Ht & Hne).
  rewrite filter_app. simpl. unfold noTags at 2. rewrite refTags_mkRef.
  destruct (tagsOf op) as [|tag tags] eqn:E.
  - simpl. split; [now rewrite Hu|]. split; [|exact Hne].
    intros t. rewrite flat_map_app. simpl. rewrite refTags_mkRef, E. simpl.
    now rewrite app_nil_r.
  - cbn [List.length Nat.eqb fst snd]. split; [now rewrite app_nil_r|]. split.
    + intros t. rewrite appendTagged_exact, Ht, flat_map_app. simpl.
      now rewrite refTags_mkRef, E, app_nil_r.
    + now apply appendTagged_nonempty.
Qed.

Lemma groupPath_holds_gen p pi ops : forall acc refs,
  holds acc refs ->
  holds
    (fold_left
       (fun acc it =>
          match snd it with
          | None => acc
          | Some op => addRef acc (tagsOf op) (mkRef (fst it) p pi op)
          end) ops acc)
    (refs
     ++ flat_map
          (fun it => match snd it with Some op => [mkRef (fst it) p pi op] | None => [] end)
          ops)%list.
Proof.
  induction ops as [|[m [op|]] ops IH]; intros acc refs H; simpl.
  - now rewrite app_nil_r.
  - change (mkRef m p pi op :: ?l) with ([mkRef m p pi op] ++ l)%list.
    rewrite app_assoc. apply IH. now apply addRef_holds.
  - now apply IH.
Qed.

Lemma foldM_group_holds paths : forall acc refs buckets out,
  holds acc refs ->
  foldM paths (fun acc p => pi <- lookup p ;; ret (groupPath tagsOf opsOf mkRef acc p pi)) acc
  = Done buckets out ->
  holds buckets
    (refs
     ++ flat_map
          (fun p => match find p with Some pi => pathRefs opsOf mkRef p pi | None => [] end)
          paths)%list.
Proof.
  induction paths as [|p paths IH]; intros acc refs buckets out Hacc H.
  - simpl in H. inversion H; subst. simpl. now rewrite app_nil_r.
  - simpl in H. apply bind_Done_inv in H as (acc' & o1 & o2 & H1 & H2 & ->).
    apply bind_Done_inv in H1 as (pi0 & o3 & o4 & Hl & Hr & ->).
    inversion Hr; subst acc'. clear Hr.
    simpl. rewrite (lookup_find _ _ _ Hl), app_assoc.
    apply (IH _ _ _ _ (groupPath_holds_gen p pi0 (opsOf pi0) acc refs Hacc) H2).
Qed.

(** The two loops leave in [untagged] the operations without tags and in
    [tagged[t]] every operation as often as it lists [t], both in the order
    of the walk; [tagged] has a key for a tag exactly when an operation lists
    it. *)
Lemma groupOps_exact paths tagged untagged out :
  groupOps tagsOf opsOf mkRef lookup paths = Done (tagged, untagged) out ->
  let refs :=
    flat_map
      (fun p => match find p with Some pi => pathRefs opsOf mkRef p pi | None => [] end)
      paths in
  untagged = filter (fun r => (List.length (refTags r) =? 0)%nat) refs
  /\ (forall t,
        mapIndex [] tagged t
        = flat_map (fun r => repeat r (count_occ string_dec (refTags r) t)) refs)
  /\ (forall t, In t (keys tagged) <-> exists r, In r refs /\ In t (refTags r)).
Proof.
  intros H refs. unfold groupOps in H.
  assert (H0 : holds ([], []) []).
  { unfold holds. simpl. repeat split; auto. discriminate. }
  destruct (foldM_group_holds _ _ _ _ _ H0 H) as (Hu & Ht & Hne).
  simpl in Hu, Ht, Hne. unfold copies, noTags in Hu, Ht. fold refs in Hu, Ht.
  split; [exact Hu|]. split; [exact Ht|].
  intros t. rewrite In_keys_mapGet. split.
  - intros [l Hl].
    assert (Hl' : mapIndex [] tagged t = l) by (unfold mapIndex; now rewrite Hl).
    rewrite Ht in Hl'. pose proof (Hne t l Hl) as Hnil.
    destruct l as [|x l]; [congruence|].
    assert (Hx : In x (flat_map (fun r => repeat r (count_occ string_dec (refTags r) t)) refs))
      by (rewrite Hl'; now left).
    apply in_flat_map in Hx as (r & Hr & Hx).
    exists r. split; [exact Hr|].
    destruct (count_occ string_dec (refTags r) t) eqn:Ec; [destruct Hx|].
    apply (count_occ_In string_dec). lia.
  - intros (r & Hr & Hin).
    destruct (mapGet tagged t) as [l|] eqn:E; [now exists l|].
    exfalso. specialize (Ht t). unfold mapIndex in Ht. rewrite E in Ht.
    apply (count_occ_In string_dec) in Hin.
    assert (Hx : In r (flat_map (fun r => repeat r (count_occ string_dec (refTags r) t)) refs)).
    { apply in_flat_map. exists r. split; [exact Hr|].
      destruct (count_occ string_dec (refTags r) t); [lia|now left]. }
    rewrite <- Ht in Hx. destruct Hx.
Qed.

End GroupingOrder.

Lemma swagger2Buckets_exact P tagged untagged out :
  swagger2Buckets P = Done (tagged, untagged) out ->
  untagged = filter (fun r => (List.length (op_Tags (Op2 r)) =? 0)%nat) (operations2 P)
  /\ (forall t,
        mapIndex [] tagged t
        = flat_map (fun r => repeat r (count_occ string_dec (op_Tags (Op2 r)) t))
            (operations2 P))
  /\ (forall t, In t (keys tagged)
                <-> exists r, In r (operations2 P) /\ In t (op_Tags (Op2 r))).
Proof.
  intros H. unfold swagger2Buckets in H.
  refine (groupOps_exact _ _ _ _ _ _ _ (fun r => op_Tags (Op2 r)) _
            (fun p => Some (mapIndex zeroPathItem (paths_Paths P) p)) _ _ _ _ _ H).
  - reflexivity.
  - intros p pi o E. inversion E. reflexivity.
Qed.

Lemma openAPI3Buckets_exact pathMap tagged untagged out :
  openAPI3Buckets pathMap = Done (tagged, untagged) out ->
  untagged = filter (fun r => (List.length (O.op_Tags (Op3 r)) =? 0)%nat)
               (operations3 pathMap)
  /\ (forall t,
        mapIndex [] tagged t
        = flat_map (fun r => repeat r (count_occ string_dec (O.op_Tags (Op3 r)) t))
            (operations3 pathMap))
  /\ (forall t, In t (keys tagged)
                <-> exists r, In r (operations3 pathMap) /\ In t (O.op_Tags (Op3 r))).
Proof.
  intros H. unfold openAPI3Buckets in H.
  refine (groupOps_exact _ _ _ _ _ _ _ (fun r => O.op_Tags (Op3 r)) _
            (fun p => mapIndex None pathMap p) _ _ _ _ _ H).
  - reflexivity.
  - intros p pi o E. destruct (mapIndex None pathMap p); [|discriminate].
    now inversion E.
Qed.

(** X11.  Both adapters group the operations in the order of the walk, the
    paths ascending and the methods of a path in the order of the adapter's
    table (GET, POST, PUT, DELETE, PATCH, OPTIONS, HEAD, and TRACE in the
    OpenAPI 3 adapter): the untagged bucket is the list of the
    operations without tags, the bucket of a tag lists every operation as
    often as it names the tag, and a tag has a bucket exactly when an
    operation names it. *)
Theorem buckets_in_walk_order :
  (forall P tagged untagged out,
      swagger2Buckets P = Done (tagged, untagged) out ->
      untagged = filter (fun r => (List.length (op_Tags (Op2 r)) =? 0)%nat) (operations2 P)
      /\ (forall t,
            mapIndex [] tagged t
            = flat_map (fun r => repeat r (count_occ string_dec (op_Tags (Op2 r)) t))
                (operations2 P))
      /\ (forall t, In t (keys tagged)
                    <-> exists r, In r (operations2 P) /\ In t (op_Tags (Op2 r))))
  /\
  (forall pathMap tagged untagged out,
      openAPI3Buckets pathMap = Done (tagged, untagged) out ->
      untagged = filter (fun r => (List.length (O.op_Tags (Op3 r)) =? 0)%nat)
                   (operations3 pathMap)
      /\ (forall t,
            mapIndex [] tagged t
            = flat_map (fun r => repeat r (count_occ string_dec (O.op_Tags (Op3 r)) t))
                (operations3 pathMap))
      /\ (forall t, In t (keys tagged)
                    <-> exists r, In r (operations3 pathMap) /\ In t (O.op_Tags (Op3 r)))).
Proof.
  split.
  - intros P tagged untagged out H. unfold swagger2Buckets in H.
    refine (groupOps_exact _ _ _ _ _ _ _ (fun r => op_Tags (Op2 r)) _
              (fun p => Some (mapIndex zeroPathItem (paths_Paths P) p)) _ _ _ _ _ H).
    + reflexivity.
    + intros p pi o E. inversion E. reflexivity.
  - intros pathMap tagged untagged out H. unfold openAPI3Buckets in H.
    refine (groupOps_exact _ _ _ _ _ _ _ (fun r => O.op_Tags (Op3 r)) _
              (fun p => mapIndex None pathMap p) _ _ _ _ _ H).
    + reflexivity.
    + intros p pi o E. destruct (mapIndex None pathMap p); [|discriminate].
      now inversion E.
Qed.

(** ** The keys of the tag buckets *)

Lemma mapSet_keys_In {V} (m : gomap V) k v k' :
  In k' (keys (mapSet m k v)) <-> In k' (keys m) \/ k' = k.
Proof.
  induction m as [|[k0 v0] m IH]; simpl.
  - intuition.
  - destruct (String.eqb_spec k k0) as [->|Hne]; simpl.
    + intuition.
    + rewrite IH. intuition.
Qed.

Lemma mapSet_NoDup {V} (m : gomap V) k v : NoDup (keys m) -> NoDup (keys (mapSet m k v)).
Proof.
  induction m as [|[k0 v0] m IH]; simpl; intros H.
  - repeat constructor. intros [].
  - inversion H as [|? ? Hnotin Hnd]; subst.
    destruct (String.eqb_spec k k0) as [->|Hne]; simpl.
    + now constructor.
    + constructor; [|now apply IH].
      intros Hin. apply mapSet_keys_In in Hin as [Hin|Heq]; [contradiction|congruence].
Qed.

Section GroupingKeys.

Variables (R Oper PI : Type).
Variable tagsOf : Oper -> list string.
Variable opsOf : PI -> list (string * option Oper).
Variable mkRef : string -> string -> PI -> Oper -> R.
Variable lookup : string -> M PI.

Lemma appendTagged_NoDup tags : forall tagged (ref : R),
  NoDup (keys tagged) -> NoDup (keys (appendTagged tagged tags ref)).
Proof.
  unfold appendTagged. induction tags as [|tag tags IH]; intros tagged ref H; simpl.
  - exact H.
  - apply IH. now apply mapSet_NoDup.
Qed.

Lemma addRef_NoDup acc tags (ref : R) :
  NoDup (keys (fst acc)) -> NoDup (keys (fst (addRef acc tags ref))).
Proof.
  destruct acc as [tagged untagged]. unfold addRef.
  destruct (List.length tags =? 0)%nat; simpl; [auto|]. apply appendTagged_NoDup.
Qed.

Lemma groupPath_NoDup acc p pi :
  NoDup (keys (fst acc)) -> NoDup (keys (fst (groupPath tagsOf opsOf mkRef acc p pi))).
Proof.
  unfold groupPath. generalize (opsOf pi) as ops. intros ops. revert acc.
  induction ops as [|[m [op|]] ops IH]; intros acc H; simpl.
  - exact H.
  - apply IH. now apply addRef_NoDup.
  - now apply IH.
Qed.

(** the tag buckets have one key per tag, and the lookups alone write *)
Lemma foldM_group_keys paths : forall acc buckets out,
  foldM paths (fun acc p => pi <- lookup p ;; ret (groupPath tagsOf opsOf mkRef acc p pi)) acc
  = Done buckets out ->
  (NoDup (keys (fst acc)) -> NoDup (keys (fst buckets)))
  /\ ((forall p pi o, lookup p = Done pi o -> o = []) -> out = []).
Proof.
  induction paths as [|p paths IH]; intros acc buckets out H.
  - simpl in H. inversion H; subst. auto.
  - simpl in H. apply bind_Done_inv in H as (acc' & o1 & o2 & H1 & H2 & ->).
    apply bind_Done_inv in H1 as (pi0 & o3 & o4 & Hl & Hr & ->).
    inversion Hr; subst acc' o4. clear Hr.
    destruct (IH _ _ _ H2) as [IHk IHo]. split.
    + intros Hnd. apply IHk. now apply groupPath_NoDup.
    + intros Hq. rewrite (Hq _ _ _ Hl), (IHo Hq). reflexivity.
Qed.

Lemma groupOps_keys paths tagged untagged out :
  groupOps tagsOf opsOf mkRef lookup paths = Done (tagged, untagged) out ->
  NoDup (keys tagged) /\ ((forall p pi o, lookup p = Done pi o -> o = []) -> out = []).
Proof.
  unfold groupOps. intros H. destruct (foldM_group_keys _ _ _ _ H) as [Hk Ho].
  split; [apply Hk; constructor|exact Ho].
Qed.

End GroupingKeys.

(** the sorted keys of the tag buckets are the tags in use, ascending *)
Lemma tag_names_of_keys {R} (refTags : R -> list string) (refs : list R) (names : list string) :
  NoDup names ->
  (forall t, In t names <-> exists r, In r refs /\ In t (refTags r)) ->
  sort_Strings names = tagNames refTags refs.
Proof.
  intros Hnd Hin. unfold tagNames. apply sort_Strings_canonical.
  apply NoDup_Permutation; [exact Hnd|apply NoDup_nodup|].
  intros t. rewrite nodup_In, in_flat_map. apply Hin.
Qed.

(** ** Properties of the two walks

    They hold for every behaviour of [fmt] and of [strings.TrimSpace]. *)

Section Properties.

Variable Sprint : Any -> string.
Variable TrimSpace : string -> string.

Import spec.

Local Abbreviation sprintV := (sprintV Sprint).
Local Abbreviation defaultAsString := (defaultAsString Sprint).
Local Abbreviation enumAsString := (enumAsString Sprint).
Local Abbreviation swagger2ParamLine := (swagger2ParamLine Sprint TrimSpace).
Local Abbreviation swagger2ResponseLine := (swagger2ResponseLine TrimSpace).
Local Abbreviation writeSwagger2StatusResponse := (writeSwagger2StatusResponse TrimSpace).
Local Abbreviation writeSwagger2Operation := (writeSwagger2Operation Sprint TrimSpace).
Local Abbreviation swagger2PropertyLine := (swagger2PropertyLine Sprint TrimSpace).
Local Abbreviation writeSwagger2Definition := (writeSwagger2Definition Sprint TrimSpace).
Local Abbreviation writeSwagger2Refs := (writeSwagger2Refs Sprint TrimSpace).
Local Abbreviation swagger2Render := (swagger2Render Sprint TrimSpace).
Local Abbreviation openAPI3ParamLine := (openAPI3ParamLine Sprint TrimSpace).
Local Abbreviation writeOpenAPI3Param := (writeOpenAPI3Param Sprint TrimSpace).
Local Abbreviation writeOpenAPI3Response := (writeOpenAPI3Response TrimSpace).
Local Abbreviation writeOpenAPI3Operation := (writeOpenAPI3Operation Sprint TrimSpace).
Local Abbreviation writeOpenAPI3Property := (writeOpenAPI3Property Sprint TrimSpace).
Local Abbreviation writeOpenAPI3Schema := (writeOpenAPI3Schema Sprint TrimSpace).
Local Abbreviation writeOpenAPI3Refs := (writeOpenAPI3Refs Sprint TrimSpace).
Local Abbreviation openAPI3Render := (openAPI3Render Sprint TrimSpace).
Local Abbreviation paramChunk := (paramChunk Sprint TrimSpace).
Local Abbreviation paramChunks := (paramChunks Sprint TrimSpace).

(** C6, amended.  The summarizers are functions: they return a text for every
    node, the absent one included.  For a node that is not a reference and
    declares no type, the OpenAPI 3 summarizer returns object; the Swagger 2.0
    summarizer returns the empty text, which the property listing prints as
    the placeholder [-] and which adds nothing to a response line. *)
Theorem untyped_summary :
  (forall (s : Schema),
      Ref s = EmptyString -> Type_ s = [] ->
      schemaSummarySwagger2 (Some s) = EmptyString
      /\ nonEmpty (schemaSummarySwagger2 (Some s)) "-" = "-"
      /\ forall code desc,
           swagger2ResponseLine code desc (Some s) = swagger2ResponseLine code desc None)
  /\ schemaSummarySwagger2 None = EmptyString
  /\ (forall (ref : O.SchemaRef) v,
         O.Ref ref = EmptyString -> O.Value ref = Some v ->
         O.Type_ v = None \/ O.Type_ v = Some [] ->
         typeOfSchemaRef (Some ref) = "object")
  /\ typeOfSchemaRef None = "-"
  /\ (forall ref : O.SchemaRef, O.Value ref = None -> typeOfSchemaRef (Some ref) = "-").
Proof.
  repeat split.
  - unfold schemaSummarySwagger2. rewrite H, H0. reflexivity.
  - unfold schemaSummarySwagger2. rewrite H, H0. reflexivity.
  - intros code desc. unfold swagger2ResponseLine, schemaSummarySwagger2.
    rewrite H, H0. reflexivity.
  - intros ref v Hr Hv Ht. unfold typeOfSchemaRef. rewrite Hr, Hv.
    destruct Ht as [-> | ->]; reflexivity.
  - intros ref Hv. unfold typeOfSchemaRef. now rewrite Hv.
Qed.


(** ** Example labels of the OpenAPI 3 operation writer *)

Lemma bind_tail {A B} (m : M A) (k : M B) b out :
  (m ;; k) = Done b out -> exists o, k = Done b o /\ incl o out.
Proof.
  intros H. apply bind_Done_inv in H as (a & o1 & o2 & _ & H2 & ->).
  exists o2. split; auto. apply incl_appr, incl_refl.
Qed.

Lemma when_true m : when true m = m.
Proof. reflexivity. Qed.

Lemma bind_ret {A B} (a : A) (f : A -> M B) : bind (ret a) f = f a.
Proof. unfold bind, ret. destruct (f a); reflexivity. Qed.

Lemma mapGet_nonempty {V} (m : gomap V) k v :
  mapGet m k = Some v -> (0 <? List.length m)%nat = true.
Proof. destruct m; [discriminate|reflexivity]. Qed.

Arguments mapGet_nonempty {V m k v} _.
Arguments forEach_In {A l body u out} x _ _.

Lemma writeMediaExamples_fences anon named mt media out :
  writeMediaExamples anon named mt media = Done tt out ->
  (forall v, O.media_Example media = Some v -> In (Fence anon mt (Some v)) out)
  /\ (forall name exRef v,
         mapGet (O.media_Examples media) name = Some exRef ->
         exampleValue exRef = Some v ->
         In (Fence (named name) mt (Some v)) out).
Proof.
  unfold writeMediaExamples. intros H.
  apply bind_Done_inv in H as ([] & o1 & o2 & H1 & H2 & ->). split.
  - intros v Hv. rewrite Hv in H1. inversion H1; subst. now left.
  - intros name exRef v Hget Hval. apply in_or_app. right.
    rewrite (mapGet_nonempty Hget), when_true in H2.
    destruct (forEach_In name H2) as (o & Ho & Hincl).
    { apply sortBy_In. exact (mapGet_In_keys Hget). }
    rewrite (mapIndex_get None Hget), Hval in Ho. inversion Ho; subst.
    apply Hincl. now left.
Qed.

(** C7.  When the OpenAPI 3 operation writer returns, every named example of
    a response is handed to the example fence under the label
    [Response example (<name>, <status>, <media-type>)], and the inline example
    of a response media type under [Response example (<status>, <media-type>)]. *)
Theorem response_example_labels method path pi op out rs code respRef r mt media :
  writeOpenAPI3Operation method path pi op = Done tt out ->
  O.op_Responses op = Some rs ->
  mapGet (O.responses_Map rs) code = Some (Some respRef) ->
  O.respref_Value respRef = Some r ->
  mapGet (O.resp_Content r) mt = Some (Some media) ->
  (forall name exRef e v,
      mapGet (O.media_Examples media) name = Some (Some exRef) ->
      O.exref_Value exRef = Some e -> O.ex_Value e = Some v ->
      In (Fence ("Response example (" ++ name ++ ", " ++ code ++ ", " ++ mt ++ ")") mt (Some v))
         out)
  /\ (forall v,
         O.media_Example media = Some v ->
         In (Fence ("Response example (" ++ code ++ ", " ++ mt ++ ")") mt (Some v)) out).
Proof.
  intros H Hrs Hcode Hr Hmt. unfold writeOpenAPI3Operation in H.
  do 5 (apply bind_tail in H as (? & H & ?)).
  rewrite Hrs in H. cbv zeta in H. rewrite (mapGet_nonempty Hcode), when_true in H.
  apply bind_tail in H as (oa & Ea & Ia).
  destruct (forEach_In code Ea) as (ob & Eb & Ib).
  { apply sortBy_In. exact (mapGet_In_keys Hcode). }
  unfold writeOpenAPI3Response in Eb.
  rewrite (mapIndex_get None Hcode) in Eb. unfold responseValue in Eb. rewrite Hr in Eb.
  apply bind_tail in Eb as (oc & Ec & Ic).
  rewrite (mapGet_nonempty Hmt), when_true in Ec.
  destruct (forEach_In mt Ec) as (od & Ed & Id).
  { apply sortBy_In. exact (mapGet_In_keys Hmt). }
  unfold writeResponseMedia in Ed.
  rewrite (mapIndex_get None Hmt) in Ed. simpl deref in Ed. rewrite bind_ret in Ed.
  apply bind_tail in Ed as (oe & Ee & Ie).
  destruct (writeMediaExamples_fences _ _ _ _ _ Ee) as [Hanon Hnamed].
  assert (Hout : incl oe out).
  { repeat (eapply incl_tran; [eassumption|]). apply incl_refl. }
  split.
  - intros name exRef e v Hex He Hv. apply Hout.
    apply (Hnamed name (Some exRef) v Hex). simpl. now rewrite He.
  - intros v Hv. apply Hout. now apply Hanon.
Qed.

(** ** Request examples of the Swagger 2.0 operation writer *)


Lemma yields_bind P m k l1 l2 :
  yields P m l1 -> yields P k l2 -> yields P (m ;; k) (l1 ++ l2)%list.
Proof.
  intros (o1 & -> & <-) (o2 & -> & <-). exists (o1 ++ o2)%list.
  split; [reflexivity|apply filter_app].
Qed.

Arguments yields_bind {P m k l1 l2} _ _.

Lemma yields_quiet_bind P m k l :
  yields P m [] -> yields P k l -> yields P (m ;; k) l.
Proof. intros Hm Hk. apply (yields_bind Hm Hk). Qed.

Lemma yields_skip P : yields P skip [].
Proof. now exists []. Qed.

Lemma yields_one P c : yields P (Done tt [c]) (if P c then [c] else []).
Proof. exists [c]. split; [reflexivity|]. simpl. now destruct (P c). Qed.

Lemma yields_when P c m : yields P m [] -> yields P (when c m) [].
Proof. destruct c; simpl; auto. intros _. apply yields_skip. Qed.

Lemma yields_forEach_quiet {A} P (l : list A) body :
  (forall x, yields P (body x) []) -> yields P (forEach l body) [].
Proof.
  intros H. induction l; simpl.
  - apply yields_skip.
  - apply yields_quiet_bind; auto.
Qed.

Lemma yields_forEach_map {A} P (l : list A) body g :
  (forall x, yields P (body x) [g x]) -> yields P (forEach l body) (map g l).
Proof.
  intros H. induction l; simpl.
  - apply yields_skip.
  - apply (yields_bind (H a) IHl).
Qed.

Lemma yields_Raw s : yields isRequestExample (Done tt [Raw s]) [].
Proof. apply (yields_one isRequestExample (Raw s)). Qed.

Lemma yields_response_fence rest mt v :
  yields isRequestExample (writeExampleFence ("Response example (" ++ rest) mt v) [].
Proof. eexists. split; reflexivity. Qed.

Lemma yields_request_fence label mt v :
  String.prefix "Request example" label = true ->
  yields isRequestExample (writeExampleFence label mt v) [Fence label mt v].
Proof. intros H. eexists. split; [reflexivity|]. simpl. now rewrite H. Qed.

Lemma writeSwagger2StatusResponse_quiet rs code :
  yields isRequestExample (writeSwagger2StatusResponse rs code) [].
Proof.
  unfold writeSwagger2StatusResponse. apply yields_quiet_bind; [apply yields_Raw|].
  apply yields_when, yields_forEach_quiet. intros mt.
  apply yields_response_fence.
Qed.

(** what the operation writer hands to the example fence once its two
    searches have settled on a body schema and on an example *)
Lemma request_example_blocks_found method path op globalProduces globalConsumes bodySchema ex :
  findBodySchema (op_Parameters op) = Some bodySchema ->
  bodyExample bodySchema = Some ex ->
  let consumes := if (List.length (op_Consumes op) =? 0)%nat
                  then globalConsumes else op_Consumes op in
  exists out,
    writeSwagger2Operation method path op globalProduces globalConsumes = Done tt out
    /\ filter isRequestExample out
       = match consumes with
         | [] => [Fence "Request example" EmptyString (Some ex)]
         | _ => map (fun mt => Fence ("Request example (" ++ mt ++ ")") mt (Some ex)) consumes
         end.
Proof.
  intros Hbody Hex consumes.
  change (yields isRequestExample
            (writeSwagger2Operation method path op globalProduces globalConsumes)
            match consumes with
            | [] => [Fence "Request example" EmptyString (Some ex)]
            | _ => map (fun mt => Fence ("Request example (" ++ mt ++ ")") mt (Some ex)) consumes
            end).
  unfold writeSwagger2Operation. rewrite Hbody, Hex. fold consumes.
  repeat (apply yields_quiet_bind;
          [ first [ apply yields_Raw
                  | apply yields_when;
                    repeat (apply yields_quiet_bind; [apply yields_Raw|]);
                    first [ apply yields_Raw
                          | apply yields_quiet_bind;
                            [apply yields_forEach_quiet; intros; apply yields_Raw
                            |apply yields_Raw]
                          | apply yields_forEach_quiet; intros; apply yields_Raw ] ]
          | ]).
  rewrite <- (app_nil_r (match consumes with [] => _ | _ => _ end)).
  apply yields_bind.
  - destruct consumes as [|mt consumes'] eqn:E.
    + now apply yields_request_fence.
    + rewrite <- E.
      assert (Hlen : (0 <? List.length consumes)%nat = true) by (now rewrite E).
      rewrite Hlen.
      apply yields_forEach_map with
        (g := fun mt => Fence ("Request example (" ++ mt ++ ")") mt (Some ex)).
      intros x. now apply yields_request_fence.
  - destruct (op_Responses op) as [rs|]; [|apply yields_skip].
    apply yields_when. apply yields_quiet_bind; [apply yields_Raw|].
    apply yields_quiet_bind.
    + apply yields_forEach_quiet. intros. apply writeSwagger2StatusResponse_quiet.
    + destruct (Default_ rs); [apply yields_Raw|apply yields_skip].
Qed.

Lemma findBodySchema_first before prm after bodySchema :
  Forall (fun p => prm_In p <> "body" \/ prm_Schema p = None) before ->
  prm_In prm = "body" -> prm_Schema prm = Some bodySchema ->
  findBodySchema (before ++ prm :: after) = Some bodySchema.
Proof.
  intros Hb Hin Hsc. induction Hb as [|p before Hp _ IH]; simpl.
  - now rewrite Hsc, Hin.
  - destruct (prm_Schema p) as [sc|]; [|exact IH].
    destruct Hp as [Hp|Hp]; [|discriminate].
    destruct (String.eqb_spec (prm_In p) "body"); [contradiction|exact IH].
Qed.

Lemma bodyExample_carries bodySchema ex :
  carriesExample bodySchema ex -> bodyExample bodySchema = Some ex.
Proof.
  unfold bodyExample. intros [H|items it H Hi Hs He|H Hi Hx].
  - now rewrite H.
  - now rewrite H, Hi, Hs, He.
  - rewrite H, Hx. destruct (Items bodySchema) as [items|]; [|reflexivity].
    destruct (soa_Schema items) as [it|] eqn:Es; [|reflexivity].
    now rewrite (Hi items it eq_refl Es).
Qed.

(** C10, amended.  For a Swagger 2.0 operation, let the body parameter be the
    first parameter with [In == "body"] and a schema.  If its schema carries
    an example (on the schema, else on the schema of its items, else as the
    [x-example] extension), the operation writer returns and hands to the
    example fence exactly one request example per media type of the effective
    consumes list, in list order and labelled [Request example (<media-type>)];
    with an empty effective consumes list it hands over exactly one, labelled
    [Request example] with an empty media type. *)
Theorem request_example_blocks method path op globalProduces globalConsumes
    before prm after bodySchema ex :
  op_Parameters op = (before ++ prm :: after)%list ->
  Forall (fun p => prm_In p <> "body" \/ prm_Schema p = None) before ->
  prm_In prm = "body" -> prm_Schema prm = Some bodySchema ->
  carriesExample bodySchema ex ->
  let consumes := if (List.length (op_Consumes op) =? 0)%nat
                  then globalConsumes else op_Consumes op in
  exists out,
    writeSwagger2Operation method path op globalProduces globalConsumes = Done tt out
    /\ filter isRequestExample out
       = match consumes with
         | [] => [Fence "Request example" EmptyString (Some ex)]
         | _ => map (fun mt => Fence ("Request example (" ++ mt ++ ")") mt (Some ex)) consumes
         end.
Proof.
  intros Hparams Hbefore Hin Hsc Hex.
  apply request_example_blocks_found with (bodySchema := bodySchema).
  - rewrite Hparams. now apply findBodySchema_first.
  - now apply bodyExample_carries.
Qed.

(** ** Parameters of the OpenAPI 3 operation writer *)

Lemma forEach_params params :
  forEach params writeOpenAPI3Param = Done tt (paramChunks params).
Proof.
  apply forEach_Done. intros [[[par|]]|] _; reflexivity.
Qed.

Lemma when_Fprintf_inv c s a out :
  when c (Fprintf s) = Done a out -> out = if c then [Raw s] else [].
Proof. destruct c; intros H; inversion H; reflexivity. Qed.

(** C4, amended.  The OpenAPI 3 operation writer lists the parameters of the
    path item followed by the parameters of the operation, one line per entry
    that is not nil, in list order and without removing anything: a parameter
    declared at both levels under the same name and location is listed at
    both places. *)
Theorem parameters_listed_in_order method path pi op out :
  writeOpenAPI3Operation method path pi op = Done tt out ->
  exists rest,
    out = (operationHead method path (O.op_Summary op) (O.op_Description op)
           ++ (if (0 <? List.length (O.pi_Parameters pi ++ O.op_Parameters op))%nat
               then [Raw ("**Parameters**" ++ nl)] else [])
           ++ paramChunks (O.pi_Parameters pi)
           ++ paramChunks (O.op_Parameters op)
           ++ rest)%list.
Proof.
  unfold writeOpenAPI3Operation. intros H.
  apply bind_Done_inv in H as ([] & o1 & r1 & H1 & H & ->). inversion H1; subst o1; clear H1.
  apply bind_Done_inv in H as ([] & o2 & r2 & H2 & H & ->).
  apply when_Fprintf_inv in H2. subst o2.
  apply bind_Done_inv in H as ([] & o3 & r3 & H3 & H & ->).
  apply when_Fprintf_inv in H3. subst o3.
  cbv zeta in H. simpl app in H.
  apply bind_Done_inv in H as ([] & o4 & r4 & H4 & H & ->).
  exists r4. unfold operationHead.
  rewrite !negb_if in *.
  assert (E4 : o4 = ((if (0 <? List.length (O.pi_Parameters pi ++ O.op_Parameters op))%nat
                      then [Raw ("**Parameters**" ++ nl)] else [])
                     ++ paramChunks (O.pi_Parameters pi ++ O.op_Parameters op))%list).
  { destruct (O.pi_Parameters pi ++ O.op_Parameters op)%list as [|x l] eqn:E.
    - inversion H4. reflexivity.
    - rewrite <- E in *.
      assert (Hlen : (0 <? List.length (O.pi_Parameters pi ++ O.op_Parameters op))%nat = true)
        by (now rewrite E).
      rewrite Hlen in *. rewrite when_true in H4.
      unfold Fprintf, bind in H4. rewrite forEach_params in H4.
      inversion H4. reflexivity. }
  rewrite E4. unfold paramChunks. rewrite flat_map_app, <- !app_assoc. reflexivity.
Qed.

(** ** Section headings *)

Lemma lastTwo_blank_line x :
  lastTwo (x ++ nl ++ nl) = Some (ascii_of_nat 10, ascii_of_nat 10).
Proof.
  induction x as [|c x IH]; [reflexivity|].
  destruct x as [|d [|e x]]; try reflexivity.
  simpl in *. exact IH.
Qed.

(** a text that ends in an empty line is not a section heading *)
Lemma blank_line_not_heading x : isSectionHeading (Raw (x ++ nl ++ nl)) = false.
Proof.
  destruct (isSectionHeading (Raw (x ++ nl ++ nl))) eqn:E; [exfalso|reflexivity].
  pose proof (lastTwo_blank_line x) as L.
  remember (x ++ nl ++ nl) as s eqn:Es. clear Es.
  unfold isSectionHeading, sectionNames in E. simpl existsb in E.
  repeat (apply orb_prop in E; destruct E as [E|E]);
    try discriminate; apply String.eqb_eq in E; subst s; vm_compute in L; discriminate.
Qed.

Ltac not_heading :=
  first [ reflexivity
        | apply blank_line_not_heading
        | repeat match goal with
                 | |- context [match ?x with _ => _ end] => destruct x
                 end; reflexivity ].

Ltac quiet :=
  repeat first
    [ apply silent_ret
    | apply silent_deref
    | apply silent_when
    | apply silent_forEach; intros ?
    | apply silent_one; not_heading
    | apply silent_bind; [|intros ?]
    | match goal with
      | |- silent _ (match ?x with _ => _ end) => destruct x
      end ].

Lemma noneDefined_quiet : silent isSectionHeading noneDefined.
Proof. unfold noneDefined. quiet. Qed.

Lemma writeTagLine_quiet name description :
  silent isSectionHeading (writeTagLine name description).
Proof. unfold writeTagLine. quiet. Qed.

Lemma writeSwagger2Security_quiet entry :
  silent isSectionHeading (writeSwagger2Security entry).
Proof.
  unfold writeSwagger2Security. apply silent_bind; [apply silent_deref|].
  intros sec. cbv zeta. apply silent_one. not_heading.
Qed.

Lemma swagger2ResponseLine_not_heading code desc schema :
  isSectionHeading (Raw (swagger2ResponseLine code desc schema ++ nl)) = false.
Proof. unfold swagger2ResponseLine. not_heading. Qed.

Lemma writeSwagger2Operation_quiet method path op gp gc :
  silent isSectionHeading (writeSwagger2Operation method path op gp gc).
Proof.
  unfold writeSwagger2Operation, writeSwagger2StatusResponse, Fprintln. cbv zeta.
  repeat first
    [ apply silent_one; first [apply swagger2ResponseLine_not_heading | not_heading]
    | apply silent_ret
    | apply silent_when
    | apply silent_forEach; intros ?
    | apply silent_bind; [|intros ?]
    | match goal with
      | |- silent _ (match ?x with _ => _ end) => destruct x
      end ].
Qed.

Lemma writeSwagger2Refs_quiet s refs : silent isSectionHeading (writeSwagger2Refs s refs).
Proof.
  unfold writeSwagger2Refs. apply silent_forEach. intros ref.
  apply writeSwagger2Operation_quiet.
Qed.

Lemma writeSwagger2Definition_quiet defs name :
  silent isSectionHeading (writeSwagger2Definition defs name).
Proof. unfold writeSwagger2Definition, Fprintln. cbv zeta. quiet. Qed.

Lemma writeSwagger2ExampleNote_quiet method p entry :
  silent isSectionHeading (writeSwagger2ExampleNote method p entry).
Proof. unfold writeSwagger2ExampleNote. cbv zeta. quiet. Qed.

Lemma groupOps_quiet {R Oper PI} P (tagsOf : Oper -> list string) opsOf
    (mkRef : string -> string -> PI -> Oper -> R) lookup paths :
  (forall p, silent P (lookup p)) -> silent P (groupOps tagsOf opsOf mkRef lookup paths).
Proof.
  intros H. unfold groupOps. apply silent_foldM. intros acc p.
  apply silent_bind; [apply H|]. intros pi. apply silent_ret.
Qed.

Lemma writeOpenAPI3Security_quiet schemes name :
  silent isSectionHeading (writeOpenAPI3Security schemes name).
Proof. unfold writeOpenAPI3Security, Fprintln. cbv zeta. quiet. Qed.

Lemma writeOpenAPI3Server_quiet s : silent isSectionHeading (writeOpenAPI3Server s).
Proof. unfold writeOpenAPI3Server. cbv zeta. quiet. Qed.

Lemma writeMediaExamples_quiet anon named mt media :
  silent isSectionHeading (writeMediaExamples anon named mt media).
Proof. unfold writeMediaExamples, writeExampleFence. quiet. Qed.

Lemma writeOpenAPI3Operation_quiet method path pi op :
  silent isSectionHeading (writeOpenAPI3Operation method path pi op).
Proof.
  unfold writeOpenAPI3Operation, writeOpenAPI3Param, writeRequestMedia,
    writeOpenAPI3Response, writeResponseMedia, Fprintln.
  cbv zeta.
  repeat first
    [ apply writeMediaExamples_quiet
    | apply silent_ret
    | apply silent_deref
    | apply silent_when
    | apply silent_forEach; intros ?
    | apply silent_one; not_heading
    | apply silent_bind; [|intros ?]
    | match goal with
      | |- silent _ (match ?x with _ => _ end) => destruct x
      end ].
Qed.

Lemma writeOpenAPI3Refs_quiet refs : silent isSectionHeading (writeOpenAPI3Refs refs).
Proof.
  unfold writeOpenAPI3Refs. apply silent_forEach. intros ref.
  apply writeOpenAPI3Operation_quiet.
Qed.

Lemma writeOpenAPI3Schema_quiet schemas name :
  silent isSectionHeading (writeOpenAPI3Schema schemas name).
Proof.
  unfold writeOpenAPI3Schema, writeOpenAPI3Property, Fprintln, writeExampleFence.
  cbv zeta. quiet.
Qed.

Lemma hasExampleLoop_quiet content : silent isSectionHeading (hasExampleLoop content).
Proof.
  induction content as [|[k m] content IH]; simpl.
  - apply silent_ret.
  - apply silent_bind; [apply silent_deref|]. intros media.
    destruct (_ || _); [apply silent_ret|apply IH].
Qed.

Lemma writeOpenAPI3ExampleNote_quiet method p entry :
  silent isSectionHeading (writeOpenAPI3ExampleNote method p entry).
Proof.
  unfold writeOpenAPI3ExampleNote.
  destruct (responseValue (snd entry)) as [r|]; [|apply silent_ret].
  destruct (_ =? _)%nat; [apply silent_ret|].
  apply silent_bind; [apply hasExampleLoop_quiet|]. intros b. quiet.
Qed.

Lemma silent_elim {A} P (m : M A) a o : m = Done a o -> silent P m -> filter P o = [].
Proof. intros H Hs. exact (Hs a o H). Qed.

Ltac next H o Hpart :=
  let a := fresh "a" in
  let r := fresh "r" in
  apply bind_Done_inv in H as (a & o & r & Hpart & H & ->).

Lemma heading_kept name :
  In name sectionNames -> filter isSectionHeading [sectionHeading name] = [sectionHeading name].
Proof.
  intros H. simpl in H.
  repeat (destruct H as [<-|H]; [vm_compute; reflexivity|]). easy.
Qed.

Lemma title_dropped x : filter isSectionHeading [Raw ("# " ++ x)] = [].
Proof. vm_compute. reflexivity. Qed.

Lemma version_dropped x : filter isSectionHeading [Raw ("- Version: " ++ x)] = [].
Proof. vm_compute. reflexivity. Qed.

Ltac keep_headings :=
  change (Raw ("## Overview" ++ nl)) with (sectionHeading "Overview");
  change (Raw (nl ++ "## Authentication" ++ nl)) with (sectionHeading "Authentication");
  change (Raw (nl ++ "## Servers" ++ nl)) with (sectionHeading "Servers");
  change (Raw (nl ++ "## Tags" ++ nl)) with (sectionHeading "Tags");
  change (Raw (nl ++ "## Endpoints by Tag" ++ nl)) with (sectionHeading "Endpoints by Tag");
  change (Raw (nl ++ "## Examples" ++ nl)) with (sectionHeading "Examples");
  rewrite ?title_dropped, ?version_dropped;
  rewrite !heading_kept by (simpl; tauto).

Lemma adjacent_here x y rest : adjacent x y ([x] ++ [y] ++ rest)%list.
Proof. now exists [], rest. Qed.

Lemma adjacent_later x y b1 b2 : adjacent x y b2 -> adjacent x y (b1 ++ b2)%list.
Proof.
  intros (pre & post & ->). exists (b1 ++ pre)%list, post. now rewrite app_assoc.
Qed.

Ltac find_adjacent :=
  repeat first [ apply adjacent_here | apply adjacent_later ].

Lemma Fprintf_inv s a o : Fprintf s = Done a o -> o = [Raw s].
Proof. intros H. now inversion H. Qed.

Lemma when_heading_inv c name body a o :
  when c (Fprintf (nl ++ "## " ++ name ++ nl) ;; body) = Done a o ->
  silent isSectionHeading body ->
  isSectionHeading (Raw (nl ++ "## " ++ name ++ nl)) = true ->
  headingsOf o = if c then [Raw (nl ++ "## " ++ name ++ nl)] else [].
Proof.
  intros H Hb Hh. destruct c.
  - rewrite when_true in H.
    apply bind_Done_inv in H as (? & o1 & o2 & H1 & H2 & ->).
    apply Fprintf_inv in H1. subst o1. unfold headingsOf.
    rewrite filter_app, (Hb _ _ H2). cbn [filter]. now rewrite Hh.
  - now inversion H.
Qed.

Lemma swagger2_sections s b :
  swagger2Render s = Done tt b ->
  headingsOf b = headingsWith (0 <? List.length (sw_Definitions s))%nat
  /\ (sw_SecurityDefinitions s = [] ->
      adjacent (sectionHeading "Authentication") noneDefinedLine b)
  /\ (hostURL (sw_Schemes s) (sw_Host s) (sw_BasePath s) = EmptyString ->
      adjacent (sectionHeading "Servers") noneDefinedLine b)
  /\ (sw_Tags s = [] -> adjacent (sectionHeading "Tags") noneDefinedLine b).
Proof.
  unfold swagger2Render. cbv zeta. intros H.
  next H o1 H1. next H o2 H2. next H o3 H3. next H o4 H4. next H o5 H5.
  next H o6 H6. next H o7 H7. next H o8 H8. next H o9 H9. next H o10 H10.
  next H o11 H11. next H o12 H12. next H o13 H13. destruct a11 as [tagged untagged].
  next H o14 H14. next H o15 H15. next H o16 H16. next H o17 H17.
  apply Fprintf_inv in H1, H2, H3, H5, H7, H9, H11, H17. subst o1 o2 o3 o5 o7 o9 o11 o17.
  assert (Q4 : headingsOf o4 = []) by (eapply silent_elim; [exact H4|quiet]).
  assert (Q6 : headingsOf o6 = []).
  { eapply silent_elim; [exact H6|].
    destruct (List.length (sw_SecurityDefinitions s) =? 0)%nat; [apply noneDefined_quiet|].
    apply silent_forEach. intros x. apply writeSwagger2Security_quiet. }
  assert (Q8 : headingsOf o8 = []).
  { eapply silent_elim; [exact H8|]. destruct (negb _); [quiet|apply noneDefined_quiet]. }
  assert (Q10 : headingsOf o10 = []).
  { eapply silent_elim; [exact H10|].
    destruct (List.length (sw_Tags s) =? 0)%nat; [apply noneDefined_quiet|].
    apply silent_forEach. intros x. apply writeTagLine_quiet. }
  assert (Q12 : headingsOf o12 = []) by (eapply silent_elim; [exact H12|quiet]).
  assert (Q13 : headingsOf o13 = []).
  { eapply silent_elim; [exact H13|]. apply groupOps_quiet. intros p. apply silent_ret. }
  assert (Q14 : headingsOf o14 = []).
  { eapply silent_elim; [exact H14|]. apply silent_forEach. intros name.
    apply silent_bind; [quiet|]. intros _. apply writeSwagger2Refs_quiet. }
  assert (Q15 : headingsOf o15 = []).
  { eapply silent_elim; [exact H15|]. apply silent_when.
    apply silent_bind; [quiet|]. intros _. apply writeSwagger2Refs_quiet. }
  assert (Q16 : headingsOf o16
                = if (0 <? List.length (sw_Definitions s))%nat
                  then [sectionHeading "Schemas"] else []).
  { eapply when_heading_inv; [exact H16| |reflexivity].
    apply silent_forEach. intros name. apply writeSwagger2Definition_quiet. }
  assert (Qr : headingsOf r = []).
  { eapply silent_elim; [exact H|]. apply silent_forEach. intros p.
    apply silent_forEach. intros it. destruct (snd it) as [op|]; [|apply silent_ret].
    destruct (op_Responses op) as [rs|]; [|apply silent_ret].
    apply silent_forEach. intros e. apply writeSwagger2ExampleNote_quiet. }
  split; [|split; [|split]].
  - unfold headingsOf in *. rewrite !filter_app.
    rewrite Q4, Q6, Q8, Q10, Q12, Q13, Q14, Q15, Q16, Qr.
    keep_headings. unfold headingsWith.
    destruct (0 <? List.length (sw_Definitions s))%nat; reflexivity.
  - intros E. rewrite E in H6. inversion H6; subst o6.
    change (Raw (nl ++ "## Authentication" ++ nl)) with (sectionHeading "Authentication").
    change [Raw ("- None defined" ++ nl)] with [noneDefinedLine].
    find_adjacent.
  - intros E. rewrite E in H8. inversion H8; subst o8.
    change (Raw (nl ++ "## Servers" ++ nl)) with (sectionHeading "Servers").
    change [Raw ("- None defined" ++ nl)] with [noneDefinedLine].
    find_adjacent.
  - intros E. rewrite E in H10. inversion H10; subst o10.
    change (Raw (nl ++ "## Tags" ++ nl)) with (sectionHeading "Tags").
    change [Raw ("- None defined" ++ nl)] with [noneDefinedLine].
    find_adjacent.
Qed.

Lemma openAPI3_sections doc b :
  openAPI3Render doc = Done tt b ->
  exists components,
    O.t_Components doc = Some components
    /\ headingsOf b = headingsWith (0 <? List.length (O.comp_Schemas components))%nat
    /\ (O.comp_SecuritySchemes components = [] ->
        adjacent (sectionHeading "Authentication") noneDefinedLine b)
    /\ (O.t_Servers doc = [] -> adjacent (sectionHeading "Servers") noneDefinedLine b)
    /\ (O.t_Tags doc = [] -> adjacent (sectionHeading "Tags") noneDefinedLine b)
    /\ (O.t_Paths doc = None ->
        adjacent (sectionHeading "Endpoints by Tag") noneDefinedLine b
        /\ adjacent (sectionHeading "Examples") noneDefinedLine b).
Proof.
  unfold openAPI3Render. cbv zeta. intros H.
  next H o1 H1. next H o2 H2. next H o3 H3. next H o4 H4. next H o5 H5.
  next H o6 H6. next H o7 H7. rename a5 into components.
  next H o8 H8. next H o9 H9. next H o10 H10. next H o11 H11. next H o12 H12.
  next H o13 H13. next H o14 H14. next H o15 H15.
  apply bind_Done_inv in H as (? & o16 & rest & H16 & H & ->).
  apply Fprintf_inv in H1, H2, H3, H6, H9, H11, H13, H16.
  subst o1 o2 o3 o6 o9 o11 o13 o16.
  exists components.
  assert (Hc : O.t_Components doc = Some components /\ o7 = []).
  { destruct (O.t_Components doc); inversion H7. now split. }
  destruct Hc as [Hc ->]. rewrite (app_nil_l (o8 ++ _)).
  assert (Q4 : headingsOf o4 = []) by (eapply silent_elim; [exact H4|quiet]).
  assert (Q5 : headingsOf o5 = []) by (eapply silent_elim; [exact H5|quiet]).
  assert (Q8 : headingsOf o8 = []).
  { eapply silent_elim; [exact H8|].
    destruct (List.length (O.comp_SecuritySchemes components) =? 0)%nat;
      [apply noneDefined_quiet|].
    apply silent_forEach. intros e. apply writeOpenAPI3Security_quiet. }
  assert (Q10 : headingsOf o10 = []).
  { eapply silent_elim; [exact H10|].
    destruct (List.length (O.t_Servers doc) =? 0)%nat; [apply noneDefined_quiet|].
    apply silent_forEach. intros e. apply writeOpenAPI3Server_quiet. }
  assert (Q12 : headingsOf o12 = []).
  { eapply silent_elim; [exact H12|].
    destruct (List.length (O.t_Tags doc) =? 0)%nat; [apply noneDefined_quiet|].
    apply silent_forEach. intros e. apply silent_bind; [apply silent_deref|].
    intros t. apply writeTagLine_quiet. }
  assert (Q14 : headingsOf o14 = []).
  { eapply silent_elim; [exact H14|].
    destruct (O.t_Paths doc) as [P|]; [|apply noneDefined_quiet].
    apply silent_bind.
    - apply groupOps_quiet. intros p. apply silent_deref.
    - intros [tagged untagged]. apply silent_bind.
      + apply silent_forEach. intros name.
        apply silent_bind; [quiet|]. intros _. apply writeOpenAPI3Refs_quiet.
      + intros _. apply silent_when.
        apply silent_bind; [quiet|]. intros _. apply writeOpenAPI3Refs_quiet. }
  assert (Q15 : headingsOf o15
                = if (0 <? List.length (O.comp_Schemas components))%nat
                  then [sectionHeading "Schemas"] else []).
  { eapply when_heading_inv; [exact H15| |reflexivity].
    apply silent_forEach. intros name. apply writeOpenAPI3Schema_quiet. }
  assert (Qr : headingsOf rest = []).
  { eapply silent_elim; [exact H|].
    destruct (O.t_Paths doc) as [P|]; [|apply noneDefined_quiet].
    apply silent_forEach. intros p. apply silent_bind; [apply silent_deref|].
    intros pi. apply silent_forEach. intros it.
    destruct (snd it) as [op|]; [|apply silent_ret].
    destruct (O.op_Responses op) as [rs|]; [|apply silent_ret].
    apply silent_forEach. intros e. apply writeOpenAPI3ExampleNote_quiet. }
  split; [exact Hc|]. split; [|split; [|split; [|split]]].
  - unfold headingsOf in *. rewrite !filter_app.
    rewrite Q4, Q5, Q8, Q10, Q12, Q14, Q15, Qr.
    keep_headings. unfold headingsWith.
    destruct (0 <? List.length (O.comp_Schemas components))%nat; reflexivity.
  - intros E. rewrite E in H8. inversion H8; subst o8.
    change (Raw (nl ++ "## Authentication" ++ nl)) with (sectionHeading "Authentication").
    change [Raw ("- None defined" ++ nl)] with [noneDefinedLine].
    find_adjacent.
  - intros E. rewrite E in H10. inversion H10; subst o10.
    change (Raw (nl ++ "## Servers" ++ nl)) with (sectionHeading "Servers").
    change [Raw ("- None defined" ++ nl)] with [noneDefinedLine].
    find_adjacent.
  - intros E. rewrite E in H12. inversion H12; subst o12.
    change (Raw (nl ++ "## Tags" ++ nl)) with (sectionHeading "Tags").
    change [Raw ("- None defined" ++ nl)] with [noneDefinedLine].
    find_adjacent.
  - intros E. rewrite E in H14, H. inversion H14; subst o14. inversion H; subst rest.
    change (Raw (nl ++ "## Endpoints by Tag" ++ nl)) with (sectionHeading "Endpoints by Tag").
    change (Raw (nl ++ "## Examples" ++ nl)) with (sectionHeading "Examples").
    change [Raw ("- None defined" ++ nl)] with [noneDefinedLine].
    split; find_adjacent.
Qed.

(** C3, amended.  For every document whose walk returns, the adapter writes
    the headings Overview, Authentication, Servers, Tags, Endpoints by Tag and
    Examples once each and in this order; the heading Schemas is written,
    between Endpoints by Tag and Examples, exactly when the document defines at
    least one schema.  An empty Authentication, Servers or Tags section shows
    the line [- None defined]; the OpenAPI 3 adapter shows it also under
    Endpoints by Tag and under Examples when the document has no paths object. *)
Theorem section_headings :
  (forall s b,
      swagger2Render s = Done tt b ->
      headingsOf b = headingsWith (0 <? List.length (sw_Definitions s))%nat
      /\ (sw_SecurityDefinitions s = [] ->
          adjacent (sectionHeading "Authentication") noneDefinedLine b)
      /\ (hostURL (sw_Schemes s) (sw_Host s) (sw_BasePath s) = EmptyString ->
          adjacent (sectionHeading "Servers") noneDefinedLine b)
      /\ (sw_Tags s = [] -> adjacent (sectionHeading "Tags") noneDefinedLine b))
  /\
  (forall doc b,
      openAPI3Render doc = Done tt b ->
      exists components,
        O.t_Components doc = Some components
        /\ headingsOf b = headingsWith (0 <? List.length (O.comp_Schemas components))%nat
        /\ (O.comp_SecuritySchemes components = [] ->
            adjacent (sectionHeading "Authentication") noneDefinedLine b)
        /\ (O.t_Servers doc = [] -> adjacent (sectionHeading "Servers") noneDefinedLine b)
        /\ (O.t_Tags doc = [] -> adjacent (sectionHeading "Tags") noneDefinedLine b)
        /\ (O.t_Paths doc = None ->
            adjacent (sectionHeading "Endpoints by Tag") noneDefinedLine b
            /\ adjacent (sectionHeading "Examples") noneDefinedLine b)).
Proof.
  split.
  - exact swagger2_sections.
  - exact openAPI3_sections.
Qed.

(** *** Which walks return *)

Lemma returns_Done {A} (a : A) o : returns (Done a o).
Proof. now exists a, o. Qed.

Lemma returns_Panic {A} r : ~ returns (@Panic A r).
Proof. intros (a & o & H). discriminate. Qed.

Lemma returns_bind {A B} (m : M A) (f : A -> M B) :
  returns m -> (forall a, returns (f a)) -> returns (bind m f).
Proof.
  intros (a & o & ->) Hf. destruct (Hf a) as (b & o' & E).
  exists b, (o ++ o')%list. unfold bind. now rewrite E.
Qed.

Lemma returns_seq_iff {A B} (m : M A) (k : M B) :
  returns (m ;; k) <-> returns m /\ returns k.
Proof.
  split.
  - intros (b & out & H). apply bind_Done_inv in H as (a & o1 & o2 & H1 & H2 & _).
    split; [now exists a, o1|now exists b, o2].
  - intros [Hm Hk]. apply returns_bind; auto.
Qed.

Lemma returns_deref_iff {A} (p : option A) : returns (deref p) <-> isSome p = true.
Proof.
  destruct p; simpl; split; intros H; try reflexivity; try discriminate.
  - apply returns_Done.
  - now apply returns_Panic in H.
Qed.

Lemma returns_forEach_iff {A} (l : list A) body :
  returns (forEach l body) <-> forall x, In x l -> returns (body x).
Proof.
  induction l as [|y l IH]; simpl.
  - split; [tauto|]. intros _. apply returns_Done.
  - rewrite returns_seq_iff, IH. split.
    + intros [Hy Hl] x [<-|Hx]; auto.
    + intros H. split; [apply H; now left|]. intros x Hx. apply H. now right.
Qed.

Lemma returns_when_iff c m : returns (when c m) <-> (c = true -> returns m).
Proof.
  destruct c; simpl.
  - tauto.
  - split; [discriminate|]. intros _. apply returns_Done.
Qed.

Lemma returns_forEach {A} (l : list A) body :
  (forall x, returns (body x)) -> returns (forEach l body).
Proof. intros H. apply returns_forEach_iff. auto. Qed.

Lemma returns_when c m : returns m -> returns (when c m).
Proof. intros H. apply returns_when_iff. auto. Qed.

Ltac steady :=
  repeat first
    [ apply returns_Done
    | apply returns_when
    | apply returns_forEach; intros ?
    | apply returns_bind; [|intros ?]
    | match goal with
      | |- returns (match ?x with _ => _ end) => destruct x
      end ].

(** the Swagger 2.0 operation writer dereferences nothing that can be nil *)
Lemma writeSwagger2Operation_returns method path op gp gc :
  returns (writeSwagger2Operation method path op gp gc).
Proof.
  unfold writeSwagger2Operation, writeSwagger2StatusResponse, Fprintln, Fprintf,
    writeExampleFence, skip, ret.
  cbv zeta. steady.
Qed.

Lemma writeSwagger2Definition_returns defs name :
  returns (writeSwagger2Definition defs name).
Proof.
  unfold writeSwagger2Definition, Fprintln, Fprintf, writeExampleFence, skip, ret.
  cbv zeta. steady.
Qed.

Lemma writeSwagger2ExampleNote_returns method p entry :
  returns (writeSwagger2ExampleNote method p entry).
Proof.
  unfold writeSwagger2ExampleNote, Fprintf, skip, ret. cbv zeta. steady.
Qed.

Lemma writeTagLine_returns name description : returns (writeTagLine name description).
Proof. unfold writeTagLine, Fprintf. steady. Qed.

Lemma foldM_returns {A S} (l : list A) (f : S -> A -> M S) acc :
  (forall s x, returns (f s x)) -> returns (foldM l f acc).
Proof.
  intros H. revert acc. induction l; intros acc; simpl.
  - apply returns_Done.
  - apply returns_bind; auto.
Qed.

Lemma swagger2Buckets_returns P : returns (swagger2Buckets P).
Proof.
  unfold swagger2Buckets, groupOps. apply foldM_returns. intros acc p.
  apply returns_bind; [apply returns_Done|]. intros pi. apply returns_Done.
Qed.

Lemma writeSwagger2Security_returns_iff entry :
  returns (writeSwagger2Security entry) <-> isSome (snd entry) = true.
Proof.
  unfold writeSwagger2Security. cbv zeta. split.
  - intros (a & o & H). apply bind_Done_inv in H as (sec & o1 & o2 & H1 & _).
    destruct (snd entry); [reflexivity|discriminate].
  - intros H. apply returns_bind; [now apply returns_deref_iff|].
    intros sec. unfold Fprintln, Fprintf. apply returns_Done.
Qed.

(** X8.  The Swagger 2.0 walk returns exactly for the documents that have a
    paths object and no nil security definition; nothing else it reads
    (a missing info block, operations, parameters, responses, definitions)
    can make it panic. *)
Theorem swagger2_walk_returns (s : Swagger) :
  returns (swagger2Render s)
  <-> isSome (sw_Paths s) = true
      /\ forallb (fun entry => isSome (snd entry)) (sw_SecurityDefinitions s) = true.
Proof.
  unfold swagger2Render. cbv zeta.
  rewrite !returns_seq_iff. split.
  - intros (_ & _ & _ & _ & _ & Hsec & _ & _ & _ & _ & _ & Hrest).
    split.
    + destruct (sw_Paths s); [reflexivity|].
      destruct Hrest as (a & o & H). discriminate.
    + apply forallb_forall. intros entry Hin.
      destruct (sw_SecurityDefinitions s) as [|e l] eqn:E; [easy|].
      change (returns (forEach (e :: l) writeSwagger2Security)) in Hsec.
      rewrite returns_forEach_iff in Hsec.
      apply writeSwagger2Security_returns_iff. apply Hsec. exact Hin.
  - intros [Hp Hs]. rewrite forallb_forall in Hs.
    repeat split; try apply returns_Done.
    + steady.
    + destruct (_ =? _)%nat; [apply returns_Done|].
      apply returns_forEach_iff. intros entry Hin.
      apply writeSwagger2Security_returns_iff. auto.
    + destruct (negb _); apply returns_Done.
    + destruct (_ =? _)%nat; [apply returns_Done|].
      apply returns_forEach. intros t. apply writeTagLine_returns.
    + destruct (sw_Paths s) as [P|]; [|discriminate]. simpl deref. rewrite bind_ret.
      apply returns_bind; [apply swagger2Buckets_returns|]. intros [tagged untagged].
      rewrite !returns_seq_iff. repeat split.
      * apply returns_forEach. intros name. apply returns_bind; [apply returns_Done|].
        intros _. apply returns_forEach. intros ref. apply writeSwagger2Operation_returns.
      * apply returns_when. apply returns_bind; [apply returns_Done|].
        intros _. apply returns_forEach. intros ref. apply writeSwagger2Operation_returns.
      * apply returns_when. apply returns_bind; [apply returns_Done|].
        intros _. apply returns_forEach. intros name. apply writeSwagger2Definition_returns.
      * apply returns_Done.
      * apply returns_forEach. intros p. apply returns_forEach. intros it.
        destruct (snd it) as [op|]; [|apply returns_Done].
        destruct (op_Responses op) as [rs|]; [|apply returns_Done].
        apply returns_forEach. intros e. apply writeSwagger2ExampleNote_returns.
Qed.

Lemma writeMediaExamples_returns anon named mt media :
  returns (writeMediaExamples anon named mt media).
Proof. unfold writeMediaExamples, writeExampleFence, skip, ret. steady. Qed.

Lemma writeRequestMedia_returns_iff content mt :
  returns (writeRequestMedia content mt) <-> isSome (mapIndex None content mt) = true.
Proof.
  unfold writeRequestMedia. split.
  - intros (a & o & H). apply bind_Done_inv in H as (media & o1 & o2 & H1 & _).
    destruct (mapIndex None content mt); [reflexivity|discriminate].
  - intros H. apply returns_bind; [now apply returns_deref_iff|].
    intros media. rewrite returns_seq_iff. split; [apply returns_Done|].
    apply writeMediaExamples_returns.
Qed.

Lemma writeResponseMedia_returns_iff code content mt :
  returns (writeResponseMedia code content mt) <-> isSome (mapIndex None content mt) = true.
Proof.
  unfold writeResponseMedia. split.
  - intros (a & o & H). apply bind_Done_inv in H as (media & o1 & o2 & H1 & _).
    destruct (mapIndex None content mt); [reflexivity|discriminate].
  - intros H. apply returns_bind; [now apply returns_deref_iff|].
    intros media. rewrite returns_seq_iff. split; [apply returns_Done|].
    apply writeMediaExamples_returns.
Qed.

Lemma keys_empty {V} (m : gomap V) : (0 <? List.length m)%nat = false -> keys m = [].
Proof. destruct m; [reflexivity|discriminate]. Qed.

(** a loop over the sorted keys of a map *)
Lemma returns_sorted_keys {V} (m : gomap V) body (ok : string -> bool) :
  (forall k, returns (body k) <-> ok k = true) ->
  returns (forEach (sort_Strings (keys m)) body) <-> forallb ok (keys m) = true.
Proof.
  intros Hbody. rewrite returns_forEach_iff, forallb_forall. split.
  - intros H k Hk. apply Hbody, H. unfold sort_Strings. now apply sortBy_In.
  - intros H k Hk. apply Hbody, H. unfold sort_Strings in Hk. now apply sortBy_In in Hk.
Qed.

(** the guard [len(m) > 0] around such a loop *)
Lemma returns_guarded {V} (m : gomap V) walk (ok : string -> bool) :
  (returns walk <-> forallb ok (keys m) = true) ->
  returns (when (0 <? List.length m)%nat walk) <-> forallb ok (keys m) = true.
Proof.
  intros H. rewrite returns_when_iff, <- H. split; [|auto].
  intros Hw. destruct (0 <? List.length m)%nat eqn:E; [auto|].
  apply H. now rewrite (keys_empty m E).
Qed.

Lemma writeOpenAPI3Response_returns_iff respMap code :
  returns (writeOpenAPI3Response respMap code)
  <-> match responseValue (mapIndex None respMap code) with
      | Some r => mediaPresent (O.resp_Content r)
      | None => true
      end = true.
Proof.
  unfold writeOpenAPI3Response.
  destruct (responseValue (mapIndex None respMap code)) as [r|].
  - cbv zeta. rewrite returns_seq_iff. unfold mediaPresent.
    rewrite <- (returns_guarded (O.resp_Content r)
                 (forEach (sort_Strings (keys (O.resp_Content r)))
                    (writeResponseMedia code (O.resp_Content r)))).
    + split; [tauto|]. intros H. split; [apply returns_Done|exact H].
    + apply returns_sorted_keys. intros k. apply writeResponseMedia_returns_iff.
  - split; [reflexivity|]. intros _. apply returns_Done.
Qed.

Lemma writeOpenAPI3Param_returns pr : returns (writeOpenAPI3Param pr).
Proof. unfold writeOpenAPI3Param, Fprintln, Fprintf, skip, ret. steady. Qed.

Lemma writeOpenAPI3Operation_returns_iff (method path : string) (pi : O.PathItem)
    (op : O.Operation) :
  returns (writeOpenAPI3Operation method path pi op) <-> operationMediaPresent op = true.
Proof.
  unfold writeOpenAPI3Operation, operationMediaPresent. cbv zeta.
  rewrite !returns_seq_iff, andb_true_iff.
  assert (Hbody :
    returns match O.op_RequestBody op with
            | Some rb =>
                match O.bodyref_Value rb with
                | Some body =>
                    when (0 <? List.length (O.body_Content body))%nat
                      (Fprintf (nl ++ "**Request Body**" ++ nl) ;;
                       forEach (sort_Strings (keys (O.body_Content body)))
                         (writeRequestMedia (O.body_Content body)))
                | None => skip
                end
            | None => skip
            end
    <-> match O.op_RequestBody op with
        | Some rb =>
            match O.bodyref_Value rb with
            | Some body => mediaPresent (O.body_Content body)
            | None => true
            end
        | None => true
        end = true).
  { destruct (O.op_RequestBody op) as [rb|];
      [|split; [reflexivity|intros _; apply returns_Done]].
    destruct (O.bodyref_Value rb) as [body|];
      [|split; [reflexivity|intros _; apply returns_Done]].
    unfold mediaPresent. apply returns_guarded.
    rewrite returns_seq_iff.
    rewrite (returns_sorted_keys (O.body_Content body) _
               (fun mt => isSome (mapIndex None (O.body_Content body) mt)))
      by (intros k; apply writeRequestMedia_returns_iff).
    split; [tauto|]. intros H. split; [apply returns_Done|exact H]. }
  assert (Hresp :
    returns match O.op_Responses op with
            | Some rs =>
                when (0 <? List.length (O.responses_Map rs))%nat
                  (Fprintf (nl ++ "**Responses**" ++ nl) ;;
                   forEach (sort_Strings (keys (O.responses_Map rs)))
                     (writeOpenAPI3Response (O.responses_Map rs)))
            | None => skip
            end
    <-> match O.op_Responses op with
        | Some rs =>
            forallb
              (fun code =>
                 match responseValue (mapIndex None (O.responses_Map rs) code) with
                 | Some r => mediaPresent (O.resp_Content r)
                 | None => true
                 end)
              (keys (O.responses_Map rs))
        | None => true
        end = true).
  { destruct (O.op_Responses op) as [rs|];
      [|split; [reflexivity|intros _; apply returns_Done]].
    apply returns_guarded. rewrite returns_seq_iff.
    rewrite (returns_sorted_keys (O.responses_Map rs) _
               (fun code =>
                  match responseValue (mapIndex None (O.responses_Map rs) code) with
                  | Some r => mediaPresent (O.resp_Content r)
                  | None => true
                  end))
      by (intros k; apply writeOpenAPI3Response_returns_iff).
    split; [tauto|]. intros H. split; [apply returns_Done|exact H]. }
  rewrite Hbody, Hresp. split.
  - tauto.
  - intros [H1 H2]. repeat split; auto; try apply returns_Done.
    + apply returns_when, returns_Done.
    + apply returns_when, returns_Done.
    + apply returns_when. apply returns_seq_iff. split; [apply returns_Done|].
      apply returns_forEach. intros pr. apply writeOpenAPI3Param_returns.
Qed.

Lemma isSome_true_iff {A} (o : option A) : isSome o = true <-> o <> None.
Proof. destruct o; simpl; split; congruence. Qed.

Lemma mediaPresent_iff content :
  mediaPresent content = true
  <-> forall mt, In mt (keys content) -> mapIndex None content mt <> None.
Proof.
  unfold mediaPresent. rewrite forallb_forall.
  split; intros H mt Hmt; apply isSome_true_iff; auto.
Qed.

(** X9.  The OpenAPI 3 operation writer returns exactly when no media type
    it reads is nil: those of the request body and those of every response
    that has a value.  Nil parameters, nil responses and a missing request
    body or responses object are skipped and never make it panic. *)
Theorem openAPI3_operation_returns (method path : string) (pi : O.PathItem)
    (op : O.Operation) :
  returns (writeOpenAPI3Operation method path pi op)
  <-> (forall rb body mt,
         O.op_RequestBody op = Some rb -> O.bodyref_Value rb = Some body ->
         In mt (keys (O.body_Content body)) ->
         mapIndex None (O.body_Content body) mt <> None)
      /\ (forall rs code r mt,
            O.op_Responses op = Some rs ->
            In code (keys (O.responses_Map rs)) ->
            responseValue (mapIndex None (O.responses_Map rs) code) = Some r ->
            In mt (keys (O.resp_Content r)) ->
            mapIndex None (O.resp_Content r) mt <> None).
Proof.
  rewrite writeOpenAPI3Operation_returns_iff. unfold operationMediaPresent.
  rewrite andb_true_iff. split.
  - intros [Hb Hr]. split.
    + intros rb body mt Erb Ebody. rewrite Erb, Ebody in Hb.
      now apply mediaPresent_iff.
    + intros rs code r mt Ers Hcode Er. rewrite Ers in Hr.
      rewrite forallb_forall in Hr. specialize (Hr code Hcode). rewrite Er in Hr.
      now apply mediaPresent_iff.
  - intros [Hb Hr]. split.
    + destruct (O.op_RequestBody op) as [rb|]; [|reflexivity].
      destruct (O.bodyref_Value rb) as [body|] eqn:Ebody; [|reflexivity].
      apply mediaPresent_iff. intros mt. now apply (Hb rb body).
    + destruct (O.op_Responses op) as [rs|]; [|reflexivity].
      apply forallb_forall. intros code Hcode.
      destruct (responseValue (mapIndex None (O.responses_Map rs) code)) as [r|] eqn:Er;
        [|reflexivity].
      apply mediaPresent_iff. intros mt. now apply (Hr rs code r).
Qed.

Lemma returns_bind_deref_iff {A B} (p : option A) (f : A -> M B) :
  returns (bind (deref p) f) <-> exists a, p = Some a /\ returns (f a).
Proof.
  split.
  - intros (b & out & H). apply bind_Done_inv in H as (a & o1 & o2 & H1 & H2 & _).
    destruct p as [a'|]; [|discriminate]. inversion H1; subst.
    exists a. split; [reflexivity|]. now exists b, o2.
  - intros (a & -> & (b & o & H)). exists b, ([] ++ o)%list.
    apply bind_Done with (a := a); [reflexivity|exact H].
Qed.

Lemma returns_deref_then {A B} (p : option A) (f : A -> M B) :
  (forall a, returns (f a)) -> returns (bind (deref p) f) <-> isSome p = true.
Proof.
  intros Hf. rewrite returns_bind_deref_iff. destruct p as [a|]; simpl.
  - split; [reflexivity|]. intros _. exists a. auto.
  - split; [intros (a & E & _); discriminate|discriminate].
Qed.

(** a loop over a slice of pointers whose body reads each of them *)
Lemma returns_pointer_walk {A} (l : list (option A)) body :
  (forall x, returns (body x) <-> isSome x = true) ->
  returns (if (List.length l =? 0)%nat then noneDefined else forEach l body)
  <-> forallb isSome l = true.
Proof.
  intros Hbody. destruct l as [|x l].
  - simpl. split; [reflexivity|]. intros _. apply returns_Done.
  - change (returns (forEach (x :: l) body) <-> forallb isSome (x :: l) = true).
    rewrite returns_forEach_iff, forallb_forall. split; intros H y Hy; apply Hbody; auto.
Qed.

Lemma writeOpenAPI3Server_returns_iff srv :
  returns (writeOpenAPI3Server srv) <-> isSome srv = true.
Proof.
  unfold writeOpenAPI3Server. apply returns_deref_then. intros a. cbv zeta. apply returns_Done.
Qed.

Lemma writeOpenAPI3Security_returns schemes name :
  returns (writeOpenAPI3Security schemes name).
Proof. unfold writeOpenAPI3Security, Fprintln, Fprintf, skip, ret. cbv zeta. steady. Qed.

Lemma writeOpenAPI3Property_returns_iff value pn :
  returns (writeOpenAPI3Property value pn)
  <-> isSome (mapIndex None (O.Properties value) pn) = true.
Proof.
  unfold writeOpenAPI3Property. cbv zeta. apply returns_deref_then.
  intros a. unfold Fprintln, Fprintf. apply returns_Done.
Qed.

Lemma writeOpenAPI3Schema_returns_iff schemas name :
  returns (writeOpenAPI3Schema schemas name) <-> schemaPresent schemas name = true.
Proof.
  unfold writeOpenAPI3Schema, schemaPresent. cbv zeta.
  rewrite returns_seq_iff, returns_bind_deref_iff.
  destruct (mapIndex None schemas name) as [ref|].
  - destruct (O.Value ref) as [value|] eqn:E.
    + rewrite <- (returns_guarded (O.Properties value)
                   (Fprintf ("**Properties**" ++ nl) ;;
                    forEach (sort_Strings (keys (O.Properties value)))
                      (writeOpenAPI3Property value))).
      * split.
        -- intros (_ & a & Ha & H). inversion Ha; subst a. rewrite E in H.
           rewrite !returns_seq_iff in H. tauto.
        -- intros H. split; [apply returns_Done|]. exists ref. split; [reflexivity|].
           rewrite E, !returns_seq_iff. repeat split.
           ++ apply returns_when, returns_Done.
           ++ exact H.
           ++ unfold writeExampleFence, skip, ret. steady.
      * rewrite returns_seq_iff.
        rewrite (returns_sorted_keys (O.Properties value) _
                   (fun pn => isSome (mapIndex None (O.Properties value) pn)))
          by (intros k; apply writeOpenAPI3Property_returns_iff).
        split; [tauto|]. intros H. split; [apply returns_Done|exact H].
    + split; [reflexivity|]. intros _. split; [apply returns_Done|].
      exists ref. split; [reflexivity|]. rewrite E. apply returns_Done.
  - split; [|discriminate]. intros (_ & a & Ha & _). discriminate.
Qed.

Lemma hasExampleLoop_returns_iff content :
  returns (hasExampleLoop content) <-> exampleScan content = true.
Proof.
  induction content as [|[mt [media|]] rest IH]; cbn [hasExampleLoop exampleScan].
  - split; [reflexivity|]. intros _. apply returns_Done.
  - rewrite returns_bind_deref_iff. split.
    + intros (a & Ea & H). inversion Ea; subst a.
      destruct (_ || _); [reflexivity|]. now apply IH.
    + intros H. exists media. split; [reflexivity|].
      destruct (_ || _); [apply returns_Done|]. now apply IH.
  - rewrite returns_bind_deref_iff. split; [|discriminate].
    intros (a & Ea & _). discriminate.
Qed.

Lemma length_zero_nil {A} (l : list A) : (List.length l =? 0)%nat = true -> l = [].
Proof. destruct l; [reflexivity|discriminate]. Qed.

Lemma writeOpenAPI3ExampleNote_returns_iff method p entry :
  returns (writeOpenAPI3ExampleNote method p entry)
  <-> match responseValue (snd entry) with
      | Some r => exampleScan (O.resp_Content r)
      | None => true
      end = true.
Proof.
  unfold writeOpenAPI3ExampleNote.
  destruct (responseValue (snd entry)) as [r|];
    [|split; [reflexivity|intros _; apply returns_Done]].
  destruct (List.length (O.resp_Content r) =? 0)%nat eqn:E.
  - rewrite (length_zero_nil _ E). split; [reflexivity|]. intros _. apply returns_Done.
  - rewrite <- hasExampleLoop_returns_iff. split.
    + intros (u & out & H). apply bind_Done_inv in H as (b & o1 & o2 & H1 & _).
      now exists b, o1.
    + intros H. apply returns_bind; [exact H|]. intros b.
      apply returns_when, returns_Done.
Qed.

(** the Examples section of the OpenAPI 3 walk *)
Lemma openAPI3_examples_returns_iff pathMap :
  returns
    (forEach (sort_Strings (keys pathMap))
       (fun p =>
          pi <- deref (mapIndex None pathMap p) ;;
          forEach (opsOf3 pi)
            (fun it =>
               match snd it with
               | None => skip
               | Some op =>
                   match O.op_Responses op with
                   | None => skip
                   | Some rs =>
                       forEach (O.responses_Map rs) (writeOpenAPI3ExampleNote (fst it) p)
                   end
               end)))
  <-> operationsPass examplesScannable pathMap = true.
Proof.
  unfold operationsPass. apply returns_sorted_keys. intros p.
  rewrite returns_bind_deref_iff.
  destruct (mapIndex None pathMap p) as [pi|];
    [|split; [intros (a & E & _); discriminate|discriminate]].
  rewrite forallb_forall. split.
  - intros (a & Ha & H) it Hit. inversion Ha; subst a.
    rewrite returns_forEach_iff in H. specialize (H it Hit).
    destruct (snd it) as [op|]; [|reflexivity].
    unfold examplesScannable. destruct (O.op_Responses op) as [rs|]; [|reflexivity].
    apply forallb_forall. intros entry Hentry.
    rewrite returns_forEach_iff in H.
    apply (writeOpenAPI3ExampleNote_returns_iff (fst it) p), H, Hentry.
  - intros H. exists pi. split; [reflexivity|].
    apply returns_forEach_iff. intros it Hit. specialize (H it Hit).
    destruct (snd it) as [op|]; [|apply returns_Done].
    unfold examplesScannable in H. destruct (O.op_Responses op) as [rs|]; [|apply returns_Done].
    rewrite forallb_forall in H.
    apply returns_forEach_iff. intros entry Hentry.
    apply writeOpenAPI3ExampleNote_returns_iff, H, Hentry.
Qed.

Lemma openAPI3Buckets_returns_iff pathMap :
  returns (openAPI3Buckets pathMap)
  <-> forall p, In p (keys pathMap) -> isSome (mapIndex None pathMap p) = true.
Proof.
  unfold openAPI3Buckets, groupOps, returns.
  rewrite foldM_group_returns. split.
  - intros H p Hp. destruct (H p) as (pi & o & E).
    + unfold sort_Strings. now apply sortBy_In.
    + destruct (mapIndex None pathMap p); [reflexivity|discriminate].
  - intros H p Hp. unfold sort_Strings in Hp. apply sortBy_In in Hp.
    specialize (H p Hp). destruct (mapIndex None pathMap p) as [pi|]; [|discriminate].
    now exists pi, [].
Qed.

(** the Endpoints section of the OpenAPI 3 walk *)
Lemma openAPI3_endpoints_returns_iff pathMap :
  returns
    (buckets <- openAPI3Buckets pathMap ;;
     let '(tagged, untagged) := buckets in
     forEach (sort_Strings (keys tagged))
       (fun name =>
          Fprintf (nl ++ "### " ++ name ++ nl) ;;
          writeOpenAPI3Refs (mapIndex [] tagged name)) ;;
     when (0 <? List.length untagged)%nat
       (Fprintf (nl ++ "### Untagged" ++ nl) ;;
        writeOpenAPI3Refs untagged))
  <-> operationsPass operationMediaPresent pathMap = true.
Proof.
  unfold operationsPass. rewrite forallb_forall. split.
  - intros (u & out & H) p Hp.
    apply bind_Done_inv in H as ([tagged untagged] & o1 & o2 & Hb & Hw & _).
    assert (Hret : returns (openAPI3Buckets pathMap)) by (now exists (tagged, untagged), o1).
    pose proof (proj1 (openAPI3Buckets_returns_iff pathMap) Hret p Hp) as Hsome.
    destruct (mapIndex None pathMap p) as [pi|] eqn:Epi; [|discriminate].
    apply forallb_forall. intros [m [op|]] Hit; [|reflexivity]. simpl.
    assert (Hin : inBuckets (tagged, untagged)
                    {| Method3 := m; Path3 := p; PathItem3 := pi; Op3 := op |}).
    { unfold openAPI3Buckets in Hb. apply (groupOps_members _ _ _ _ _ _ _ _ _ _ Hb).
      exists p, pi, [], m, op. repeat split.
      - unfold sort_Strings. now apply sortBy_In.
      - now rewrite Epi.
      - exact Hit. }
    assert (Hw' : returns
                    (forEach (sort_Strings (keys tagged))
                       (fun name =>
                          Fprintf (nl ++ "### " ++ name ++ nl) ;;
                          writeOpenAPI3Refs (mapIndex [] tagged name)) ;;
                     when (0 <? List.length untagged)%nat
                       (Fprintf (nl ++ "### Untagged" ++ nl) ;;
                        writeOpenAPI3Refs untagged))) by (now exists u, o2).
    apply returns_seq_iff in Hw' as [Ht Hu].
    apply (writeOpenAPI3Operation_returns_iff m p pi).
    destruct Hin as [Hin|[t Hin]]; simpl in Hin.
    + rewrite returns_when_iff in Hu.
      assert (Hne : (0 <? List.length untagged)%nat = true)
        by (destruct untagged; [destruct Hin|reflexivity]).
      apply Hu in Hne. apply returns_seq_iff in Hne as [_ Hne].
      unfold writeOpenAPI3Refs in Hne. rewrite returns_forEach_iff in Hne.
      exact (Hne _ Hin).
    + rewrite returns_forEach_iff in Ht.
      assert (Hk : In t (sort_Strings (keys tagged))).
      { unfold sort_Strings. apply sortBy_In. exact (mapIndex_In_keys _ _ _ Hin). }
      apply Ht in Hk. apply returns_seq_iff in Hk as [_ Hk].
      unfold writeOpenAPI3Refs in Hk. rewrite returns_forEach_iff in Hk.
      exact (Hk _ Hin).
  - intros H.
    assert (Hb : returns (openAPI3Buckets pathMap)).
    { apply openAPI3Buckets_returns_iff. intros p Hp. specialize (H p Hp).
      destruct (mapIndex None pathMap p); [reflexivity|discriminate]. }
    destruct Hb as ([tagged untagged] & o1 & Hb).
    assert (Hop : forall ref, inBuckets (tagged, untagged) ref ->
              returns (writeOpenAPI3Operation (Method3 ref) (Path3 ref) (PathItem3 ref)
                         (Op3 ref))).
    { intros ref Hin. unfold openAPI3Buckets in Hb.
      apply (groupOps_members _ _ _ _ _ _ _ _ _ _ Hb) in Hin
        as (p & pi & o & m & op & Hp & Hl & Hit & ->).
      simpl. apply writeOpenAPI3Operation_returns_iff.
      unfold sort_Strings in Hp. apply sortBy_In in Hp. specialize (H p Hp).
      destruct (mapIndex None pathMap p) as [pi'|]; [|discriminate].
      inversion Hl; subst pi'. rewrite forallb_forall in H. exact (H _ Hit). }
    assert (Hw : returns
                   (forEach (sort_Strings (keys tagged))
                      (fun name =>
                         Fprintf (nl ++ "### " ++ name ++ nl) ;;
                         writeOpenAPI3Refs (mapIndex [] tagged name)) ;;
                    when (0 <? List.length untagged)%nat
                      (Fprintf (nl ++ "### Untagged" ++ nl) ;;
                       writeOpenAPI3Refs untagged))).
    { apply returns_seq_iff. split.
      - apply returns_forEach. intros name. apply returns_seq_iff.
        split; [apply returns_Done|]. unfold writeOpenAPI3Refs.
        apply returns_forEach_iff. intros ref Hin. apply Hop. right. now exists name.
      - apply returns_when. apply returns_seq_iff. split; [apply returns_Done|].
        unfold writeOpenAPI3Refs. apply returns_forEach_iff. intros ref Hin.
        apply Hop. now left. }
    destruct Hw as (u & o2 & Hw). exists u, (o1 ++ o2)%list.
    apply bind_Done with (a := (tagged, untagged)); [exact Hb|exact Hw].
Qed.

(** X10.  The OpenAPI 3 walk returns exactly for the documents that have a
    components object, no nil server or tag, and, when there is a paths
    object, no nil path item, no nil media type in a request body or in a
    response that has a value, and no nil media type that the scan of the
    Examples section reads; every schema of the components must be there
    together with each property of its value.  Everything else the walk
    reads may be missing. *)
Theorem openAPI3_walk_returns (doc : O.T) :
  returns (openAPI3Render doc) <-> openAPI3Walkable doc = true.
Proof.
  unfold openAPI3Render, openAPI3Walkable. cbv zeta.
  rewrite !returns_seq_iff, returns_bind_deref_iff.
  destruct (O.t_Components doc) as [components|];
    [|split; [intros (_ & _ & _ & _ & _ & _ & a & E & _); discriminate|discriminate]].
  rewrite !andb_true_iff.
  rewrite <- (returns_pointer_walk (O.t_Servers doc) writeOpenAPI3Server)
    by apply writeOpenAPI3Server_returns_iff.
  rewrite <- (returns_pointer_walk (O.t_Tags doc)
                (fun t => t <- deref t ;; writeTagLine (O.tag_Name t) (O.tag_Description t)))
    by (intros t; apply returns_deref_then; intros a; apply writeTagLine_returns).
  rewrite <- (returns_guarded (O.comp_Schemas components)
               (Fprintf (nl ++ "## Schemas" ++ nl) ;;
                forEach (sort_Strings (keys (O.comp_Schemas components)))
                  (writeOpenAPI3Schema (O.comp_Schemas components)))
               (schemaPresent (O.comp_Schemas components))).
  2:{ rewrite returns_seq_iff.
      rewrite (returns_sorted_keys (O.comp_Schemas components) _
                 (schemaPresent (O.comp_Schemas components)))
        by (intros k; apply writeOpenAPI3Schema_returns_iff).
      split; [tauto|]. intros H. split; [apply returns_Done|exact H]. }
  split.
  - intros (_ & _ & _ & _ & _ & _ & a & Ea & H). inversion Ea; subst a.
    rewrite !returns_seq_iff in H.
    destruct H as (_ & _ & Hsrv & _ & Htags & _ & Hend & Hsch & _ & Hex).
    repeat split; auto.
    destruct (O.t_Paths doc) as [P|]; [|reflexivity].
    apply andb_true_iff. split.
    + now apply openAPI3_endpoints_returns_iff.
    + now apply openAPI3_examples_returns_iff.
  - intros [[[Hsrv Htags] Hpaths] Hsch].
    do 3 (split; [apply returns_Done|]).
    split; [apply returns_when, returns_Done|].
    split; [unfold skip, ret; steady|].
    split; [apply returns_Done|].
    exists components. split; [reflexivity|].
    rewrite !returns_seq_iff.
    split.
    { destruct (List.length (O.comp_SecuritySchemes components) =? 0)%nat;
        [apply returns_Done|].
      apply returns_forEach. intros name. apply writeOpenAPI3Security_returns. }
    split; [apply returns_Done|]. split; [exact Hsrv|].
    split; [apply returns_Done|]. split; [exact Htags|].
    split; [apply returns_Done|].
    split.
    { destruct (O.t_Paths doc) as [P|]; [|apply returns_Done].
      apply andb_true_iff in Hpaths as [Hend _].
      now apply openAPI3_endpoints_returns_iff. }
    split; [exact Hsch|]. split; [apply returns_Done|].
    destruct (O.t_Paths doc) as [P|]; [|apply returns_Done].
    apply andb_true_iff in Hpaths as [_ Hex].
    now apply openAPI3_examples_returns_iff.
Qed.

(** *** The order of the map entries *)

Lemma seq_cong {A B} (m m' : M A) (k k' : M B) :
  m = m' -> k = k' -> (m ;; k) = (m' ;; k').
Proof. now intros -> ->. Qed.

Lemma bind_Done_cong {A B} (a : A) o (f f' : A -> M B) :
  f a = f' a -> bind (Done a o) f = bind (Done a o) f'.
Proof. intros H. unfold bind. now rewrite H. Qed.

Lemma mapIndex_same {V} (zero : V) (m m' : gomap V) k :
  sameMap m m' -> mapIndex zero m k = mapIndex zero m' k.
Proof. intros [Hp Hnd]. unfold mapIndex. now rewrite (mapGet_perm m m' k Hp Hnd). Qed.

Lemma sorted_keys_same {V} (m m' : gomap V) :
  sameMap m m' -> sort_Strings (keys m) = sort_Strings (keys m').
Proof.
  intros [Hp _]. apply sort_Strings_canonical. unfold keys. now apply Permutation_map.
Qed.

Lemma length_same {V} (m m' : gomap V) : sameMap m m' -> List.length m = List.length m'.
Proof. intros [Hp _]. now apply Permutation_length. Qed.

Lemma foldM_ext {A S} (l : list A) (f g : S -> A -> M S) acc :
  (forall s x, f s x = g s x) -> foldM l f acc = foldM l g acc.
Proof.
  intros H. revert acc. induction l as [|x l IH]; intros acc; simpl; [reflexivity|].
  rewrite H. destruct (g acc x) as [a o|r]; simpl; [|reflexivity].
  unfold bind. now rewrite IH.
Qed.

Lemma openAPI3Buckets_same pathMap pathMap' :
  sameMap pathMap pathMap' -> openAPI3Buckets pathMap = openAPI3Buckets pathMap'.
Proof.
  intros H. unfold openAPI3Buckets, groupOps. rewrite (sorted_keys_same _ _ H).
  apply foldM_ext. intros acc p. now rewrite (mapIndex_same None _ _ p H).
Qed.

Lemma swagger2Buckets_same P P' :
  sameMap (paths_Paths P) (paths_Paths P') -> swagger2Buckets P = swagger2Buckets P'.
Proof.
  intros H. unfold swagger2Buckets, groupOps. rewrite (sorted_keys_same _ _ H).
  apply foldM_ext. intros acc p. now rewrite (mapIndex_same zeroPathItem _ _ p H).
Qed.

(** X12.  The OpenAPI 3 walk writes the same chunks whatever the order in
    which the runtime ranges over the security schemes, the schemas and the
    paths of the document: it sorts the keys of these three maps before it
    walks them. *)
Theorem openAPI3_map_order_independent (doc doc' : O.T) :
  sameDocument3 doc doc' -> openAPI3Render doc = openAPI3Render doc'.
Proof.
  intros (Ho & Hi & Hs & Ht & Hc & Hp). unfold openAPI3Render. cbv zeta.
  rewrite <- Ho, <- Hi, <- Hs, <- Ht.
  do 6 (apply seq_cong; [reflexivity|]).
  destruct (O.t_Components doc) as [c|], (O.t_Components doc') as [c'|];
    try contradiction; [|reflexivity].
  destruct Hc as [Hsec Hsch].
  cbn [deref]. rewrite !bind_ret.
  apply seq_cong.
  { rewrite (length_same _ _ Hsec), (sorted_keys_same _ _ Hsec).
    destruct (_ =? _)%nat; [reflexivity|].
    apply forEach_ext. intros name _. unfold writeOpenAPI3Security.
    now rewrite (mapIndex_same None _ _ name Hsec). }
  do 5 (apply seq_cong; [reflexivity|]).
  apply seq_cong.
  { destruct (O.t_Paths doc) as [P|], (O.t_Paths doc') as [P'|];
      try contradiction; [|reflexivity].
    now rewrite (openAPI3Buckets_same _ _ Hp). }
  apply seq_cong.
  { rewrite (length_same _ _ Hsch), (sorted_keys_same _ _ Hsch).
    f_equal. apply seq_cong; [reflexivity|].
    apply forEach_ext. intros name _. unfold writeOpenAPI3Schema. cbv zeta.
    now rewrite (mapIndex_same None _ _ name Hsch). }
  apply seq_cong; [reflexivity|].
  destruct (O.t_Paths doc) as [P|], (O.t_Paths doc') as [P'|];
    try contradiction; [|reflexivity].
  rewrite (sorted_keys_same _ _ Hp).
  apply forEach_ext. intros p _. now rewrite (mapIndex_same None _ _ p Hp).
Qed.

(** X13.  The Swagger 2.0 walk writes the same chunks whatever the order in
    which the runtime ranges over the definitions and the paths of the
    document, as long as the security definitions and the responses are
    ranged over in the same order. *)
Theorem swagger2_map_order_independent (s s' : Swagger) :
  sameDocument2 s s' -> swagger2Render s = swagger2Render s'.
Proof.
  intros (Hi & Hsec & Hsc & Hh & Hb & Ht & Hpr & Hco & Hd & Hp).
  unfold swagger2Render, writeSwagger2Refs. cbv zeta.
  rewrite <- Hi, <- Hsec, <- Hsc, <- Hh, <- Hb, <- Ht, <- Hpr, <- Hco.
  do 11 (apply seq_cong; [reflexivity|]).
  destruct (sw_Paths s) as [P|], (sw_Paths s') as [P'|]; try contradiction; [|reflexivity].
  cbn [deref]. rewrite !bind_ret.
  rewrite (swagger2Buckets_same _ _ Hp).
  destruct (swagger2Buckets P') as [[tagged untagged] o|r]; [|reflexivity].
  apply bind_Done_cong.
  do 2 (apply seq_cong; [reflexivity|]).
  apply seq_cong.
  { rewrite (length_same _ _ Hd), (sorted_keys_same _ _ Hd).
    f_equal. apply seq_cong; [reflexivity|].
    apply forEach_ext. intros name _. unfold writeSwagger2Definition. cbv zeta.
    now rewrite (mapIndex_same zeroSchema _ _ name Hd). }
  apply seq_cong; [reflexivity|].
  rewrite (sorted_keys_same _ _ Hp).
  apply forEach_ext. intros p _. now rewrite (mapIndex_same zeroPathItem _ _ p Hp).
Qed.

(** *** More example fences *)

Lemma intMapGet_In_keys {V} (m : list (Z * V)) k v : intMapGet m k = Some v -> In k (keys m).
Proof.
  induction m as [|[k' v'] m IH]; simpl; [discriminate|].
  destruct (Z.eqb_spec k k') as [->|]; auto.
Qed.

Lemma In_keys_nonempty {K V} (m : list (K * V)) k :
  In k (keys m) -> (0 <? List.length m)%nat = true.
Proof. destruct m; [intros []|reflexivity]. Qed.

(** X17.  When the Swagger 2.0 operation writer returns, every entry of the
    examples of every status-code response is handed to the example fence,
    under the label [Response example (<status>, <media-type>)] and with the
    media type as the language of the fence. *)
Theorem swagger2_response_example_labels method path op globalProduces globalConsumes out
    rs code r mt :
  writeSwagger2Operation method path op globalProduces globalConsumes = Done tt out ->
  op_Responses op = Some rs ->
  intMapGet (StatusCodeResponses rs) code = Some r ->
  In mt (keys (resp_Examples r)) ->
  In (Fence ("Response example (" ++ itoa code ++ ", " ++ mt ++ ")") mt
        (mapIndex None (resp_Examples r) mt)) out.
Proof.
  intros H Hrs Hcode Hmt. unfold writeSwagger2Operation in H. cbv zeta in H.
  do 8 (apply bind_tail in H as (? & H & ?)).
  rewrite Hrs in H.
  rewrite (In_keys_nonempty _ _ (intMapGet_In_keys _ _ _ Hcode)) in H.
  cbn [orb] in H. rewrite when_true in H.
  apply bind_tail in H as (oa & Ea & Ia).
  apply bind_Done_inv in Ea as ([] & ob & oc & Eb & _ & ->).
  destruct (forEach_In code Eb) as (od & Ed & Id).
  { unfold sort_Ints. apply sortBy_In. exact (intMapGet_In_keys _ _ _ Hcode). }
  unfold writeSwagger2StatusResponse in Ed. rewrite Hcode in Ed. cbv zeta in Ed.
  apply bind_tail in Ed as (oe & Ee & Ie).
  rewrite (In_keys_nonempty _ _ Hmt), when_true in Ee.
  destruct (forEach_In mt Ee) as (og & Eg & Ig).
  { unfold sort_Strings. apply sortBy_In. exact Hmt. }
  unfold writeExampleFence in Eg. inversion Eg; subst og.
  assert (Hout : incl oe out).
  { eapply incl_tran; [exact Ie|]. eapply incl_tran; [exact Id|].
    eapply incl_tran; [apply incl_appl, incl_refl|].
    repeat (eapply incl_tran; [eassumption|]). apply incl_refl. }
  apply Hout, Ig. now left.
Qed.

(** X18.  When the OpenAPI 3 operation writer returns, the inline example of
    a media type of the request body is handed to the example fence under the
    label [Request example (<media-type>)], and every named example under
    [Request example (<name>, <media-type>)]. *)
Theorem request_body_example_labels method path pi op out rb body mt media :
  writeOpenAPI3Operation method path pi op = Done tt out ->
  O.op_RequestBody op = Some rb ->
  O.bodyref_Value rb = Some body ->
  mapGet (O.body_Content body) mt = Some (Some media) ->
  (forall v,
      O.media_Example media = Some v ->
      In (Fence ("Request example (" ++ mt ++ ")") mt (Some v)) out)
  /\ (forall name exRef e v,
         mapGet (O.media_Examples media) name = Some (Some exRef) ->
         O.exref_Value exRef = Some e -> O.ex_Value e = Some v ->
         In (Fence ("Request example (" ++ name ++ ", " ++ mt ++ ")") mt (Some v)) out).
Proof.
  intros H Hrb Hbody Hmt. unfold writeOpenAPI3Operation in H. cbv zeta in H.
  do 4 (apply bind_tail in H as (? & H & ?)).
  apply bind_Done_inv in H as ([] & oa & ob & Ea & _ & ->).
  rewrite Hrb, Hbody in Ea. rewrite (mapGet_nonempty Hmt), when_true in Ea.
  apply bind_tail in Ea as (oc & Ec & Ic).
  destruct (forEach_In mt Ec) as (od & Ed & Id).
  { apply sortBy_In. exact (mapGet_In_keys Hmt). }
  unfold writeRequestMedia in Ed.
  rewrite (mapIndex_get None Hmt) in Ed. simpl deref in Ed. rewrite bind_ret in Ed.
  apply bind_tail in Ed as (oe & Ee & Ie).
  destruct (writeMediaExamples_fences _ _ _ _ _ Ee) as [Hanon Hnamed].
  assert (Hout : incl oe out).
  { eapply incl_tran; [exact Ie|]. eapply incl_tran; [exact Id|].
    eapply incl_tran; [exact Ic|]. eapply incl_tran; [apply incl_appl, incl_refl|].
    repeat (eapply incl_tran; [eassumption|]). apply incl_refl. }
  split.
  - intros v Hv. apply Hout. now apply Hanon.
  - intros name exRef e v Hex He Hv. apply Hout.
    apply (Hnamed name (Some exRef) v Hex). simpl. now rewrite He.
Qed.

(** *** The Endpoints section, group by group *)

Local Abbreviation block2 := (block2 Sprint TrimSpace).
Local Abbreviation block3 := (block3 Sprint TrimSpace).

Lemma forEach_outputs {A} (l : list A) body (w : A -> Buffer) u out :
  forEach l body = Done u out ->
  (forall x o, In x l -> body x = Done tt o -> o = w x) ->
  out = flat_map w l.
Proof.
  revert u out. induction l as [|x l IH]; intros u out H Hw.
  - simpl in H. now inversion H.
  - apply forEach_cons_inv in H as (o1 & o2 & H1 & H2 & ->). simpl.
    rewrite (Hw x o1 (or_introl eq_refl) H1).
    rewrite (IH _ _ H2); [reflexivity|].
    intros y o Hy. apply Hw. now right.
Qed.

Lemma outputOf_Done (m : M unit) o : m = Done tt o -> o = outputOf m.
Proof. now intros ->. Qed.

Lemma upToHeading_app E after :
  headingsOf E = [] -> upToHeading (E ++ after)%list = (E ++ upToHeading after)%list.
Proof.
  unfold headingsOf. induction E as [|c E IH]; simpl; intros H; [reflexivity|].
  destruct (isSectionHeading c); [discriminate|]. now rewrite IH.
Qed.

Lemma sectionOf_skip name pre rest :
  filter (isHeadingOf name) pre = [] ->
  sectionOf name (pre ++ rest)%list = sectionOf name rest.
Proof.
  induction pre as [|c pre IH]; simpl; intros H; [reflexivity|].
  destruct (isHeadingOf name c); [discriminate|]. now apply IH.
Qed.

Lemma isHeadingOf_section name c :
  In name sectionNames -> isHeadingOf name c = true -> isSectionHeading c = true.
Proof.
  intros Hin H. destruct c as [s|]; [|discriminate]. unfold isHeadingOf in H.
  unfold isSectionHeading. apply existsb_exists. exists name. split; [exact Hin|].
  destruct (sectionHeading name); [exact H|discriminate].
Qed.

Lemma no_heading_of name o :
  In name sectionNames -> headingsOf o = [] -> filter (isHeadingOf name) o = [].
Proof.
  intros Hin. unfold headingsOf. induction o as [|c o IH]; simpl; intros H; [reflexivity|].
  destruct (isSectionHeading c) eqn:E; [discriminate|].
  destruct (isHeadingOf name c) eqn:E'; [|now apply IH].
  rewrite (isHeadingOf_section name c Hin E') in E. discriminate.
Qed.

Lemma endpoints_in_names : In "Endpoints by Tag" sectionNames.
Proof. simpl. tauto. Qed.

Lemma title_not_endpoints x :
  filter (isHeadingOf "Endpoints by Tag") [Raw ("# " ++ x)] = [].
Proof. vm_compute. reflexivity. Qed.

Lemma version_not_endpoints x :
  filter (isHeadingOf "Endpoints by Tag") [Raw ("- Version: " ++ x)] = [].
Proof. vm_compute. reflexivity. Qed.

(** the blocks of the references of a bucket *)
Lemma writeSwagger2Refs_outputs s refs u out :
  writeSwagger2Refs s refs = Done u out -> out = flat_map (block2 s) refs.
Proof.
  unfold writeSwagger2Refs. intros H. apply (forEach_outputs _ _ _ _ _ H).
  intros r o _ Hr. unfold block2. now rewrite Hr.
Qed.

Lemma writeOpenAPI3Refs_outputs refs u out :
  writeOpenAPI3Refs refs = Done u out -> out = flat_map block3 refs.
Proof.
  unfold writeOpenAPI3Refs. intros H. apply (forEach_outputs _ _ _ _ _ H).
  intros r o _ Hr. unfold block3. now rewrite Hr.
Qed.

(** what the two printing loops write for the buckets [tagged] and [untagged] *)
Lemma groups_written {R} (writeRefs : list R -> M unit) (block : R -> Buffer)
    (tagged : gomap (list R)) (untagged : list R) u1 o1 u2 o2 :
  (forall refs u out, writeRefs refs = Done u out -> out = flat_map block refs) ->
  forEach (sort_Strings (keys tagged))
    (fun name => Fprintf (nl ++ "### " ++ name ++ nl) ;; writeRefs (mapIndex [] tagged name))
  = Done u1 o1 ->
  when (0 <? List.length untagged)%nat
    (Fprintf (nl ++ "### Untagged" ++ nl) ;; writeRefs untagged) = Done u2 o2 ->
  (o1 ++ o2)%list
  = (flat_map (fun t => tagHeading t :: flat_map block (mapIndex [] tagged t))
       (sort_Strings (keys tagged))
     ++ match untagged with
        | [] => []
        | _ => tagHeading "Untagged" :: flat_map block untagged
        end)%list.
Proof.
  intros Hw H1 H2. apply f_equal2.
  - apply (forEach_outputs _ _ _ _ _ H1). intros name o _ Ho.
    apply bind_Done_inv in Ho as (a & oa & ob & Ha & Hb & ->).
    apply Fprintf_inv in Ha. subst oa. now rewrite (Hw _ _ _ Hb).
  - destruct untagged as [|r untagged].
    + now inversion H2.
    + cbn [List.length Nat.ltb Nat.leb] in H2. rewrite when_true in H2.
      apply bind_Done_inv in H2 as (a & oa & ob & Ha & Hb & ->).
      apply Fprintf_inv in Ha. subst oa. now rewrite (Hw _ _ _ Hb).
Qed.

(** the groups of the buckets are the groups of [endpointsBy] *)
Lemma groups_of_buckets {R} (refTags : R -> list string) (block : R -> Buffer)
    (refs : list R) (tagged : gomap (list R)) (untagged : list R) :
  untagged = filter (fun r => (List.length (refTags r) =? 0)%nat) refs ->
  (forall t,
      mapIndex [] tagged t
      = flat_map (fun r => repeat r (count_occ string_dec (refTags r) t)) refs) ->
  (forall t, In t (keys tagged) <-> exists r, In r refs /\ In t (refTags r)) ->
  NoDup (keys tagged) ->
  (flat_map (fun t => tagHeading t :: flat_map block (mapIndex [] tagged t))
     (sort_Strings (keys tagged))
   ++ match untagged with
      | [] => []
      | _ => tagHeading "Untagged" :: flat_map block untagged
      end)%list
  = endpointsBy refTags block refs.
Proof.
  intros Hu Ht Hk Hnd. unfold endpointsBy, underTag, withoutTags.
  rewrite (tag_names_of_keys refTags refs (keys tagged) Hnd Hk), <- Hu.
  apply f_equal2; [|now destruct untagged].
  apply flat_map_ext. intros t. now rewrite Ht.
Qed.

Lemma swagger2_endpoints s P b :
  swagger2Render s = Done tt b -> sw_Paths s = Some P ->
  sectionOf "Endpoints by Tag" b
  = endpointsBy (fun r => op_Tags (Op2 r)) (block2 s) (operations2 P).
Proof.
  unfold swagger2Render. cbv zeta. intros H HP.
  next H o1 H1. next H o2 H2. next H o3 H3. next H o4 H4. next H o5 H5.
  next H o6 H6. next H o7 H7. next H o8 H8. next H o9 H9. next H o10 H10.
  next H o11 H11. next H o12 H12. next H o13 H13. destruct a11 as [tagged untagged].
  next H o14 H14. next H o15 H15. next H o16 H16. next H o17 H17.
  apply Fprintf_inv in H1, H2, H3, H5, H7, H9, H11, H17. subst o1 o2 o3 o5 o7 o9 o11 o17.
  rewrite HP in H12. inversion H12; subst a10 o12.
  assert (Q4 : headingsOf o4 = []) by (eapply silent_elim; [exact H4|quiet]).
  assert (Q6 : headingsOf o6 = []).
  { eapply silent_elim; [exact H6|].
    destruct (List.length (sw_SecurityDefinitions s) =? 0)%nat; [apply noneDefined_quiet|].
    apply silent_forEach. intros x. apply writeSwagger2Security_quiet. }
  assert (Q8 : headingsOf o8 = []).
  { eapply silent_elim; [exact H8|]. destruct (negb _); [quiet|apply noneDefined_quiet]. }
  assert (Q10 : headingsOf o10 = []).
  { eapply silent_elim; [exact H10|].
    destruct (List.length (sw_Tags s) =? 0)%nat; [apply noneDefined_quiet|].
    apply silent_forEach. intros x. apply writeTagLine_quiet. }
  assert (Q14 : headingsOf o14 = []).
  { eapply silent_elim; [exact H14|]. apply silent_forEach. intros name.
    apply silent_bind; [quiet|]. intros _. apply writeSwagger2Refs_quiet. }
  assert (Q15 : headingsOf o15 = []).
  { eapply silent_elim; [exact H15|]. apply silent_when.
    apply silent_bind; [quiet|]. intros _. apply writeSwagger2Refs_quiet. }
  assert (Q16 : upToHeading (o16 ++ [Raw (nl ++ "## Examples" ++ nl)] ++ r)%list = []).
  { destruct (0 <? List.length (sw_Definitions s))%nat.
    - rewrite when_true in H16.
      apply bind_Done_inv in H16 as (? & oa & ob & Ha & _ & ->).
      apply Fprintf_inv in Ha. subst oa. reflexivity.
    - inversion H16. reflexivity. }
  destruct (swagger2Buckets_exact _ _ _ _ H13) as (Hu & Ht & Hk).
  unfold swagger2Buckets in H13.
  destruct (groupOps_keys _ _ _ _ _ _ _ _ _ _ _ H13) as [Hnd Hout].
  assert (E13 : o13 = []) by (apply Hout; intros p pi o Hl; now inversion Hl).
  subst o13.
  rewrite (sectionOf_skip _ [Raw _]) by apply title_not_endpoints.
  rewrite (sectionOf_skip _ [Raw _]) by (vm_compute; reflexivity).
  rewrite (sectionOf_skip _ [Raw _]) by apply version_not_endpoints.
  rewrite (sectionOf_skip _ o4) by (apply no_heading_of; [apply endpoints_in_names|exact Q4]).
  rewrite (sectionOf_skip _ [Raw _]) by (vm_compute; reflexivity).
  rewrite (sectionOf_skip _ o6) by (apply no_heading_of; [apply endpoints_in_names|exact Q6]).
  rewrite (sectionOf_skip _ [Raw _]) by (vm_compute; reflexivity).
  rewrite (sectionOf_skip _ o8) by (apply no_heading_of; [apply endpoints_in_names|exact Q8]).
  rewrite (sectionOf_skip _ [Raw _]) by (vm_compute; reflexivity).
  rewrite (sectionOf_skip _ o10) by (apply no_heading_of; [apply endpoints_in_names|exact Q10]).
  change (sectionOf "Endpoints by Tag"
            ([Raw (nl ++ "## Endpoints by Tag" ++ nl)] ++ [] ++ [] ++ o14 ++ o15
             ++ o16 ++ [Raw (nl ++ "## Examples" ++ nl)] ++ r)%list)
    with (upToHeading (o14 ++ o15 ++ o16 ++ [Raw (nl ++ "## Examples" ++ nl)] ++ r)%list).
  rewrite (upToHeading_app o14) by exact Q14.
  rewrite (upToHeading_app o15) by exact Q15.
  rewrite Q16, app_nil_r.
  rewrite (groups_written (writeSwagger2Refs s) (block2 s) tagged untagged _ _ _ _
             (writeSwagger2Refs_outputs s) H14 H15).
  exact (groups_of_buckets (fun r => op_Tags (Op2 r)) (block2 s) _ tagged untagged
           Hu Ht Hk Hnd).
Qed.

Lemma openAPI3_endpoints doc P b :
  openAPI3Render doc = Done tt b -> O.t_Paths doc = Some P ->
  sectionOf "Endpoints by Tag" b
  = endpointsBy (fun r => O.op_Tags (Op3 r)) block3 (operations3 (O.paths_Map P))
  /\ operationsPass operationMediaPresent (O.paths_Map P) = true
  /\ exists tagged untagged out,
       openAPI3Buckets (O.paths_Map P) = Done (tagged, untagged) out.
Proof.
  unfold openAPI3Render. cbv zeta. intros H HP.
  next H o1 H1. next H o2 H2. next H o3 H3. next H o4 H4. next H o5 H5.
  next H o6 H6. next H o7 H7. rename a5 into components.
  next H o8 H8. next H o9 H9. next H o10 H10. next H o11 H11. next H o12 H12.
  next H o13 H13. next H o14 H14. next H o15 H15.
  apply bind_Done_inv in H as (? & o16 & rest & H16 & H & ->).
  apply Fprintf_inv in H1, H2, H3, H6, H9, H11, H13, H16.
  subst o1 o2 o3 o6 o9 o11 o13 o16.
  assert (Hc : o7 = []) by (destruct (O.t_Components doc); now inversion H7).
  subst o7.
  assert (Q4 : headingsOf o4 = []) by (eapply silent_elim; [exact H4|quiet]).
  assert (Q5 : headingsOf o5 = []) by (eapply silent_elim; [exact H5|quiet]).
  assert (Q8 : headingsOf o8 = []).
  { eapply silent_elim; [exact H8|].
    destruct (List.length (O.comp_SecuritySchemes components) =? 0)%nat;
      [apply noneDefined_quiet|].
    apply silent_forEach. intros e. apply writeOpenAPI3Security_quiet. }
  assert (Q10 : headingsOf o10 = []).
  { eapply silent_elim; [exact H10|].
    destruct (List.length (O.t_Servers doc) =? 0)%nat; [apply noneDefined_quiet|].
    apply silent_forEach. intros e. apply writeOpenAPI3Server_quiet. }
  assert (Q12 : headingsOf o12 = []).
  { eapply silent_elim; [exact H12|].
    destruct (List.length (O.t_Tags doc) =? 0)%nat; [apply noneDefined_quiet|].
    apply silent_forEach. intros e. apply silent_bind; [apply silent_deref|].
    intros t. apply writeTagLine_quiet. }
  assert (Q15 : upToHeading (o15 ++ [Raw (nl ++ "## Examples" ++ nl)] ++ rest)%list = []).
  { destruct (0 <? List.length (O.comp_Schemas components))%nat.
    - rewrite when_true in H15.
      apply bind_Done_inv in H15 as (? & oa & ob & Ha & _ & ->).
      apply Fprintf_inv in Ha. subst oa. reflexivity.
    - inversion H15. reflexivity. }
  rewrite HP in H14.
  assert (Hpass : operationsPass operationMediaPresent (O.paths_Map P) = true).
  { apply openAPI3_endpoints_returns_iff. eexists. exists o14. exact H14. }
  apply bind_Done_inv in H14 as ([tagged untagged] & ob & og & Hb & Hg & ->).
  apply bind_Done_inv in Hg as (? & og1 & og2 & Hg1 & Hg2 & ->).
  assert (Q14a : headingsOf og1 = []).
  { eapply silent_elim; [exact Hg1|]. apply silent_forEach. intros name.
    apply silent_bind; [quiet|]. intros _. apply writeOpenAPI3Refs_quiet. }
  assert (Q14b : headingsOf og2 = []).
  { eapply silent_elim; [exact Hg2|]. apply silent_when.
    apply silent_bind; [quiet|]. intros _. apply writeOpenAPI3Refs_quiet. }
  destruct (openAPI3Buckets_exact _ _ _ _ Hb) as (Hu & Ht & Hk).
  split; [|split; [exact Hpass|now exists tagged, untagged, ob]].
  unfold openAPI3Buckets in Hb.
  destruct (groupOps_keys _ _ _ _ _ _ _ _ _ _ _ Hb) as [Hnd Hout].
  assert (Eb : ob = []).
  { apply Hout. intros p pi o Hl.
    destruct (mapIndex None (O.paths_Map P) p); now inversion Hl. }
  subst ob.
  rewrite (sectionOf_skip _ [Raw _]) by apply title_not_endpoints.
  rewrite (sectionOf_skip _ [Raw _]) by (vm_compute; reflexivity).
  rewrite (sectionOf_skip _ [Raw _]) by apply version_not_endpoints.
  rewrite (sectionOf_skip _ o4) by (apply no_heading_of; [apply endpoints_in_names|exact Q4]).
  rewrite (sectionOf_skip _ o5) by (apply no_heading_of; [apply endpoints_in_names|exact Q5]).
  rewrite (sectionOf_skip _ [Raw _]) by (vm_compute; reflexivity).
  rewrite (sectionOf_skip _ []) by reflexivity.
  rewrite (sectionOf_skip _ o8) by (apply no_heading_of; [apply endpoints_in_names|exact Q8]).
  rewrite (sectionOf_skip _ [Raw _]) by (vm_compute; reflexivity).
  rewrite (sectionOf_skip _ o10) by (apply no_heading_of; [apply endpoints_in_names|exact Q10]).
  rewrite (sectionOf_skip _ [Raw _]) by (vm_compute; reflexivity).
  rewrite (sectionOf_skip _ o12) by (apply no_heading_of; [apply endpoints_in_names|exact Q12]).
  change (sectionOf "Endpoints by Tag"
            ([Raw (nl ++ "## Endpoints by Tag" ++ nl)] ++ ([] ++ og1 ++ og2)
             ++ o15 ++ [Raw (nl ++ "## Examples" ++ nl)] ++ rest)%list)
    with (upToHeading ((og1 ++ og2) ++ o15 ++ [Raw (nl ++ "## Examples" ++ nl)] ++ rest)%list).
  rewrite <- app_assoc.
  rewrite (upToHeading_app og1) by exact Q14a.
  rewrite (upToHeading_app og2) by exact Q14b.
  rewrite Q15, app_nil_r.
  rewrite (groups_written writeOpenAPI3Refs block3 tagged untagged _ _ _ _
             writeOpenAPI3Refs_outputs Hg1 Hg2).
  exact (groups_of_buckets (fun r => O.op_Tags (Op3 r)) block3 _ tagged untagged
           Hu Ht Hk Hnd).
Qed.

Lemma writeSwagger2Operation_heading method path op gp gc :
  exists rest,
    outputOf (writeSwagger2Operation method path op gp gc)
    = operationHeading method path :: rest.
Proof.
  destruct (writeSwagger2Operation_returns method path op gp gc) as (u & out & E).
  rewrite E. unfold writeSwagger2Operation in E. cbv zeta in E.
  apply bind_Done_inv in E as (a & o1 & o2 & H1 & _ & ->).
  apply Fprintf_inv in H1. subst o1. now exists o2.
Qed.

Lemma writeOpenAPI3Operation_heading method path pi op :
  returns (writeOpenAPI3Operation method path pi op) ->
  exists rest,
    outputOf (writeOpenAPI3Operation method path pi op)
    = operationHeading method path :: rest.
Proof.
  intros (u & out & E).
  rewrite E. unfold writeOpenAPI3Operation in E. cbv zeta in E.
  apply bind_Done_inv in E as (a & o1 & o2 & H1 & _ & ->).
  apply Fprintf_inv in H1. subst o1. now exists o2.
Qed.

(** C9, amended.  In the text of both adapters, the Endpoints section of a
    document with a paths object is made of one group per tag that some
    operation lists, the tags ascending, and then, when some operation has no
    tags, the group Untagged.  The group of a tag [t] is the heading [### t]
    followed by the blocks of the operations that list [t], in the order of
    the walk, each as many times as [t] occurs in its tag list; the group
    Untagged is the heading [### Untagged] followed by the blocks of the
    operations without tags.  The block of an operation is what the operation
    writer writes for it and begins with [#### <method> <path>].  So an
    operation without tags is written exactly once, in the group Untagged and
    in no group of a tag; an operation with tags is not written in the group
    Untagged, and is written in the group of [t] as often as [t] occurs in
    its tag list: once for each of its tags when they are distinct. *)
Theorem operations_under_headings :
  (forall s P b,
      swagger2Render s = Done tt b -> sw_Paths s = Some P ->
      let ops := operations2 P in
      let tags := fun r => op_Tags (Op2 r) in
      sectionOf "Endpoints by Tag" b = endpointsBy tags (block2 s) ops
      /\ (forall r, In r ops ->
            exists rest, block2 s r = operationHeading (Method2 r) (Path2 r) :: rest)
      /\ (NoDup (keys (paths_Paths P)) ->
          forall path pi method op,
            mapGet (paths_Paths P) path = Some pi ->
            In (method, Some op) (opsOf2 pi) ->
            occurrences Method2 Path2 method path (withoutTags tags ops)
            = (if (List.length (op_Tags op) =? 0)%nat then 1 else 0)
            /\ forall t, occurrences Method2 Path2 method path (underTag tags t ops)
                         = count_occ string_dec (op_Tags op) t))
  /\
  (forall doc P b,
      openAPI3Render doc = Done tt b -> O.t_Paths doc = Some P ->
      let ops := operations3 (O.paths_Map P) in
      let tags := fun r => O.op_Tags (Op3 r) in
      sectionOf "Endpoints by Tag" b = endpointsBy tags block3 ops
      /\ (forall r, In r ops ->
            exists rest, block3 r = operationHeading (Method3 r) (Path3 r) :: rest)
      /\ (NoDup (keys (O.paths_Map P)) ->
          forall path pi method op,
            mapGet (O.paths_Map P) path = Some (Some pi) ->
            In (method, Some op) (opsOf3 pi) ->
            occurrences Method3 Path3 method path (withoutTags tags ops)
            = (if (List.length (O.op_Tags op) =? 0)%nat then 1 else 0)
            /\ forall t, occurrences Method3 Path3 method path (underTag tags t ops)
                         = count_occ string_dec (O.op_Tags op) t)).
Proof.
  split.
  - intros s P b H HP ops tags. split; [|split].
    + exact (swagger2_endpoints s P b H HP).
    + intros r _. apply writeSwagger2Operation_heading.
    + intros Hnd path pi method op Hget Hop.
      destruct (swagger2Buckets_returns P) as ([tagged untagged] & out & Hb).
      destruct (swagger2Buckets_exact _ _ _ _ Hb) as (Hu & Ht & _).
      destruct (proj1 operations_in_buckets P tagged untagged out path pi method op
                  Hb Hnd Hget Hop) as [Cu Ct].
      unfold withoutTags, underTag. subst tags ops. cbv beta. rewrite <- Hu.
      split; [exact Cu|]. intros t. rewrite <- Ht. apply Ct.
  - intros doc P b H HP ops tags.
    destruct (openAPI3_endpoints doc P b H HP) as (Hsec & Hpass & tagged & untagged & out & Hb).
    split; [exact Hsec|split].
    + intros r Hr. apply writeOpenAPI3Operation_heading.
      apply writeOpenAPI3Operation_returns_iff.
      unfold ops, operations3 in Hr. apply in_flat_map in Hr as (p & Hp & Hr).
      unfold sort_Strings in Hp. apply sortBy_In in Hp.
      unfold operationsPass in Hpass. rewrite forallb_forall in Hpass.
      specialize (Hpass p Hp).
      destruct (mapIndex None (O.paths_Map P) p) as [pi|]; [|destruct Hr].
      unfold pathRefs in Hr. apply in_flat_map in Hr as ([m o] & Hit & Hr).
      rewrite forallb_forall in Hpass. specialize (Hpass _ Hit).
      simpl in Hr, Hpass. destruct o as [op|]; [|destruct Hr].
      destruct Hr as [<-|[]]. exact Hpass.
    + intros Hnd path pi method op Hget Hop.
      destruct (openAPI3Buckets_exact _ _ _ _ Hb) as (Hu & Ht & _).
      destruct (proj2 operations_in_buckets (O.paths_Map P) tagged untagged out path pi
                  method op Hb Hnd Hget Hop) as [Cu Ct].
      unfold withoutTags, underTag. subst tags ops. cbv beta. rewrite <- Hu.
      split; [exact Cu|]. intros t. rewrite <- Ht. apply Ct.
Qed.

End Properties.

(** ** Properties of the adapters and of the dispatcher

    They hold for every behaviour of the libraries. *)

Section Dispatch.

Variable Sprint : Any -> string.
Variable TrimSpace : string -> string.
Variable fenceText : string -> string -> option Any -> string.
Variable json_Unmarshal_Swagger : string -> spec.Swagger + string.
Variable LoadFromData : string -> option O.T + string.
Variable Validate : O.T -> option string.
Variable json_Unmarshal_any : string -> option Any + string.
Variable yaml_Unmarshal : string -> option Any + string.
Variable json_Marshal : option Any -> string + string.
Variable json_Unmarshal_versionProbe : string -> versionProbe + string.

Local Abbreviation bufferString :=
  (bufferString fenceText).
Local Abbreviation swagger2Render :=
  (swagger2Render Sprint TrimSpace).
Local Abbreviation openAPI3Render :=
  (openAPI3Render Sprint TrimSpace).
Local Abbreviation swagger2ToMarkdown :=
  (swagger2ToMarkdown Sprint TrimSpace fenceText json_Unmarshal_Swagger).
Local Abbreviation openAPI3ToMarkdown :=
  (openAPI3ToMarkdown Sprint TrimSpace fenceText LoadFromData Validate).
Local Abbreviation normalizeToJSON :=
  (normalizeToJSON json_Unmarshal_any yaml_Unmarshal json_Marshal).
Local Abbreviation ToMarkdown :=
  (ToMarkdown Sprint TrimSpace fenceText json_Unmarshal_Swagger LoadFromData Validate json_Unmarshal_any yaml_Unmarshal json_Marshal json_Unmarshal_versionProbe).

(** ** The adapter boundary *)


(** C8.  Each adapter either returns the text of the whole buffer and no
    error, or an error and the empty text.  The first happens exactly when the
    document was decoded and its walk returned; a panic of the walk is turned
    into the error that carries the recovered value. *)
Theorem adapter_text_or_error (data : string) (opts : Options_) :
  (textOrError (swagger2ToMarkdown data)
   /\ (forall s, json_Unmarshal_Swagger data = inl s ->
       match swagger2Render s with
       | Done _ b => swagger2ToMarkdown data = (bufferString b, None)
       | Panic r => swagger2ToMarkdown data
                    = (EmptyString, Some (ErrorfPanic "swagger2 conversion panic" r))
       end))
  /\
  (textOrError (openAPI3ToMarkdown data opts)
   /\ (forall doc, LoadFromData data = inl (Some doc) ->
       match openAPI3Render doc with
       | Done _ b => openAPI3ToMarkdown data opts = (bufferString b, None)
       | Panic r => openAPI3ToMarkdown data opts
                    = (EmptyString, Some (ErrorfPanic "openapi3 conversion panic" r))
       end)).
Proof.
  unfold textOrError, swagger2ToMarkdown, openAPI3ToMarkdown. split; split.
  - destruct (json_Unmarshal_Swagger data) as [s|e]; [|right; eauto].
    destruct (swagger2Render s); [left|right]; eauto.
  - intros s ->. destruct (swagger2Render s); reflexivity.
  - destruct (LoadFromData data) as [[doc|]|e]; [|right; eauto|right; eauto].
    destruct (openAPI3Render doc); [left|right]; eauto.
  - intros doc ->. destruct (openAPI3Render doc); reflexivity.
Qed.

(** ** The version dispatcher *)

(** C2, amended.  Once the input is normalised and the probe decoded, the
    dispatcher renders as Swagger 2.0 when the [swagger] field starts with 2.0,
    else as OpenAPI 3 when the [openapi] field starts with "3."; otherwise it
    returns the Swagger 2.0 rendering when that rendering succeeds, else the
    OpenAPI 3 rendering when that one succeeds, else the error that names
    both probe values.  A Swagger 2.0 rendering that ends in an error, be it a
    decoding error or a recovered panic of the walk, hands over to OpenAPI 3. *)
Theorem dispatch_by_probe (data : string) (opts : Options_) (jsonData : string)
    (vp : versionProbe) :
  normalizeToJSON data (Format_ opts) = inl jsonData ->
  json_Unmarshal_versionProbe jsonData = inl vp ->
  (HasPrefix (Swagger_ vp) "2.0" = true ->
   ToMarkdown data opts = swagger2ToMarkdown jsonData)
  /\ (HasPrefix (Swagger_ vp) "2.0" = false -> HasPrefix (OpenAPI_ vp) "3." = true ->
      ToMarkdown data opts = openAPI3ToMarkdown jsonData opts)
  /\ (HasPrefix (Swagger_ vp) "2.0" = false -> HasPrefix (OpenAPI_ vp) "3." = false ->
      (forall md, swagger2ToMarkdown jsonData = (md, None) ->
       ToMarkdown data opts = swagger2ToMarkdown jsonData)
      /\ (forall md e md', swagger2ToMarkdown jsonData = (md, Some e) ->
          openAPI3ToMarkdown jsonData opts = (md', None) ->
          ToMarkdown data opts = openAPI3ToMarkdown jsonData opts)
      /\ (forall md e md' e', swagger2ToMarkdown jsonData = (md, Some e) ->
          openAPI3ToMarkdown jsonData opts = (md', Some e') ->
          ToMarkdown data opts
          = (EmptyString, Some (ErrorfDetect (Swagger_ vp) (OpenAPI_ vp))))).
Proof.
  intros Hn Hp. unfold ToMarkdown. rewrite Hn, Hp.
  split; [|split].
  - now intros ->.
  - now intros -> ->.
  - intros -> ->. split; [|split].
    + intros md H. now rewrite H.
    + intros md e md' H2 H3. now rewrite H2, H3.
    + intros md e md' e' H2 H3. now rewrite H2, H3.
Qed.

(** *** More on [normalizeToJSON] and [ToMarkdown] *)

(** every format other than [json] and [yaml] is treated as [auto]; so is the
    zero value of [Options] *)
Lemma unknown_format_is_auto (data format : string) :
  String.eqb format FormatJSON = false ->
  String.eqb format FormatYAML = false ->
  normalizeToJSON data format = normalizeToJSON data FormatAuto.
Proof.
  intros Hj Hy. unfold normalizeToJSON. rewrite Hj, Hy. reflexivity.
Qed.

(** X6.  What [normalizeToJSON] returns is the input itself or the JSON
    encoding of the value the YAML decoder read from the input; in JSON mode
    it is the input, unread, and no error is possible. *)
Theorem normalizeToJSON_output (data format : string) :
  (forall out,
      normalizeToJSON data format = inl out ->
      out = data
      \/ exists v, yaml_Unmarshal data = inl v /\ json_Marshal v = inl out)
  /\ (format = FormatJSON -> normalizeToJSON data format = inl data)
  /\ (forall e, normalizeToJSON data format = inr e ->
      exists msg, yaml_Unmarshal data = inr msg
                  \/ exists v, yaml_Unmarshal data = inl v /\ json_Marshal v = inr msg).
Proof.
  unfold normalizeToJSON. split; [|split].
  - intros out. destruct (String.eqb format FormatJSON).
    { intros H. inversion H. now left. }
    destruct (String.eqb format FormatYAML).
    + destruct (yaml_Unmarshal data) as [v|e]; [|discriminate].
      destruct (json_Marshal v) as [j|e] eqn:E; [|discriminate].
      intros H. inversion H; subst. right. eauto.
    + destruct (json_Unmarshal_any data) as [v0|e0].
      { intros H. inversion H. now left. }
      destruct (yaml_Unmarshal data) as [v|e]; [|discriminate].
      destruct (json_Marshal v) as [j|e] eqn:E; [|discriminate].
      intros H. inversion H; subst. right. eauto.
  - intros ->. reflexivity.
  - intros e. destruct (String.eqb format FormatJSON); [discriminate|].
    destruct (String.eqb format FormatYAML).
    + destruct (yaml_Unmarshal data) as [v|msg]; [|eauto].
      destruct (json_Marshal v) as [j|msg] eqn:E; [discriminate|]. eauto.
    + destruct (json_Unmarshal_any data) as [v0|e0]; [discriminate|].
      destruct (yaml_Unmarshal data) as [v|msg]; [|eauto].
      destruct (json_Marshal v) as [j|msg] eqn:E; [discriminate|]. eauto.
Qed.

Lemma swagger2ToMarkdown_textOrError data : textOrError (swagger2ToMarkdown data).
Proof.
  unfold textOrError, swagger2ToMarkdown.
  destruct (json_Unmarshal_Swagger data) as [s|e]; [|right; eauto].
  destruct (swagger2Render s); [left|right]; eauto.
Qed.

Lemma openAPI3ToMarkdown_textOrError data opts : textOrError (openAPI3ToMarkdown data opts).
Proof.
  unfold textOrError, openAPI3ToMarkdown.
  destruct (LoadFromData data) as [[doc|]|e]; [|right; eauto|right; eauto].
  destruct (openAPI3Render doc); [left|right]; eauto.
Qed.

(** X7.  [ToMarkdown] returns a text together with no error, or an error
    together with the empty text, whatever the input, the options and the
    libraries do: an error of the first adapter tried in the fallback leaves
    nothing of its text behind. *)
Theorem ToMarkdown_text_or_error (data : string) (opts : Options_) :
  textOrError (ToMarkdown data opts).
Proof.
  unfold ToMarkdown.
  destruct (normalizeToJSON data (Format_ opts)) as [jsonData|err];
    [|right; eauto].
  destruct (json_Unmarshal_versionProbe jsonData) as [vp|e]; [|right; eauto].
  destruct (HasPrefix (Swagger_ vp) "2.0"); [apply swagger2ToMarkdown_textOrError|].
  destruct (HasPrefix (OpenAPI_ vp) "3."); [apply openAPI3ToMarkdown_textOrError|].
  destruct (swagger2ToMarkdown jsonData) as [md [e|]]; [|left; eauto].
  destruct (openAPI3ToMarkdown jsonData opts) as [md' [e'|]]; [right|left]; eauto.
Qed.

End Dispatch.

(** ** The format flag *)

Section FormatFlag.

Variable json_Unmarshal_any : string -> option Any + string.
Variable yaml_Unmarshal : string -> option Any + string.
Variable json_Marshal : option Any -> string + string.

Local Abbreviation normalizeToJSON :=
  (normalizeToJSON json_Unmarshal_any yaml_Unmarshal json_Marshal).

(** X14.  [parseFormatFlag] accepts the flag values auto, json, yaml and the
    empty one, and nothing else; it only checks the flag: converting with
    the format it returns is converting with the flag itself. *)
Theorem parseFormatFlag_accepts (formatFlag : string) :
  (snd (parseFormatFlag formatFlag) = None
   <-> In formatFlag ["auto"; EmptyString; "json"; "yaml"])
  /\ (forall format data,
        parseFormatFlag formatFlag = (format, None) ->
        normalizeToJSON data format = normalizeToJSON data formatFlag).
Proof.
  unfold parseFormatFlag. split.
  - simpl.
    destruct (String.eqb_spec formatFlag "auto") as [->|Ha]; [simpl; tauto|].
    destruct (String.eqb_spec formatFlag EmptyString) as [->|He]; [simpl; tauto|].
    destruct (String.eqb_spec formatFlag "json") as [->|Hj]; [simpl; tauto|].
    destruct (String.eqb_spec formatFlag "yaml") as [->|Hy]; [simpl; tauto|].
    simpl. split; [discriminate|]. intros [H|[H|[H|[H|[]]]]]; congruence.
  - intros format data.
    destruct (String.eqb_spec formatFlag "auto") as [->|Ha].
    { intros H. inversion H. reflexivity. }
    destruct (String.eqb_spec formatFlag EmptyString) as [->|He].
    { intros H. inversion H. reflexivity. }
    simpl.
    destruct (String.eqb_spec formatFlag "json") as [->|Hj].
    { intros H. inversion H. reflexivity. }
    destruct (String.eqb_spec formatFlag "yaml") as [->|Hy].
    { intros H. inversion H. reflexivity. }
    discriminate.
Qed.

End FormatFlag.

(** ** The command line *)

Section CommandLine.

Variable Sprint : Any -> string.
Variable TrimSpace : string -> string.
Variable fenceText : string -> string -> option Any -> string.
Variable json_Unmarshal_Swagger : string -> spec.Swagger + string.
Variable LoadFromData : string -> option O.T + string.
Variable Validate : O.T -> option string.
Variable json_Unmarshal_any : string -> option Any + string.
Variable yaml_Unmarshal : string -> option Any + string.
Variable json_Marshal : option Any -> string + string.
Variable json_Unmarshal_versionProbe : string -> versionProbe + string.
Variable io_ReadAll_Stdin : string * option string.
Variable os_ReadFile : string -> string * option string.
Variable http_Get : string -> (Z * (string * option string)) + string.
Variable os_WriteFile : string -> string -> option string.

Local Abbreviation normalizeToJSON :=
  (normalizeToJSON json_Unmarshal_any yaml_Unmarshal json_Marshal).
Local Abbreviation ToMarkdown :=
  (ToMarkdown Sprint TrimSpace fenceText json_Unmarshal_Swagger LoadFromData Validate json_Unmarshal_any yaml_Unmarshal json_Marshal json_Unmarshal_versionProbe).
Local Abbreviation main :=
  (main Sprint TrimSpace fenceText json_Unmarshal_Swagger LoadFromData Validate json_Unmarshal_any yaml_Unmarshal json_Marshal json_Unmarshal_versionProbe io_ReadAll_Stdin os_ReadFile http_Get os_WriteFile).
Local Abbreviation inputRead := (inputRead io_ReadAll_Stdin os_ReadFile http_Get).

Lemma isEmpty_true_iff s : isEmpty s = true <-> s = EmptyString.
Proof. destruct s; simpl; split; congruence. Qed.

Lemma isEmpty_false_iff s : isEmpty s = false <-> s <> EmptyString.
Proof. destruct s; simpl; split; congruence. Qed.

(** X15.  [main] reads nothing unless exactly one of the flags file and url
    is set: with none or both it only prints the usage line and exits with
    status 1; with one, its first event is the read of that source. *)
Theorem main_input_flags (fileFlag urlFlag outFlag formatFlag : string) :
  (isEmpty fileFlag = isEmpty urlFlag ->
   main fileFlag urlFlag outFlag formatFlag
   = ([Stderr ("exactly one of --file or --url must be specified" ++ nl)], 1%Z))
  /\ (isEmpty fileFlag <> isEmpty urlFlag ->
      hd_error (fst (main fileFlag urlFlag outFlag formatFlag))
      = Some (if isEmpty fileFlag then HttpGet urlFlag
              else if String.eqb fileFlag "-" then StdinRead
              else FileRead fileFlag)).
Proof.
  unfold main. split.
  - destruct (isEmpty fileFlag), (isEmpty urlFlag); try discriminate; reflexivity.
  - destruct (isEmpty fileFlag) eqn:Ef, (isEmpty urlFlag) eqn:Eu; try congruence; intros _.
    + cbn [negb Z.add Z.eqb Pos.eqb fst snd].
      destruct (http_Get urlFlag) as [[status body]|errReq]; [|reflexivity].
      destruct ((status <? 200)%Z || (300 <=? status)%Z); [reflexivity|].
      cbn [fst snd]. destruct body as [data [err|]]; [reflexivity|].
      destruct (parseFormatFlag formatFlag) as [format [err|]]; [reflexivity|].
      cbv zeta. destruct (ToMarkdown data _) as [md [err|]]; [reflexivity|].
      destruct (isEmpty outFlag); [reflexivity|].
      destruct (os_WriteFile outFlag md); reflexivity.
    + cbn [negb Z.add Z.eqb Pos.eqb fst snd].
      destruct (String.eqb fileFlag "-").
      * cbn [fst snd]. destruct io_ReadAll_Stdin as [data [err|]]; [reflexivity|].
        destruct (parseFormatFlag formatFlag) as [format [err|]]; [reflexivity|].
        cbv zeta. destruct (ToMarkdown data _) as [md [err|]]; [reflexivity|].
        destruct (isEmpty outFlag); [reflexivity|].
        destruct (os_WriteFile outFlag md); reflexivity.
      * cbn [fst snd]. destruct (os_ReadFile fileFlag) as [data [err|]]; [reflexivity|].
        destruct (parseFormatFlag formatFlag) as [format [err|]]; [reflexivity|].
        cbv zeta. destruct (ToMarkdown data _) as [md [err|]]; [reflexivity|].
        destruct (isEmpty outFlag); [reflexivity|].
        destruct (os_WriteFile outFlag md); reflexivity.
Qed.

(** the part of [main] after the input has been read *)
Lemma main_after_read (events : list Event) (data outFlag formatFlag : string) :
  let result :=
    match parseFormatFlag formatFlag with
    | (_, Some err) => ((events ++ [StderrError err])%list, 1%Z)
    | (parsedFormat, None) =>
        match ToMarkdown data {| Format_ := parsedFormat; SkipValidation := false |} with
        | (_, Some err) => ((events ++ [StderrConvert err])%list, 1%Z)
        | (md, None) =>
            if isEmpty outFlag
            then ((events ++ [StdoutWritten md])%list, 0%Z)
            else
              match os_WriteFile outFlag md with
              | Some err =>
                  ((events
                    ++ [FileWritten outFlag md;
                        Stderr ("failed to write output file: " ++ err ++ nl)])%list, 1%Z)
              | None => ((events ++ [FileWritten outFlag md])%list, 0%Z)
              end
        end
    end in
  (snd result = 0%Z
   <-> exists format md,
         parseFormatFlag formatFlag = (format, None)
         /\ ToMarkdown data {| Format_ := format; SkipValidation := false |} = (md, None)
         /\ (isEmpty outFlag = true \/ os_WriteFile outFlag md = None))
  /\ (snd result = 0%Z ->
      exists md, fst result = (events ++ [outputEvent outFlag md])%list)
  /\ (forall md,
        In (StdoutWritten md) (fst result) \/ (exists path, In (FileWritten path md) (fst result)) ->
        (In (StdoutWritten md) events \/ exists path, In (FileWritten path md) events)
        \/ exists format,
             parseFormatFlag formatFlag = (format, None)
             /\ ToMarkdown data {| Format_ := format; SkipValidation := false |} = (md, None)).
Proof.
  cbv zeta. unfold outputEvent.
  destruct (parseFormatFlag formatFlag) as [format [err|]].
  { split; [|split].
    - split; [discriminate|]. intros (f & md & E & _). discriminate.
    - discriminate.
    - intros md [H|[path H]]; apply in_app_or in H as [H|[H|[]]];
        try discriminate; eauto. }
  destruct (ToMarkdown data {| Format_ := format; SkipValidation := false |})
    as [md [err|]] eqn:Em.
  { split; [|split].
    - split; [discriminate|]. intros (f & md' & E & E' & _).
      inversion E; subst f. rewrite Em in E'. discriminate.
    - discriminate.
    - intros md' [H|[path H]]; apply in_app_or in H as [H|[H|[]]];
        try discriminate; eauto. }
  destruct (isEmpty outFlag) eqn:Eo.
  { split; [|split].
    - split; [|reflexivity]. intros _. exists format, md. auto.
    - intros _. now exists md.
    - intros md' [H|[path H]]; apply in_app_or in H as [H|[H|[]]];
        try discriminate; eauto.
      inversion H; subst md'. right. eauto. }
  destruct (os_WriteFile outFlag md) as [err|] eqn:Ew.
  - split; [|split].
    + split; [discriminate|]. intros (f & md' & E & E' & [Ho|Hw]); [discriminate|].
      inversion E; subst f. rewrite Em in E'. inversion E'; subst md'. congruence.
    + discriminate.
    + intros md' [H|[path H]]; apply in_app_or in H as [H|[H|[H|[]]]];
        try discriminate; eauto.
      inversion H; subst. right. eauto.
  - split; [|split].
    + split; [|reflexivity]. intros _. exists format, md. auto.
    + intros _. now exists md.
    + intros md' [H|[path H]]; apply in_app_or in H as [H|[H|[]]];
        try discriminate; eauto.
      inversion H; subst. right. eauto.
Qed.

(** X16.  [main] ends with status 0 exactly when the one source named by the
    flags was read without error (for a URL: with a status code from 200 to
    299), the format flag was accepted, [ToMarkdown] converted the data read
    with that format, and the output file, if one is named, was written; its
    last event is then the write of that Markdown, to the file or else to
    the standard output.  Nothing but the Markdown of the input is ever
    written to either of them. *)
Theorem main_exit_status (fileFlag urlFlag outFlag formatFlag : string) :
  let result := main fileFlag urlFlag outFlag formatFlag in
  (snd result = 0%Z
   <-> exists data format md,
         inputRead fileFlag urlFlag data
         /\ parseFormatFlag formatFlag = (format, None)
         /\ ToMarkdown data {| Format_ := format; SkipValidation := false |} = (md, None)
         /\ (isEmpty outFlag = true \/ os_WriteFile outFlag md = None))
  /\ (snd result = 0%Z ->
      exists md, last (fst result) StdinRead = outputEvent outFlag md)
  /\ (forall md,
        In (StdoutWritten md) (fst result) \/ (exists path, In (FileWritten path md) (fst result)) ->
        exists data format,
          inputRead fileFlag urlFlag data
          /\ parseFormatFlag formatFlag = (format, None)
          /\ ToMarkdown data {| Format_ := format; SkipValidation := false |} = (md, None)).
Proof.
  cbv zeta. unfold main, inputRead.
  destruct (isEmpty fileFlag) eqn:Ef, (isEmpty urlFlag) eqn:Eu;
    cbn [negb Z.add Z.eqb Pos.eqb fst snd].
  - (* neither flag *)
    apply isEmpty_true_iff in Ef, Eu. subst.
    split; [split; [discriminate|]|split; [discriminate|]].
    + intros (data & format & md & [(E & _)|[(E & _)|(_ & E & _)]] & _);
        congruence.
    + intros md [[H|[]]|[path [H|[]]]]; discriminate.
  - (* the URL *)
    apply isEmpty_true_iff in Ef. apply isEmpty_false_iff in Eu. subst fileFlag.
    destruct (http_Get urlFlag) as [[status [data [err|]]]|errReq] eqn:Eh.
    + (* the body could not be read, if it was asked for *)
      destruct ((status <? 200)%Z || (300 <=? status)%Z) eqn:Er; cbn [fst snd].
      * split; [split; [discriminate|]|split; [discriminate|]].
        -- intros (data' & format & md & [(E & _)|[(E & _)|(_ & _ & st & E & _)]] & _);
             congruence.
        -- intros md [[H|[H|[]]]|[path [H|[H|[]]]]]; discriminate.
      * split; [split; [discriminate|]|split; [discriminate|]].
        -- intros (data' & format & md & [(E & _)|[(E & _)|(_ & _ & st & E & _)]] & _);
             congruence.
        -- intros md [H|[path H]]; simpl in H; intuition discriminate.
    + destruct ((status <? 200)%Z || (300 <=? status)%Z) eqn:Er; cbn [fst snd].
      * split; [split; [discriminate|]|split; [discriminate|]].
        -- intros (data' & format & md & [(E & _)|[(E & _)|(_ & _ & st & E & Hr)]] & _);
             try congruence.
           inversion E; subst st. apply orb_true_iff in Er as [Er|Er]; lia.
        -- intros md [[H|[H|[]]]|[path [H|[H|[]]]]]; discriminate.
      * apply orb_false_iff in Er as [Er1 Er2].
        destruct (main_after_read [HttpGet urlFlag; BodyRead] data outFlag formatFlag)
          as (HA & HC & HB). cbv zeta in HA, HC, HB.
        split; [|split].
        -- rewrite HA. split.
           ++ intros (format & md & Hp & Hm & Hw). exists data, format, md.
              repeat split; auto. right. right. repeat split; auto.
              exists status. split; [reflexivity|lia].
           ++ intros (data' & format & md & [(E & _)|[(E & _)|(_ & _ & st & E & _)]]
                      & Hp & Hm & Hw); try congruence.
              inversion E; subst. exists format, md. auto.
        -- intros H0. destruct (HC H0) as (md & E). exists md. rewrite E.
           apply last_last.
        -- intros md Hw. destruct (HB md Hw) as [[H|[path H]]|(format & Hp & Hm)].
           ++ simpl in H. intuition discriminate.
           ++ simpl in H. intuition discriminate.
           ++ exists data, format. repeat split; auto. right. right.
              repeat split; auto. exists status. split; [reflexivity|lia].
    + (* the request failed *)
      cbn [fst snd]. split; [split; [discriminate|]|split; [discriminate|]].
      * intros (data' & format & md & [(E & _)|[(E & _)|(_ & _ & st & E & _)]] & _);
          congruence.
      * intros md [[H|[H|[]]]|[path [H|[H|[]]]]]; discriminate.
  - (* the file, or the standard input *)
    apply isEmpty_true_iff in Eu. apply isEmpty_false_iff in Ef. subst urlFlag.
    destruct (String.eqb_spec fileFlag "-") as [->|Hdash].
    + cbn [fst snd]. destruct io_ReadAll_Stdin as [data [err|]] eqn:Ei.
      * split; [split; [discriminate|]|split; [discriminate|]].
        -- intros (data' & format & md & [(_ & _ & E)|[(_ & E & _)|(E & _)]] & _);
             congruence.
        -- intros md [H|[path H]]; simpl in H; intuition discriminate.
      * destruct (main_after_read [StdinRead] data outFlag formatFlag)
          as (HA & HC & HB). cbv zeta in HA, HC, HB.
        split; [|split].
        -- rewrite HA. split.
           ++ intros (format & md & Hp & Hm & Hw). exists data, format, md.
              repeat split; auto.
           ++ intros (data' & format & md & [(_ & _ & E)|[(_ & E & _)|(E & _)]]
                      & Hp & Hm & Hw); try congruence.
              inversion E; subst. exists format, md. auto.
        -- intros H0. destruct (HC H0) as (md & E). exists md. rewrite E.
           apply last_last.
        -- intros md Hw. destruct (HB md Hw) as [[H|[path H]]|(format & Hp & Hm)].
           ++ simpl in H. intuition discriminate.
           ++ simpl in H. intuition discriminate.
           ++ exists data, format. repeat split; auto.
    + cbn [fst snd]. destruct (os_ReadFile fileFlag) as [data [err|]] eqn:Er.
      * split; [split; [discriminate|]|split; [discriminate|]].
        -- intros (data' & format & md & [(E & _)|[(_ & _ & _ & E)|(E & _)]] & _);
             congruence.
        -- intros md [H|[path H]]; simpl in H; intuition discriminate.
      * destruct (main_after_read [FileRead fileFlag] data outFlag formatFlag)
          as (HA & HC & HB). cbv zeta in HA, HC, HB.
        split; [|split].
        -- rewrite HA. split.
           ++ intros (format & md & Hp & Hm & Hw). exists data, format, md.
              repeat split; auto. right. left. auto.
           ++ intros (data' & format & md & [(E & _)|[(_ & _ & _ & E)|(E & _)]]
                      & Hp & Hm & Hw); try congruence.
              inversion E; subst. exists format, md. auto.
        -- intros H0. destruct (HC H0) as (md & E). exists md. rewrite E.
           apply last_last.
        -- intros md Hw. destruct (HB md Hw) as [[H|[path H]]|(format & Hp & Hm)].
           ++ simpl in H. intuition discriminate.
           ++ simpl in H. intuition discriminate.
           ++ exists data, format. repeat split; auto. right. left. auto.
  - (* both flags *)
    apply isEmpty_false_iff in Ef, Eu.
    split; [split; [discriminate|]|split; [discriminate|]].
    + intros (data & format & md & [(_ & E & _)|[(_ & _ & E & _)|(E & _)]] & _);
        congruence.
    + intros md [[H|[]]|[path [H|[]]]]; discriminate.
Qed.

End CommandLine.

(** ** The properties on the sample documents *)

Import spec.


Local Abbreviation render2 := (swagger2Render sampleSprint sampleTrimSpace).
Local Abbreviation render3 := (openAPI3Render sampleSprint sampleTrimSpace).
Local Abbreviation toMarkdown2 :=
  (swagger2ToMarkdown sampleSprint sampleTrimSpace sampleFence sampleUnmarshalSwagger).
Local Abbreviation toMarkdown3 :=
  (openAPI3ToMarkdown sampleSprint sampleTrimSpace sampleFence sampleLoad sampleValidate).
Local Abbreviation toMarkdown :=
  (ToMarkdown sampleSprint sampleTrimSpace sampleFence sampleUnmarshalSwagger sampleLoad
     sampleValidate sampleDecodeAny sampleDecodeAny sampleMarshal sampleProbe).
Local Abbreviation text := (bufferString sampleFence).

(** A document without paths: the Swagger 2.0 walk dereferences the nil
    [Paths] and the adapter returns the error of the recovered panic; the
    OpenAPI 3 walk returns. *)
Lemma adapter_text_or_error_witness :
  toMarkdown2 textNoPaths
  = (EmptyString, Some (ErrorfPanic "swagger2 conversion panic" nilDeref))
  /\ exists b, render3 docNoPaths = Done tt b
               /\ toMarkdown3 textNoPaths optionsJSON = (text b, None).
Proof.
  destruct (adapter_text_or_error sampleSprint sampleTrimSpace sampleFence
              sampleUnmarshalSwagger sampleLoad sampleValidate textNoPaths optionsJSON)
    as [[_ H2] [_ H3]].
  split.
  - exact (H2 zeroSwagger eq_refl).
  - eexists. split; [vm_compute; reflexivity|].
    exact (H3 docNoPaths eq_refl).
Defined.

(** The test document carries [swagger: 2.0] and is rendered by the Swagger 2.0
    adapter; the document without probes and without paths falls through to
    the OpenAPI 3 adapter. *)
Lemma dispatch_by_probe_witness :
  toMarkdown textPing optionsJSON = toMarkdown2 textPing
  /\ toMarkdown textNoPaths optionsJSON = toMarkdown3 textNoPaths optionsJSON.
Proof.
  split.
  - exact (proj1 (dispatch_by_probe sampleSprint sampleTrimSpace sampleFence
                    sampleUnmarshalSwagger sampleLoad sampleValidate sampleDecodeAny
                    sampleDecodeAny sampleMarshal sampleProbe
                    textPing optionsJSON textPing
                    {| Swagger_ := "2.0"; OpenAPI_ := EmptyString |} eq_refl eq_refl)
                 eq_refl).
  - destruct (dispatch_by_probe sampleSprint sampleTrimSpace sampleFence
                sampleUnmarshalSwagger sampleLoad sampleValidate sampleDecodeAny
                sampleDecodeAny sampleMarshal sampleProbe
                textNoPaths optionsJSON textNoPaths
                {| Swagger_ := EmptyString; OpenAPI_ := EmptyString |} eq_refl eq_refl)
      as (_ & _ & H).
    destruct (H eq_refl eq_refl) as (_ & H3 & _).
    eapply H3; vm_compute; reflexivity.
Defined.

(** C2 as stated fails on the document without probes and without paths: the
    Swagger 2.0 decoder accepts it, yet the dispatcher does not return what
    the Swagger 2.0 adapter returns. *)
Lemma dispatch_fallback_counterexample :
  sampleProbe textNoPaths = inl {| Swagger_ := EmptyString; OpenAPI_ := EmptyString |}
  /\ sampleUnmarshalSwagger textNoPaths = inl zeroSwagger
  /\ toMarkdown textNoPaths optionsJSON <> toMarkdown2 textNoPaths.
Proof.
  split; [reflexivity|]. split; [reflexivity|].
  vm_compute. discriminate.
Qed.

(** The operation of the specification's example, tagged a and b: in the
    bucket of each of the two tags once, and not in the untagged bucket, in
    both adapters. *)
Lemma operations_in_buckets_witness :
  (exists tagged untagged,
      swagger2Buckets pathsAB = Done (tagged, untagged) []
      /\ occurrences Method2 Path2 "GET" "/x" untagged = 0
      /\ occurrences Method2 Path2 "GET" "/x" (mapIndex [] tagged "a") = 1
      /\ occurrences Method2 Path2 "GET" "/x" (mapIndex [] tagged "b") = 1)
  /\
  (exists tagged untagged,
      openAPI3Buckets pathMapAB = Done (tagged, untagged) []
      /\ occurrences Method3 Path3 "GET" "/pets" untagged = 0
      /\ occurrences Method3 Path3 "GET" "/pets" (mapIndex [] tagged "a") = 1
      /\ occurrences Method3 Path3 "GET" "/pets" (mapIndex [] tagged "b") = 1).
Proof.
  split.
  - do 2 eexists. split; [vm_compute; reflexivity|].
    assert (Hnd : NoDup (keys (paths_Paths pathsAB))).
    { repeat constructor. simpl. tauto. }
    destruct (proj1 operations_in_buckets pathsAB _ _ [] "/x" (onlyGet opAB) "GET" opAB
                eq_refl Hnd eq_refl (or_introl eq_refl)) as [Hu Ht].
    split; [exact Hu|]. split; [exact (Ht "a")|exact (Ht "b")].
  - do 2 eexists. split; [vm_compute; reflexivity|].
    assert (Hnd : NoDup (keys pathMapAB)).
    { repeat constructor. simpl. tauto. }
    destruct (proj2 operations_in_buckets pathMapAB _ _ [] "/pets" (onlyGet3 opExamples3)
                "GET" opExamples3 eq_refl Hnd eq_refl (or_introl eq_refl)) as [Hu Ht].
    split; [exact Hu|]. split; [exact (Ht "a")|exact (Ht "b")].
Defined.

(** C9 as stated fails on an operation whose tag list names the tag a twice:
    the text has one heading for the tag and the operation twice under it.
    It also fails on a tag named Untagged: the operation that carries it is
    printed under a heading Untagged, as is the operation without tags under
    a second such heading. *)
Lemma operation_twice_counterexample :
  (op_Tags opTwiceA = ["a"; "a"]
   /\ exists b, render2 swaggerTwiceA = Done tt b
                /\ countSubstring ("### a" ++ nl) (text b) = 1
                /\ countSubstring ("#### GET /x" ++ nl) (text b) = 2)
  /\
  (op_Tags opNamedUntagged = ["Untagged"]
   /\ exists b, render2 swaggerNamedUntagged = Done tt b
                /\ b = [Raw ("# -" ++ nl ++ nl); Raw ("## Overview" ++ nl);
                        Raw ("- Version: -" ++ nl);
                        Raw (nl ++ "## Authentication" ++ nl); Raw ("- None defined" ++ nl);
                        Raw (nl ++ "## Servers" ++ nl); Raw ("- None defined" ++ nl);
                        Raw (nl ++ "## Tags" ++ nl); Raw ("- None defined" ++ nl);
                        Raw (nl ++ "## Endpoints by Tag" ++ nl);
                        Raw (nl ++ "### Untagged" ++ nl); Raw (nl ++ "#### GET /t" ++ nl);
                        Raw (nl ++ "### Untagged" ++ nl); Raw (nl ++ "#### GET /u" ++ nl);
                        Raw (nl ++ "## Examples" ++ nl)]).
Proof.
  split.
  - split; [reflexivity|]. eexists. split; [vm_compute; reflexivity|].
    split; vm_compute; reflexivity.
  - split; [reflexivity|]. eexists. split; [vm_compute; reflexivity|].
    vm_compute. reflexivity.
Qed.

(** An array of references to [Pet] and an array of strings, in both dialects. *)
Lemma array_summary_witness :
  (schemaSummarySwagger2 (Some (arrayOf EmptyString refToPet)) = "Pet[]"
   /\ schemaSummarySwagger2 (Some (arrayOf EmptyString stringSchema)) = "array<string>"
   /\ schemaSummarySwagger2 (Some (arrayOf EmptyString zeroSchema)) = "array")
  /\ (typeOfSchemaRef (Some (inline3 (arrayOf3 refToPet3))) = "Pet[]"
      /\ typeOfSchemaRef (Some (inline3 (arrayOf3 (inline3 (plainSchema3 (Some ["string"]) None)))))
         = "array<string>"
      /\ typeOfSchemaRef (Some (inline3 (arrayOf3 (inline3 (plainSchema3 None None))))) = "array").
Proof.
  destruct array_summary as [HA HB]. split.
  - split; [|split].
    + destruct (HA (arrayOf EmptyString refToPet) _ eq_refl eq_refl eq_refl) as (H & _).
      exact (H refToPet "#/definitions" "Pet" eq_refl eq_refl eq_refl eq_refl).
    + destruct (HA (arrayOf EmptyString stringSchema) _ eq_refl eq_refl eq_refl)
        as (_ & H & _).
      apply (H stringSchema eq_refl eq_refl). discriminate.
    + destruct (HA (arrayOf EmptyString zeroSchema) _ eq_refl eq_refl eq_refl)
        as (_ & _ & H & _).
      exact (H zeroSchema eq_refl eq_refl eq_refl).
  - split; [|split].
    + destruct (HB (inline3 (arrayOf3 refToPet3)) _ _ eq_refl eq_refl eq_refl eq_refl)
        as (H & _).
      exact (H "#/components/schemas" "Pet" eq_refl eq_refl eq_refl).
    + destruct (HB (inline3 (arrayOf3 (inline3 (plainSchema3 (Some ["string"]) None))))
                  _ _ eq_refl eq_refl eq_refl eq_refl) as (_ & H & _).
      apply (H _ ["string"] eq_refl eq_refl eq_refl). discriminate.
    + destruct (HB (inline3 (arrayOf3 (inline3 (plainSchema3 None None))))
                  _ _ eq_refl eq_refl eq_refl eq_refl) as (_ & _ & H).
      apply (H eq_refl). right. eexists. split; [reflexivity|]. now left.
Defined.

(** C5 as stated fails on a node of declared type array that is itself a
    reference: the summarizers return the name of the reference, not [Pet[]]. *)
Lemma array_summary_counterexample :
  (Type_ (arrayOf "#/definitions/PetList" refToPet) = ["array"]
   /\ Items (arrayOf "#/definitions/PetList" refToPet) = Some {| soa_Schema := Some refToPet |}
   /\ schemaSummarySwagger2 (Some (arrayOf "#/definitions/PetList" refToPet)) = "PetList"
   /\ schemaSummarySwagger2 (Some (arrayOf "#/definitions/PetList" refToPet)) <> "Pet[]")
  /\ (O.Value refToPetList3 = Some (arrayOf3 refToPet3)
      /\ O.Type_ (arrayOf3 refToPet3) = Some ["array"]
      /\ typeOfSchemaRef (Some refToPetList3) = "$ref:PetList"
      /\ typeOfSchemaRef (Some refToPetList3) <> "Pet[]").
Proof.
  repeat split; try reflexivity; vm_compute; discriminate.
Qed.

(** The bare node in both dialects. *)
Lemma untyped_summary_witness :
  schemaSummarySwagger2 (Some zeroSchema) = EmptyString
  /\ nonEmpty (schemaSummarySwagger2 (Some zeroSchema)) "-" = "-"
  /\ typeOfSchemaRef (Some (inline3 (plainSchema3 None None))) = "object"
  /\ typeOfSchemaRef (Some {| O.Ref := EmptyString; O.Value := None |}) = "-".
Proof.
  destruct (untyped_summary sampleTrimSpace) as (HA & _ & HB & _ & HN).
  destruct (HA zeroSchema eq_refl eq_refl) as (H1 & H2 & _).
  split; [exact H1|]. split; [exact H2|]. split.
  - apply (HB (inline3 (plainSchema3 None None)) _ eq_refl eq_refl). now left.
  - exact (HN {| O.Ref := EmptyString; O.Value := None |} eq_refl).
Defined.

(** C6 as stated fails on the bare Swagger 2.0 node: the summarizer returns
    the empty text, not the placeholder. *)
Lemma untyped_summary_counterexample :
  Ref zeroSchema = EmptyString /\ Type_ zeroSchema = [] /\ Items zeroSchema = None
  /\ schemaSummarySwagger2 (Some zeroSchema) <> "-".
Proof.
  repeat split. vm_compute. discriminate.
Qed.

Local Abbreviation write3 := (writeOpenAPI3Operation sampleSprint sampleTrimSpace).
Local Abbreviation write2 := (writeSwagger2Operation sampleSprint sampleTrimSpace).

(** The response example named alt, for status 200 and application/json. *)
Lemma response_example_labels_witness :
  exists out,
    write3 "GET" "/pets" (onlyGet3 opExamples3) opExamples3 = Done tt out
    /\ In (Fence "Response example (alt, 200, application/json)" "application/json"
             (Some (AString "other"))) out
    /\ In (Fence "Response example (200, application/json)" "application/json"
             (Some (AString "inline"))) out.
Proof.
  eexists. split; [vm_compute; reflexivity|].
  destruct (response_example_labels sampleSprint sampleTrimSpace
              "GET" "/pets" (onlyGet3 opExamples3) opExamples3 _ responsesOk3 "200"
              {| O.respref_Value := Some okResponse3 |} okResponse3
              "application/json" jsonMedia
              eq_refl eq_refl eq_refl eq_refl eq_refl) as [Hnamed Hanon].
  split.
  - exact (Hnamed "alt" _ _ (AString "other") eq_refl eq_refl eq_refl).
  - exact (Hanon (AString "inline") eq_refl).
Defined.

(** The body parameter with an example on its schema, for two media types
    and for none; a body parameter behind a query parameter, its example on
    the items of its array schema; an example given as [x-example]. *)
Lemma request_example_blocks_witness :
  (exists out,
      write2 "POST" "/pets" opCreate [] [] = Done tt out
      /\ filter isRequestExample out
         = [Fence "Request example (application/json)" "application/json" (Some (AString "rex"));
            Fence "Request example (application/xml)" "application/xml" (Some (AString "rex"))])
  /\
  (exists out,
      write2 "POST" "/pets" opCreateBare [] [] = Done tt out
      /\ filter isRequestExample out
         = [Fence "Request example" EmptyString (Some (AString "rex"))])
  /\
  (exists out,
      write2 "POST" "/pets"
        (opWithParams [queryParam; bodyParamOf (arrayOf EmptyString petSchema)])
        [] ["application/json"] = Done tt out
      /\ filter isRequestExample out
         = [Fence "Request example (application/json)" "application/json" (Some (AString "rex"))])
  /\
  (exists out,
      write2 "POST" "/pets" (opWithParams [bodyParamOf extensionSchema]) [] [] = Done tt out
      /\ filter isRequestExample out
         = [Fence "Request example" EmptyString (Some (AString "tom"))]).
Proof.
  split; [|split; [|split]].
  - apply (request_example_blocks sampleSprint sampleTrimSpace "POST" "/pets" opCreate [] []
             [] bodyParam [] petSchema (AString "rex") eq_refl (Forall_nil _) eq_refl eq_refl).
    apply exampleOnSchema. reflexivity.
  - apply (request_example_blocks sampleSprint sampleTrimSpace "POST" "/pets" opCreateBare [] []
             [] bodyParam [] petSchema (AString "rex") eq_refl (Forall_nil _) eq_refl eq_refl).
    apply exampleOnSchema. reflexivity.
  - apply (request_example_blocks sampleSprint sampleTrimSpace "POST" "/pets"
             (opWithParams [queryParam; bodyParamOf (arrayOf EmptyString petSchema)])
             [] ["application/json"]
             [queryParam] (bodyParamOf (arrayOf EmptyString petSchema)) []
             (arrayOf EmptyString petSchema) (AString "rex") eq_refl).
    + constructor; [right; reflexivity|constructor].
    + reflexivity.
    + reflexivity.
    + apply (exampleOnItems _ _ {| soa_Schema := Some petSchema |} petSchema); reflexivity.
  - apply (request_example_blocks sampleSprint sampleTrimSpace "POST" "/pets"
             (opWithParams [bodyParamOf extensionSchema]) [] []
             [] (bodyParamOf extensionSchema) [] extensionSchema (AString "tom")
             eq_refl (Forall_nil _) eq_refl eq_refl).
    apply exampleAsExtension; [reflexivity| |reflexivity].
    intros items it H. discriminate.
Defined.

(** C10 as stated fails on an operation with two body parameters: the schema
    of the second carries an example, the writer looks at the first only and
    writes no request example. *)
Lemma request_example_second_body_counterexample :
  In bodyParam (op_Parameters opTwoBodies)
  /\ prm_In bodyParam = "body"
  /\ (exists sc ex, prm_Schema bodyParam = Some sc /\ Example sc = Some ex)
  /\ exists out,
       write2 "POST" "/pets" opTwoBodies [] [] = Done tt out
       /\ filter isRequestExample out = [].
Proof.
  split; [simpl; auto|]. split; [reflexivity|]. split.
  - exists petSchema, (AString "rex"). split; reflexivity.
  - eexists. split; vm_compute; reflexivity.
Qed.

(** The parameter [id], declared by the path item and by the operation. *)
Lemma parameters_listed_in_order_witness :
  exists out rest,
    write3 "GET" "/items/{id}" pathItemWithId opWithId = Done tt out
    /\ out = ([Raw (nl ++ "#### GET /items/{id}" ++ nl);
               Raw ("**Parameters**" ++ nl);
               Raw ("- path " ++ tick ++ "id" ++ tick ++ " (-) (required) " ++ emdash
                    ++ " of the path item" ++ nl);
               Raw ("- path " ++ tick ++ "id" ++ tick ++ " (-) (required) " ++ emdash
                    ++ " of the operation" ++ nl)] ++ rest)%list.
Proof.
  eexists. 
  destruct (parameters_listed_in_order sampleSprint sampleTrimSpace
              "GET" "/items/{id}" pathItemWithId opWithId _ eq_refl) as [rest H].
  exists rest. split; [reflexivity|]. exact H.
Defined.

(** C4 as stated fails on that operation: the pair (id, path) is listed
    twice, and the line of the path item is not replaced by the line of the
    operation. *)
Lemma parameters_deduplicated_counterexample :
  O.pi_Parameters pathItemWithId = [idParam "of the path item"]
  /\ O.op_Parameters opWithId = [idParam "of the operation"]
  /\ write3 "GET" "/items/{id}" pathItemWithId opWithId
     = Done tt [Raw (nl ++ "#### GET /items/{id}" ++ nl);
                Raw ("**Parameters**" ++ nl);
                Raw ("- path " ++ tick ++ "id" ++ tick ++ " (-) (required) " ++ emdash
                     ++ " of the path item" ++ nl);
                Raw ("- path " ++ tick ++ "id" ++ tick ++ " (-) (required) " ++ emdash
                     ++ " of the operation" ++ nl)].
Proof.
  split; [reflexivity|]. split; [reflexivity|]. vm_compute. reflexivity.
Qed.

(** The test document: no schema is defined, and the Authentication, Servers
    and Tags sections are empty. *)
Lemma section_headings_witness :
  exists b,
    render2 swaggerPing = Done tt b
    /\ headingsOf b
       = map sectionHeading
           ["Overview"; "Authentication"; "Servers"; "Tags"; "Endpoints by Tag"; "Examples"]
    /\ adjacent (sectionHeading "Authentication") noneDefinedLine b
    /\ (exists b3,
           render3 docNoPaths = Done tt b3
           /\ headingsOf b3
              = map sectionHeading
                  ["Overview"; "Authentication"; "Servers"; "Tags"; "Endpoints by Tag";
                   "Examples"]
           /\ adjacent (sectionHeading "Examples") noneDefinedLine b3).
Proof.
  destruct (section_headings sampleSprint sampleTrimSpace) as [H2 H3].
  eexists. split; [vm_compute; reflexivity|].
  destruct (H2 swaggerPing _ eq_refl) as (Hh & Ha & _).
  split; [exact Hh|]. split; [exact (Ha eq_refl)|].
  eexists. split; [vm_compute; reflexivity|].
  destruct (H3 docNoPaths _ eq_refl) as (c & Hc & Hh3 & _ & _ & _ & Hp).
  inversion Hc; subst c. split; [exact Hh3|]. exact (proj2 (Hp eq_refl)).
Defined.

(** C3 as stated fails on the test document, which defines no schema: its
    text has the Overview heading once and no Schemas heading. *)
Lemma section_schemas_counterexample :
  exists md,
    toMarkdown textPing optionsJSON = (md, None)
    /\ countSubstring "## Overview" md = 1
    /\ countSubstring "## Schemas" md = 0.
Proof.
  eexists. split; [vm_compute; reflexivity|]. split; vm_compute; reflexivity.
Qed.

(** C1 fails in the Swagger 2.0 adapter: the security definitions are printed
    in the order [range] yields them.  The same two definitions, visited in
    the two possible orders, give two different texts. *)
Lemma security_definitions_order :
  Permutation authAB authBA
  /\ NoDup (keys authAB)
  /\ (exists b1 b2,
         render2 (swaggerAuth authAB) = Done tt b1
         /\ render2 (swaggerAuth authBA) = Done tt b2
         /\ text b1 <> text b2).
Proof.
  split; [apply perm_swap|]. split.
  - repeat constructor; simpl; intuition discriminate.
  - do 2 eexists. split; [vm_compute; reflexivity|].
    split; [vm_compute; reflexivity|]. vm_compute. discriminate.
Qed.

(** ** More properties on the sample documents *)

Local Abbreviation normalize :=
  (normalizeToJSON sampleDecodeAny sampleDecodeAny sampleMarshal).
Local Abbreviation run :=
  (main sampleSprint sampleTrimSpace sampleFence sampleUnmarshalSwagger sampleLoad
     sampleValidate sampleDecodeAny sampleDecodeAny sampleMarshal sampleProbe
     sampleStdin sampleReadFile sampleGet sampleWriteFile).
Local Abbreviation operation3 := (writeOpenAPI3Operation sampleSprint sampleTrimSpace).

Lemma contains_In_witness : contains ["id"; "name"] "name" = true.
Proof. apply (proj2 (contains_In ["id"; "name"] "name")). simpl. auto. Defined.

Lemma refName_empty_iff_witness : refName "#/definitions/Pet" <> EmptyString.
Proof.
  intros H. apply (proj1 (refName_empty_iff "#/definitions/Pet")) in H. discriminate.
Defined.

(** a reference on an array node wins over the array *)
Lemma reference_summary_witness :
  schemaSummarySwagger2 (Some (arrayOf "#/definitions/PetList" stringSchema)) = "PetList"
  /\ typeOfSchemaRef (Some refToPetList3) = "$ref:PetList".
Proof.
  split.
  - exact (proj1 reference_summary (arrayOf "#/definitions/PetList" stringSchema) eq_refl).
  - exact (proj2 reference_summary refToPetList3 (arrayOf3 refToPet3) eq_refl eq_refl).
Defined.

Lemma hostURL_shape_witness :
  hostURL [] "example.org" "/v1" = "http://example.org/v1"
  /\ hostURL ["https"; "http"] "example.org" EmptyString = "https://example.org".
Proof.
  split.
  - exact (proj2 (hostURL_shape [] "example.org" "/v1") eq_refl).
  - exact (proj2 (hostURL_shape ["https"; "http"] "example.org" EmptyString) eq_refl).
Defined.

Lemma normalizeToJSON_output_witness : normalize textPing FormatJSON = inl textPing.
Proof.
  exact (proj1 (proj2 (normalizeToJSON_output sampleDecodeAny sampleDecodeAny sampleMarshal
                         textPing FormatJSON)) eq_refl).
Defined.

(** the document without paths makes the Swagger 2.0 walk panic; the test
    document does not *)
Lemma swagger2_walk_returns_witness :
  returns (render2 swaggerPing) /\ ~ returns (render2 zeroSwagger).
Proof.
  split.
  - apply (proj2 (swagger2_walk_returns sampleSprint sampleTrimSpace swaggerPing)).
    split; reflexivity.
  - intros H.
    apply (proj1 (swagger2_walk_returns sampleSprint sampleTrimSpace zeroSwagger)) in H.
    destruct H as [H _]. discriminate.
Defined.

Lemma openAPI3_operation_returns_witness :
  returns (operation3 "GET" "/pets" (onlyGet3 opExamples3) opExamples3)
  /\ ~ returns (operation3 "GET" "/x" (onlyGet3 opNilMedia) opNilMedia).
Proof.
  split.
  - apply (proj2 (openAPI3_operation_returns sampleSprint sampleTrimSpace
                    "GET" "/pets" (onlyGet3 opExamples3) opExamples3)).
    split.
    + intros rb body mt E. discriminate.
    + intros rs code r mt Ers Hcode Er Hmt. inversion Ers; subst rs.
      simpl in Hcode. destruct Hcode as [<-|[]]. inversion Er; subst r.
      simpl in Hmt. destruct Hmt as [<-|[]]. discriminate.
  - intros H.
    apply (proj1 (openAPI3_operation_returns sampleSprint sampleTrimSpace
                    "GET" "/x" (onlyGet3 opNilMedia) opNilMedia)) in H.
    destruct H as [_ H].
    apply (H _ "200" _ "application/json" eq_refl (or_introl eq_refl) eq_refl
             (or_introl eq_refl)).
    reflexivity.
Defined.

Lemma openAPI3_walk_returns_witness :
  returns (render3 docForward)
  /\ ~ returns (render3 (docOf [] [] [("/x", Some (onlyGet3 opNilMedia))])).
Proof.
  split.
  - apply (proj2 (openAPI3_walk_returns sampleSprint sampleTrimSpace docForward)).
    reflexivity.
  - intros H.
    apply (proj1 (openAPI3_walk_returns sampleSprint sampleTrimSpace _)) in H.
    discriminate.
Defined.

(** the operation tagged a and b is once in each of the two buckets *)
Lemma buckets_in_walk_order_witness :
  exists tagged untagged,
    openAPI3Buckets pathMapAB = Done (tagged, untagged) []
    /\ untagged = []
    /\ mapIndex [] tagged "a" = operations3 pathMapAB
    /\ mapIndex [] tagged "b" = operations3 pathMapAB
    /\ ~ In "c" (keys tagged).
Proof.
  do 2 eexists. split; [vm_compute; reflexivity|].
  destruct (proj2 buckets_in_walk_order pathMapAB _ _ [] eq_refl) as (Hu & Ht & Hk).
  split; [exact Hu|]. split; [exact (Ht "a")|]. split; [exact (Ht "b")|].
  intros Hc. apply Hk in Hc as (r & Hr & Hin).
  simpl in Hr. destruct Hr as [<-|[]]. simpl in Hin. intuition discriminate.
Defined.

Lemma openAPI3_map_order_independent_witness : render3 docForward = render3 docBackward.
Proof.
  apply (openAPI3_map_order_independent sampleSprint sampleTrimSpace).
  unfold sameDocument3, sameMap. simpl.
  repeat split; try apply perm_swap; repeat constructor; simpl; intuition discriminate.
Defined.

Lemma swagger2_map_order_independent_witness :
  render2 swaggerForward = render2 swaggerBackward.
Proof.
  apply (swagger2_map_order_independent sampleSprint sampleTrimSpace).
  unfold sameDocument2, sameMap. simpl.
  repeat split; try apply perm_swap; repeat constructor; simpl; intuition discriminate.
Defined.

Lemma parseFormatFlag_accepts_witness :
  snd (parseFormatFlag "yaml") = None
  /\ snd (parseFormatFlag "YAML") <> None
  /\ normalize textPing FormatAuto = normalize textPing EmptyString.
Proof.
  split; [|split].
  - apply (proj1 (parseFormatFlag_accepts sampleDecodeAny sampleDecodeAny sampleMarshal
                    "yaml")).
    simpl. auto.
  - intros H.
    apply (proj1 (parseFormatFlag_accepts sampleDecodeAny sampleDecodeAny sampleMarshal
                    "YAML")) in H.
    simpl in H. intuition discriminate.
  - exact (proj2 (parseFormatFlag_accepts sampleDecodeAny sampleDecodeAny sampleMarshal
                    EmptyString) FormatAuto textPing eq_refl).
Defined.

(** both flags, and the file flag alone *)
Lemma main_input_flags_witness :
  run "ping.json" "http://example.org/ping.json" EmptyString "json"
  = ([Stderr ("exactly one of --file or --url must be specified" ++ nl)], 1%Z)
  /\ hd_error (fst (run "ping.json" EmptyString EmptyString "json"))
     = Some (FileRead "ping.json").
Proof.
  split.
  - exact (proj1 (main_input_flags sampleSprint sampleTrimSpace sampleFence
                    sampleUnmarshalSwagger sampleLoad sampleValidate sampleDecodeAny
                    sampleDecodeAny sampleMarshal sampleProbe
                    sampleStdin sampleReadFile sampleGet sampleWriteFile
                    "ping.json" "http://example.org/ping.json" EmptyString "json") eq_refl).
  - apply (proj2 (main_input_flags sampleSprint sampleTrimSpace sampleFence
                    sampleUnmarshalSwagger sampleLoad sampleValidate sampleDecodeAny
                    sampleDecodeAny sampleMarshal sampleProbe
                    sampleStdin sampleReadFile sampleGet sampleWriteFile
                    "ping.json" EmptyString EmptyString "json")).
    discriminate.
Defined.

(** the test document from the standard input to the file out.md; a URL that
    answers 404 *)
Lemma main_exit_status_witness :
  (exists md,
      toMarkdown textPing optionsJSON = (md, None)
      /\ snd (run "-" EmptyString "out.md" "json") = 0%Z
      /\ last (fst (run "-" EmptyString "out.md" "json")) StdinRead
         = FileWritten "out.md" md)
  /\ snd (run EmptyString "http://example.org/none" EmptyString "json") <> 0%Z.
Proof.
  split.
  - eexists. split; [vm_compute; reflexivity|].
    destruct (main_exit_status sampleSprint sampleTrimSpace sampleFence
                sampleUnmarshalSwagger sampleLoad sampleValidate sampleDecodeAny
                sampleDecodeAny sampleMarshal sampleProbe
                sampleStdin sampleReadFile sampleGet sampleWriteFile
                "-" EmptyString "out.md" "json") as (HA & _ & _).
    cbv zeta in HA.
    assert (H0 : snd (run "-" EmptyString "out.md" "json") = 0%Z).
    { apply HA. exists textPing, FormatJSON. eexists.
      split; [left; repeat split; reflexivity|].
      split; [reflexivity|]. split; [vm_compute; reflexivity|]. right. reflexivity. }
    split; [exact H0|]. vm_compute. reflexivity.
  - intros H.
    apply (proj1 (proj1 (main_exit_status sampleSprint sampleTrimSpace sampleFence
                           sampleUnmarshalSwagger sampleLoad sampleValidate sampleDecodeAny
                           sampleDecodeAny sampleMarshal sampleProbe
                           sampleStdin sampleReadFile sampleGet sampleWriteFile
                           EmptyString "http://example.org/none" EmptyString "json"))) in H.
    destruct H as (data & format & md & [(E & _)|[(E & _)|(_ & _ & st & E & Hr)]] & _);
      [discriminate|now elim E|].
    vm_compute in E. inversion E; subst. lia.
Defined.

Lemma swagger2_response_example_labels_witness :
  exists out,
    write2 "GET" "/pets" opResponseExample [] [] = Done tt out
    /\ In (Fence "Response example (200, application/json)" "application/json"
             (Some (AString "rex"))) out.
Proof.
  eexists. split; [vm_compute; reflexivity|].
  exact (swagger2_response_example_labels sampleSprint sampleTrimSpace
           "GET" "/pets" opResponseExample [] [] _
           {| StatusCodeResponses := [(200%Z, exampleResponse)]; Default_ := None |}
           200%Z exampleResponse "application/json"
           eq_refl eq_refl eq_refl (or_introl eq_refl)).
Defined.

Lemma request_body_example_labels_witness :
  exists out,
    write3 "POST" "/pets" (onlyGet3 opRequestExamples3) opRequestExamples3 = Done tt out
    /\ In (Fence "Request example (application/json)" "application/json"
             (Some (AString "inline"))) out
    /\ In (Fence "Request example (alt, application/json)" "application/json"
             (Some (AString "other"))) out.
Proof.
  eexists. split; [vm_compute; reflexivity|].
  destruct (request_body_example_labels sampleSprint sampleTrimSpace
              "POST" "/pets" (onlyGet3 opRequestExamples3) opRequestExamples3 _
              {| O.bodyref_Value := Some requestBody3 |} requestBody3
              "application/json" jsonMedia
              eq_refl eq_refl eq_refl eq_refl) as [Hanon Hnamed].
  split.
  - exact (Hanon (AString "inline") eq_refl).
  - exact (Hnamed "alt" _ _ (AString "other") eq_refl eq_refl eq_refl).
Defined.

Lemma refName_last_segment_witness :
  refName "Pet" = "Pet" /\ refName "#/definitions/Pet" = "Pet".
Proof.
  destruct refName_last_segment as (Hwhole & _ & Hname & _). split.
  - exact (Hwhole "Pet" eq_refl).
  - apply (Hname "#/definitions" "Pet"); [discriminate|reflexivity].
Defined.

(** The operation of the specification's example, tagged a and b: its block is
    written once in the group of a and once in the group of b, and there is
    no group Untagged.  In the OpenAPI 3 document, an operation tagged b and a
    and an operation without tags: the groups a, b and Untagged. *)
Lemma operations_under_headings_witness :
  (exists b,
      render2 swaggerAB = Done tt b
      /\ sectionOf "Endpoints by Tag" b
         = [tagHeading "a"; operationHeading "GET" "/x";
            tagHeading "b"; operationHeading "GET" "/x"]
      /\ occurrences Method2 Path2 "GET" "/x"
           (underTag (fun r => op_Tags (Op2 r)) "a" (operations2 pathsAB)) = 1
      /\ occurrences Method2 Path2 "GET" "/x"
           (withoutTags (fun r => op_Tags (Op2 r)) (operations2 pathsAB)) = 0)
  /\
  (exists b,
      render3 docAB = Done tt b
      /\ sectionOf "Endpoints by Tag" b
         = [tagHeading "a"; operationHeading "GET" "/x";
            tagHeading "b"; operationHeading "GET" "/x";
            tagHeading "Untagged"; operationHeading "GET" "/pets"]).
Proof.
  split.
  - eexists. split; [vm_compute; reflexivity|].
    destruct (proj1 (operations_under_headings sampleSprint sampleTrimSpace)
                swaggerAB pathsAB _ eq_refl eq_refl) as (Hsec & _ & Hcount).
    cbv zeta in Hsec, Hcount.
    split; [apply (eq_trans Hsec); vm_compute; reflexivity|].
    assert (Hnd : NoDup (keys (paths_Paths pathsAB))).
    { repeat constructor. simpl. tauto. }
    destruct (Hcount Hnd "/x" (onlyGet opAB) "GET" opAB eq_refl (or_introl eq_refl))
      as [Hu Ht].
    split; [exact (Ht "a")|exact Hu].
  - eexists. split; [vm_compute; reflexivity|].
    destruct (proj2 (operations_under_headings sampleSprint sampleTrimSpace)
                docAB _ _ eq_refl eq_refl) as (Hsec & _ & _).
    cbv zeta in Hsec. apply (eq_trans Hsec). vm_compute. reflexivity.
Defined.
